(** * Document field extraction and statement ledger: a shallow embedding

    This development embeds in Rocq the extraction core of the repository
    ([Statements/Application_extractor.py] and
    [Statements/Statements_extractor.py]) and proves properties of it.

    Modelling conventions.
    - Python [str] is [string]; the character classes of [re] and of the
      [str] methods ([\w], [\s], [\d], [lower], [split], ...) are the ones
      Python uses on 7-bit ASCII text; characters above 127 belong to no
      class and have no case.
    - Python [float] is [Q], the rational number that a finite float
      denotes.  Where a result depends on the rounding of floats (the
      revenue average, the lender rules) the operations are those of
      [F64]: the nearest binary64 value after each operation.  Elsewhere
      (balances, monthly totals, confidences, lengths of ownership) the
      arithmetic is written exact, [round(x, n)] rounding the exact value
      half-to-even, and the properties stated of these functions are
      ones that the rounding of floats does not change.
    - Python [dict] is an association list in insertion order with unique
      keys ([dict_set] overwrites in place or appends).
    - [datetime.date] is a record of year, month and day; the operations of
      the [datetime] module that the code calls are written out below.
    - A Python exception is a value [Raise e] of [result]; loops that the
      code writes with [while] take a bound, and [Raise OutOfFuel] marks the
      bound being hit.
    - Calls into other packages (fuzzy matching, date parsing, PDF and OCR
      engines) and the clock are parameters of the functions that use them. *)

From Stdlib Require Import ZArith QArith Qround Qabs List Ascii String Lia Lqa Bool.
From Stdlib Require Import Permutation Sorted.
Import ListNotations.

Local Open Scope Z_scope.

(** ** Outcomes of fallible code *)

Inductive exn : Type :=
| KeyError
| ValueError
| OverflowError
| NameError
| OutOfFuel.

Inductive result (A : Type) : Type :=
| Ok (a : A)
| Raise (e : exn).

Arguments Ok {A} a.
Arguments Raise {A} e.

Definition bind {A B : Type} (r : result A) (f : A -> result B) : result B :=
  match r with
  | Ok a => f a
  | Raise e => Raise e
  end.

(** ** Numbers *)

Module Num.

Definition Qltb (a b : Q) : bool := negb (Qle_bool b a).

Definition Qmin (a b : Q) : Q := if Qle_bool a b then a else b.
Definition Qmax (a b : Q) : Q := if Qle_bool a b then b else a.

(** [round(x)] of Python 3 with no digits: the nearest integer, ties to
    the even one. *)
Definition round_half_even (q : Q) : Z :=
  let fl := Qfloor q in
  match Qcompare (q - inject_Z fl) (1 # 2) with
  | Lt => fl
  | Gt => fl + 1
  | Eq => if Z.even fl then fl else fl + 1
  end.

(** [round(x, nd)]: the result is kept in lowest terms. *)
Definition round_nd (nd : nat) (q : Q) : Q :=
  let scale := Z.pow 10 (Z.of_nat nd) in
  Qred (Qmake (round_half_even (q * inject_Z scale)) (Z.to_pos scale)).

Definition round2 : Q -> Q := round_nd 2.
Definition round1 : Q -> Q := round_nd 1.

Definition Qsum (l : list Q) : Q := fold_left Qplus l 0%Q.

Definition Qlen {A : Type} (l : list A) : Q := inject_Z (Z.of_nat (List.length l)).

End Num.
Import Num.

(** ** Floats

    A finite float of Python is a rational number, and each operation
    on floats returns the binary64 value nearest to the exact result,
    ties going to the even significand.  Infinities and NaN are left
    out: the values here stay far below [2 ** 1024]. *)

Module F64.

(** [2 ** e] *)
Definition pow2 (e : Z) : Q :=
  if 0 <=? e then inject_Z (2 ^ e) else Qmake 1 (Z.to_pos (2 ^ (- e))).

(** The [e] with [2 ** e <= |q| < 2 ** (e + 1)], for [q] other than 0. *)
Definition binade (q : Q) : Z :=
  let e := Z.log2 (Z.abs (Qnum q)) - Z.log2 (Zpos (Qden q)) in
  if Qle_bool (pow2 e) (Qabs q) then e else e - 1.

(** The exponent of the last place of the binary64 values around [q]:
    53 significant bits, and no exponent below -1074. *)
Definition ulp_exp (q : Q) : Z := Z.max (binade q - 52) (-1074).

(** The binary64 value nearest to [q], ties to the even significand. *)
Definition b64 (q : Q) : Q :=
  if Qeq_bool q 0 then 0%Q
  else let u := pow2 (ulp_exp q) in
       Qred (inject_Z (round_half_even (q / u)) * u).

Definition fadd (a b : Q) : Q := b64 (a + b).
Definition fsub (a b : Q) : Q := b64 (a - b).
Definition fdiv (a b : Q) : Q := b64 (a / b).

(** [float(n)] *)
Definition float_of_int (n : Z) : Q := b64 (inject_Z n).

(** [round(x, nd)] of a float: the decimal with [nd] digits nearest to
    [x], ties to the even digit, then the binary64 value nearest to that
    decimal. *)
Definition round_digits (nd : nat) (x : Q) : Q :=
  let scale := Z.pow 10 (Z.of_nat nd) in
  b64 (Qmake (round_half_even (x * inject_Z scale)) (Z.to_pos scale)).

(** The loop of the built-in [sum] over floats, from the running sum
    [f] and the compensation [c]: plain additions before Python 3.12,
    Neumaier's compensated summation from Python 3.12 on. *)
Fixpoint sum_floats (compensated : bool) (f c : Q) (l : list Q) : Q :=
  match l with
  | [] => if compensated && negb (Qeq_bool c 0) then fadd f c else f
  | x :: r =>
      let t := fadd f x in
      let c' := if Qle_bool (Qabs x) (Qabs f)
                then fadd c (fadd (fsub f t) x)
                else fadd c (fadd (fsub x t) f) in
      sum_floats compensated t (if compensated then c' else 0%Q) r
  end.

(** [sum(l)] of a list of floats: the integer 0 for the empty list,
    and [0 + x] before the loop over the rest. *)
Definition builtin_sum (compensated : bool) (l : list Q) : Q :=
  match l with
  | [] => 0%Q
  | x :: r => sum_floats compensated (fadd 0 x) 0 r
  end.

End F64.

(** ** Stable sorting, as [list.sort] *)

Section Sort.
Context {A : Type} (leb : A -> A -> bool).

(** [x] goes after every element that is not greater than it, so equal
    elements keep their order. *)
Fixpoint insert_sorted (x : A) (l : list A) : list A :=
  match l with
  | [] => [x]
  | y :: r => if leb y x then y :: insert_sorted x r else x :: y :: r
  end.

Definition sort (l : list A) : list A :=
  fold_left (fun acc x => insert_sorted x acc) l [].

End Sort.

(** ** Dictionaries in insertion order *)

Section Dict.
Context {K V : Type} (keq : K -> K -> bool).

Definition dict : Type := list (K * V).

Fixpoint dict_get (m : dict) (k : K) : option V :=
  match m with
  | [] => None
  | (k', v) :: r => if keq k k' then Some v else dict_get r k
  end.

Fixpoint dict_set (m : dict) (k : K) (v : V) : dict :=
  match m with
  | [] => [(k, v)]
  | (k', v') :: r =>
      if keq k k' then (k', v) :: r else (k', v') :: dict_set r k v
  end.

Definition dict_mem (m : dict) (k : K) : bool :=
  match dict_get m k with Some _ => true | None => false end.

Definition dict_keys (m : dict) : list K := map fst m.
Definition dict_values (m : dict) : list V := map snd m.

(** [defaultdict]: a missing key reads as [dflt]. *)
Definition dict_get_default (m : dict) (k : K) (dflt : V) : V :=
  match dict_get m k with Some v => v | None => dflt end.

End Dict.

Arguments dict K V : clear implicits.

(** ** Calendar dates, as [datetime.date] *)

Module Date.

Record date : Type := mkdate { year : Z; month : Z; day : Z }.

Definition MINYEAR : Z := 1.
Definition MAXYEAR : Z := 9999.

Definition is_leap (y : Z) : bool :=
  (y mod 4 =? 0) && (negb (y mod 100 =? 0) || (y mod 400 =? 0)).

Definition days_in_month (y m : Z) : Z :=
  if m =? 2 then (if is_leap y then 29 else 28)
  else if (m =? 4) || (m =? 6) || (m =? 9) || (m =? 11) then 30
  else 31.

Definition valid_date (d : date) : bool :=
  (MINYEAR <=? year d) && (year d <=? MAXYEAR)
  && (1 <=? month d) && (month d <=? 12)
  && (1 <=? day d) && (day d <=? days_in_month (year d) (month d)).

(** [date(y, m, d)]: [ValueError] outside the calendar. *)
Definition date_new (y m d : Z) : result date :=
  let r := mkdate y m d in
  if valid_date r then Ok r else Raise ValueError.

Definition date_eqb (a b : date) : bool :=
  (year a =? year b) && (month a =? month b) && (day a =? day b).

Definition date_ltb (a b : date) : bool :=
  (year a <? year b)
  || ((year a =? year b)
      && ((month a <? month b)
          || ((month a =? month b) && (day a <? day b)))).

Definition date_leb (a b : date) : bool := date_ltb a b || date_eqb a b.

Definition date_max : date := mkdate 9999 12 31.
Definition date_min : date := mkdate 1 1 1.

Definition days_before_year (y : Z) : Z :=
  let y1 := y - 1 in y1 * 365 + y1 / 4 - y1 / 100 + y1 / 400.

Definition days_before_month (y m : Z) : Z :=
  fold_left (fun acc k => acc + days_in_month y k)
            (map Z.of_nat (seq 1 (Z.to_nat (m - 1)))) 0.

Definition toordinal (d : date) : Z :=
  days_before_year (year d) + days_before_month (year d) (month d) + day d.

(** [d + timedelta(days=1)]: [OverflowError] past [date.max]. *)
Definition date_succ (d : date) : result date :=
  if day d <? days_in_month (year d) (month d)
  then Ok (mkdate (year d) (month d) (day d + 1))
  else if month d <? 12
  then Ok (mkdate (year d) (month d + 1) 1)
  else if year d <? MAXYEAR
  then Ok (mkdate (year d + 1) 1 1)
  else Raise OverflowError.

(** [d - timedelta(days=1)]: [OverflowError] before [date.min]. *)
Definition date_pred (d : date) : result date :=
  if 1 <? day d
  then Ok (mkdate (year d) (month d) (day d - 1))
  else if 1 <? month d
  then Ok (mkdate (year d) (month d - 1) (days_in_month (year d) (month d - 1)))
  else if MINYEAR <? year d
  then Ok (mkdate (year d - 1) 12 31)
  else Raise OverflowError.

(** [(a - b).days] *)
Definition days_between (a b : date) : Z := toordinal a - toordinal b.

End Date.
Import Date.

(** ** Characters and strings, as Python's [str] on ASCII text *)

Module Str.

Local Open Scope string_scope.
Local Open Scope N_scope.

Definition code (c : ascii) : N := N_of_ascii c.

Definition in_range (lo hi : N) (c : ascii) : bool :=
  (lo <=? code c) && (code c <=? hi).

Definition is_digit (c : ascii) : bool := in_range 48 57 c.
Definition is_upper (c : ascii) : bool := in_range 65 90 c.
Definition is_lower (c : ascii) : bool := in_range 97 122 c.
Definition is_alpha (c : ascii) : bool := is_upper c || is_lower c.
Definition is_alnum (c : ascii) : bool := is_alpha c || is_digit c.

(** [\w] *)
Definition is_word (c : ascii) : bool := is_alnum c || (code c =? 95).

(** [\s] and [str.isspace]: tab, newline, vertical tab, form feed,
    carriage return, the four separators 0x1c-0x1f, and space. *)
Definition is_space (c : ascii) : bool := in_range 9 13 c || in_range 28 32 c.

(** Line boundaries of [str.splitlines] (a carriage return followed by a
    line feed counts once, see [splitlines]). *)
Definition is_linebreak (c : ascii) : bool := in_range 10 13 c || in_range 28 30 c.

Definition to_lower (c : ascii) : ascii :=
  if is_upper c then ascii_of_N (code c + 32) else c.

Definition to_upper (c : ascii) : ascii :=
  if is_lower c then ascii_of_N (code c - 32) else c.

Fixpoint map_chars (f : ascii -> ascii) (s : string) : string :=
  match s with
  | EmptyString => EmptyString
  | String c r => String (f c) (map_chars f r)
  end.

Definition lower : string -> string := map_chars to_lower.
Definition upper : string -> string := map_chars to_upper.

Definition len (s : string) : Z := Z.of_nat (String.length s).

Fixpoint rev_append (s acc : string) : string :=
  match s with
  | EmptyString => acc
  | String c r => rev_append r (String c acc)
  end.

Definition rev (s : string) : string := rev_append s EmptyString.

Fixpoint drop (n : nat) (s : string) : string :=
  match n, s with
  | O, _ => s
  | S k, String _ r => drop k r
  | S _, EmptyString => EmptyString
  end.

Fixpoint take (n : nat) (s : string) : string :=
  match n, s with
  | S k, String c r => String c (take k r)
  | _, _ => EmptyString
  end.

(** [s[i:j]] for [0 <= i <= j] *)
Definition slice (i j : nat) (s : string) : string := take (j - i) (drop i s).

Definition startswith (s p : string) : bool := String.prefix p s.

Definition endswith (s p : string) : bool := String.prefix (rev p) (rev s).

(** [needle in hay] *)
Fixpoint contains (needle hay : string) : bool :=
  String.prefix needle hay
  || match hay with
     | EmptyString => false
     | String _ r => contains needle r
     end.

(** [hay.find(needle)]: [None] stands for [-1]. *)
Fixpoint find (needle hay : string) : option nat :=
  if String.prefix needle hay then Some O
  else match hay with
       | EmptyString => None
       | String _ r => option_map S (find needle r)
       end.

(** [s.replace(old, new)] for a non-empty [old]: [skip] counts the
    characters of a replaced occurrence still to be passed over. *)
Fixpoint replace_from (old new : string) (skip : nat) (s : string) : string :=
  match s with
  | EmptyString => EmptyString
  | String c r =>
      match skip with
      | S k => replace_from old new k r
      | O =>
          if String.prefix old s
          then new ++ replace_from old new (String.length old - 1) r
          else String c (replace_from old new O r)
      end
  end.

Definition replace (old new s : string) : string := replace_from old new O s.

Fixpoint lstrip_by (p : ascii -> bool) (s : string) : string :=
  match s with
  | String c r => if p c then lstrip_by p r else s
  | EmptyString => EmptyString
  end.

Definition rstrip_by (p : ascii -> bool) (s : string) : string :=
  rev (lstrip_by p (rev s)).

Definition strip_by (p : ascii -> bool) (s : string) : string :=
  rstrip_by p (lstrip_by p s).

Fixpoint mem_char (c : ascii) (chars : string) : bool :=
  match chars with
  | EmptyString => false
  | String x r => Ascii.eqb c x || mem_char c r
  end.

(** [s.strip()] and [s.strip(chars)] *)
Definition strip (s : string) : string := strip_by is_space s.
Definition strip_chars (chars s : string) : string :=
  strip_by (fun c => mem_char c chars) s.

(** Pieces of [s] between characters satisfying [sep]; empty pieces are
    kept ([cur] is the piece being read, reversed). *)
Fixpoint split_by_from (sep : ascii -> bool) (cur : string) (s : string) : list string :=
  match s with
  | EmptyString => [rev cur]
  | String c r =>
      if sep c then rev cur :: split_by_from sep EmptyString r
      else split_by_from sep (String c cur) r
  end.

Definition split_by (sep : ascii -> bool) (s : string) : list string :=
  split_by_from sep EmptyString s.

Definition nonempty (s : string) : bool :=
  match s with EmptyString => false | _ => true end.

(** [s.split()]: runs of whitespace separate, no empty piece. *)
Definition split_ws (s : string) : list string :=
  filter nonempty (split_by is_space s).

(** [s.split(sep)] for a non-empty string [sep]. *)
Fixpoint split_on_from (sep : string) (skip : nat) (cur : string) (s : string) : list string :=
  match s with
  | EmptyString => [rev cur]
  | String c r =>
      match skip with
      | S k => split_on_from sep k cur r
      | O =>
          if String.prefix sep s
          then rev cur :: split_on_from sep (String.length sep - 1) EmptyString r
          else split_on_from sep O (String c cur) r
      end
  end.

Definition split_on (sep s : string) : list string :=
  split_on_from sep O EmptyString s.

(** [s.splitlines()]: no empty last line, [\r\n] is one boundary. *)
Fixpoint splitlines_from (cur : string) (s : string) : list string :=
  match s with
  | EmptyString => if nonempty cur then [rev cur] else []
  | String c r =>
      if is_linebreak c
      then rev cur ::
           match c, r with
           | "013"%char, String "010"%char r' => splitlines_from EmptyString r'
           | _, _ => splitlines_from EmptyString r
           end
      else splitlines_from (String c cur) r
  end.

Definition splitlines (s : string) : list string := splitlines_from EmptyString s.

Definition join (sep : string) (l : list string) : string := String.concat sep l.

(** [l[:n]] and [l[-n:]] for [n > 0] *)
Definition head_items {A : Type} (n : nat) (l : list A) : list A := firstn n l.
Definition tail_items {A : Type} (n : nat) (l : list A) : list A :=
  skipn (List.length l - n) l.

Definition digit_char (d : Z) : ascii := ascii_of_N (48 + Z.to_N d).
Definition digit_val (c : ascii) : Z := Z.of_N (code c - 48).

(** The decimal digits of [n >= 0], most significant first; [fuel] bounds
    their number. *)
Fixpoint digits_from (fuel : nat) (n : Z) (acc : string) : string :=
  match fuel with
  | O => acc
  | S f =>
      let acc' := String (digit_char (n mod 10)) acc in
      if (n <? 10)%Z then acc' else digits_from f (n / 10)%Z acc'
  end.

Definition digits (n : Z) : string :=
  digits_from (S (Z.to_nat (Z.log2 n))) n EmptyString.

Fixpoint zeros (n : nat) : string :=
  match n with O => EmptyString | S k => String "0"%char (zeros k) end.

(** [str(n)] *)
Definition str_of_int (n : Z) : string :=
  if (n <? 0)%Z then String "-"%char (digits (- n)) else digits n.

(** [f"{n:0Wd}"]: the sign counts in the width. *)
Definition fmt_0d (width : nat) (n : Z) : string :=
  if (n <? 0)%Z
  then let ds := digits (- n) in
       String "-"%char (zeros (width - 1 - String.length ds) ++ ds)
  else let ds := digits n in zeros (width - String.length ds) ++ ds.

(** [int(s)] for a string of ASCII digits. *)
Definition int_of_digits (s : string) : Z :=
  (fix go (acc : Z) (s : string) : Z :=
     match s with
     | EmptyString => acc
     | String c r => go (acc * 10 + digit_val c)%Z r
     end) 0%Z s.

(** [f"{q:.{nd}f}"]: the value rounded half-to-even to [nd >= 1] decimals. *)
Definition fmt_fixed (nd : nat) (q : Q) : string :=
  let scale := Z.pow 10 (Z.of_nat nd) in
  let n := round_half_even (q * inject_Z scale) in
  let a := Z.abs n in
  let sign := if (n <? 0)%Z then "-" else "" in
  sign ++ digits (a / scale) ++ "." ++ fmt_0d nd (a mod scale).

Definition leb (a b : string) : bool := String.leb a b.

(** [x in l] for a tuple or list of strings *)
Definition mem_string (x : string) (l : list string) : bool :=
  existsb (String.eqb x) l.

End Str.

(** ** Regular expressions, as the backtracking matcher of Python's [re] *)

Module Re.

Import Str.
Local Open Scope string_scope.
Local Open Scope nat_scope.

Inductive regex : Type :=
| Eps
| Chr (p : ascii -> bool)
| Seq (a b : regex)
| Alt (a b : regex)
| Rep (greedy : bool) (lo : nat) (hi : option nat) (a : regex)
| Grp (n : nat) (a : regex)
| Bol
| Eol
| Wordb.

(** A position in the subject: its index, the character before it, the
    text after it, and the spans of the groups closed so far. *)
Record state : Type := mkstate {
  pos : nat;
  prev : option ascii;
  rest : string;
  caps : list (nat * (nat * nat))
}.

Definition is_word_opt (c : option ascii) : bool :=
  match c with Some x => is_word x | None => false end.

Definition next_char (s : state) : option ascii :=
  match rest s with String c _ => Some c | EmptyString => None end.

Definition below_max (hi : option nat) (cnt : nat) : bool :=
  match hi with Some h => cnt <? h | None => true end.

Definition or_else {A : Type} (a : option A) (b : unit -> option A) : option A :=
  match a with Some x => Some x | None => b tt end.

(** [run r s k]: the first way, in the order in which [re] tries them, of
    matching [r] at [s] so that the continuation [k] accepts what is left.
    A repetition gives up an iteration that consumed nothing once its
    lower bound is met. *)
Fixpoint run (r : regex) (s : state) (k : state -> option state) {struct r}
  : option state :=
  match r with
  | Eps => k s
  | Chr p =>
      match rest s with
      | String c t =>
          if p c then k (mkstate (S (pos s)) (Some c) t (caps s)) else None
      | EmptyString => None
      end
  | Seq a b => run a s (fun s' => run b s' k)
  | Alt a b => or_else (run a s k) (fun _ => run b s k)
  | Rep greedy lo hi a =>
      (fix iter (fuel cnt : nat) (s : state) {struct fuel} : option state :=
         match fuel with
         | O => None
         | S fuel' =>
             let more := fun _ : unit =>
               run a s (fun s' =>
                 if (lo <=? cnt) && (pos s' =? pos s) then None
                 else iter fuel' (S cnt) s') in
             if cnt <? lo then more tt
             else if negb (below_max hi cnt) then k s
             else if greedy then or_else (more tt) (fun _ => k s)
             else or_else (k s) more
         end) (lo + String.length (rest s) + 1) 0 s
  | Grp n a =>
      run a s (fun s' =>
        k (mkstate (pos s') (prev s') (rest s') ((n, (pos s, pos s')) :: caps s')))
  | Bol => if pos s =? 0 then k s else None
  | Eol =>
      match rest s with
      | EmptyString => k s
      | String "010"%char EmptyString => k s
      | _ => None
      end
  | Wordb =>
      if xorb (is_word_opt (prev s)) (is_word_opt (next_char s)) then k s else None
  end.

(** A match object: the subject, the span of the match, the groups. *)
Record rmatch : Type := mkmatch {
  subject : string;
  m_start : nat;
  m_end : nat;
  m_caps : list (nat * (nat * nat));
  m_after : state
}.

Fixpoint cap_lookup (n : nat) (l : list (nat * (nat * nat))) : option (nat * nat) :=
  match l with
  | [] => None
  | (m, sp) :: r => if m =? n then Some sp else cap_lookup n r
  end.

(** [m.group(0)] *)
Definition group0 (m : rmatch) : string := slice (m_start m) (m_end m) (subject m).

(** [m.group(n)]: [None] when the group took no part in the match. *)
Definition group (n : nat) (m : rmatch) : option string :=
  match cap_lookup n (m_caps m) with
  | Some (i, j) => Some (slice i j (subject m))
  | None => None
  end.

(** A group that is part of every match of its pattern. *)
Definition group_str (n : nat) (m : rmatch) : string :=
  match group n m with Some g => g | None => EmptyString end.

Definition match_at (r : regex) (subj : string) (s : state)
           (k : state -> option state) : option rmatch :=
  match run r (mkstate (pos s) (prev s) (rest s) []) k with
  | Some e => Some (mkmatch subj (pos s) (pos e) (caps e) e)
  | None => None
  end.

(** The leftmost match at or after [s]. *)
Fixpoint search_from (r : regex) (subj : string) (p : nat) (pv : option ascii)
         (rs : string) {struct rs} : option rmatch :=
  match match_at r subj (mkstate p pv rs []) Some with
  | Some m => Some m
  | None =>
      match rs with
      | EmptyString => None
      | String c t => search_from r subj (S p) (Some c) t
      end
  end.

(** [re.search(r, subj)] *)
Definition search (r : regex) (subj : string) : option rmatch :=
  search_from r subj 0 None subj.

(** [re.match(r, subj)] *)
Definition match_ (r : regex) (subj : string) : option rmatch :=
  match_at r subj (mkstate 0 None subj []) Some.


(** [re.finditer(r, subj)]: the matches from left to right, each search
    starting where the previous match ended (one character further after
    an empty match). *)
Fixpoint finditer_from (fuel : nat) (r : regex) (subj : string) (p : nat)
         (pv : option ascii) (rs : string) : list rmatch :=
  match fuel with
  | O => []
  | S fuel' =>
      match search_from r subj p pv rs with
      | None => []
      | Some m =>
          let e := m_after m in
          if m_start m <? m_end m
          then m :: finditer_from fuel' r subj (pos e) (prev e) (rest e)
          else match rest e with
               | EmptyString => [m]
               | String c t => m :: finditer_from fuel' r subj (S (pos e)) (Some c) t
               end
      end
  end.

Definition finditer (r : regex) (subj : string) : list rmatch :=
  finditer_from (S (String.length subj)) r subj 0 None subj.

(** [re.findall(r, subj)] for a pattern without groups *)
Definition findall (r : regex) (subj : string) : list string :=
  map group0 (finditer r subj).

(** [re.sub(r, repl, subj)] for a replacement without group references *)
Definition sub (r : regex) (repl subj : string) : string :=
  let fix go (from : nat) (ms : list rmatch) : string :=
    match ms with
    | [] => drop from subj
    | m :: ms' => slice from (m_start m) subj ++ repl ++ go (m_end m) ms'
    end in
  go 0 (finditer r subj).

(** *** Pattern syntax *)

Fixpoint seq (l : list regex) : regex :=
  match l with
  | [] => Eps
  | [a] => a
  | a :: r => Seq a (seq r)
  end.

Fixpoint alt (l : list regex) : regex :=
  match l with
  | [] => Eps
  | [a] => a
  | a :: r => Alt a (alt r)
  end.

Definition chr (c : ascii) : regex := Chr (Ascii.eqb c).
Definition chr_i (c : ascii) : regex := Chr (fun x => Ascii.eqb (to_lower x) (to_lower c)).

(** a literal, and a literal under [re.I] *)
Fixpoint lit (s : string) : regex :=
  match s with
  | EmptyString => Eps
  | String c EmptyString => chr c
  | String c r => Seq (chr c) (lit r)
  end.

Fixpoint lit_i (s : string) : regex :=
  match s with
  | EmptyString => Eps
  | String c EmptyString => chr_i c
  | String c r => Seq (chr_i c) (lit_i r)
  end.

(** [[...]] over listed characters and predicates *)
Definition one_of (chars : string) : regex := Chr (fun c => mem_char c chars).
Definition none_of (chars : string) : regex := Chr (fun c => negb (mem_char c chars)).

Definition digit : regex := Chr is_digit.                       (* \d *)
Definition word : regex := Chr is_word.                         (* \w *)
Definition space : regex := Chr is_space.                       (* \s *)
Definition any : regex := Chr (fun c => negb (Ascii.eqb c "010")). (* . *)
Definition alpha : regex := Chr is_alpha.                       (* [A-Za-z] *)
Definition upper_ : regex := Chr is_upper.                      (* [A-Z] *)

Definition star (a : regex) : regex := Rep true 0 None a.       (* a* *)
Definition plus (a : regex) : regex := Rep true 1 None a.       (* a+ *)
Definition opt (a : regex) : regex := Rep true 0 (Some 1) a.    (* a? *)
Definition rep (lo hi : nat) (a : regex) : regex := Rep true lo (Some hi) a. (* a{lo,hi} *)
Definition at_least (lo : nat) (a : regex) : regex := Rep true lo None a.   (* a{lo,} *)
Definition plus_lazy (a : regex) : regex := Rep false 1 None a. (* a+? *)
Definition rep_lazy (lo hi : nat) (a : regex) : regex := Rep false lo (Some hi) a. (* a{lo,hi}? *)

End Re.

(** * Bank statements: [Statements_extractor.py] *)

Module Statements.

Import Str Re.
Local Open Scope string_scope.

(** ** Configuration *)

(** [DATE_PAT], [DATE_Y_PAT], [MONEY_PAT] *)
Definition d12 : regex := rep 1 2 digit.
Definition date_sep : regex := one_of "/-".
Definition DATE_PAT : regex := seq [Wordb; d12; date_sep; d12; Wordb].
Definition numeric_date : regex := seq [d12; date_sep; d12; date_sep; rep 2 4 digit].
Definition DATE_Y_PAT : regex := seq [Wordb; numeric_date; Wordb].
Definition MONEY_PAT : regex :=
  seq [opt (one_of "-+"); opt (chr "$"); opt space; rep 1 3 digit;
       star (seq [chr ","; rep 3 3 digit]); chr "."; rep 2 2 digit].

(** The second keyword is "zelle" followed by the registered sign, two
    bytes in UTF-8. *)
Definition EXCLUDE_DEPOSIT_KEYWORDS : list string :=
  ["zelle"; "zelle" ++ String "194" (String "174" "")].

(** ** Models *)

Record Txn : Type := mkTxn {
  dt : date;
  desc : string;
  amount : Q;
  runbal : option Q
}.

Record StatementSummary : Type := mkSummary {
  business_name : option string;
  account_number : option string;
  bank_name : option string;
  statement_month : string;
  debit_count : Z;
  credit_count : Z;
  negative_ending_days : Z;
  average_daily_balance_ : option Q;
  monthly_deposits_excl_zelle : Q;
  positions_daily : list string;
  positions_weekly : list string
}.

(** A statement period: the month label, the first and the last day. *)
Definition period : Type := (string * date * date)%type.

(** ** Text helpers *)

Definition nul_to_space (s : string) : string :=
  map_chars (fun c => if Ascii.eqb c "000" then " "%char else c) s.

Definition spaces2 : regex := at_least 2 space.            (* \s{2,} *)

Definition _clean_lines (text : string) : list string :=
  filter nonempty
    (map (fun ln => strip (sub spaces2 " " (nul_to_space ln))) (splitlines text)).

(** [float(tok)] on what is left of a [MONEY_PAT] match once [$], commas
    and outer blanks are removed: an optional sign, digits, a point and
    digits; anything else (a blank after the sign) is a [ValueError]. *)
Definition all_digits (s : string) : bool :=
  nonempty s && (fix go (s : string) : bool :=
     match s with
     | EmptyString => true
     | String c r => is_digit c && go r
     end) s.

Definition float_of_decimal (tok : string) : option Q :=
  let '(neg, body) :=
    match tok with
    | String "-" r => (true, r)
    | String "+" r => (false, r)
    | _ => (false, tok)
    end in
  match split_on "." body with
  | [ip; fp] =>
      if all_digits ip && all_digits fp
      then let scale := Z.pow 10 (len fp) in
           let n := (int_of_digits ip * scale + int_of_digits fp)%Z in
           Some (Qred (Qmake (if neg then (- n)%Z else n) (Z.to_pos scale)))
      else None
  | _ => None
  end.

Definition _parse_amount (tok : string) : option Q :=
  float_of_decimal (strip (replace "," "" (replace "$" "" tok))).

Definition digits4_word : regex := seq [Wordb; at_least 4 digit; Wordb]. (* \b\d{4,}\b *)
Definition separators : regex := plus (one_of "-/#*").                  (* [-/#*]+ *)

Definition _normalize_desc (desc : string) : string :=
  let s := lower desc in
  let s := sub spaces2 " " s in
  let s := sub digits4_word "" s in
  let s := sub separators " " s in
  join " " (split_ws s).

(** ** Filename helpers *)

(** [os.path.basename] and the root of [os.path.splitext], POSIX flavour *)
Definition basename (p : string) : string :=
  last (split_on "/" p) "".

Definition rfind_char (c : ascii) (s : string) : option nat :=
  let fix go (i : nat) (s : string) (found : option nat) : option nat :=
    match s with
    | EmptyString => found
    | String x r => go (S i) r (if Ascii.eqb x c then Some i else found)
    end in
  go O s None.

Definition splitext_root (base : string) : string :=
  match rfind_char "." base with
  | None => base
  | Some i =>
      if nonempty (lstrip_by (Ascii.eqb ".") (take i base))
      then take i base else base
  end.

Definition sep_ud : regex := one_of "_-".
Definition RE_FILE_MDY : regex :=
  seq [Grp 1 d12; sep_ud; Grp 2 d12; sep_ud; Grp 3 (rep 4 4 digit)].
Definition RE_FILE_YMD : regex :=
  seq [Grp 1 (rep 4 4 digit); sep_ud; Grp 2 d12; sep_ud; Grp 3 d12].

Definition month_key (d : date) : string :=
  fmt_0d 4 (year d) ++ "-" ++ fmt_0d 2 (month d).

(** The last day of the month of [(y, mo)]:
    [date(y + mo // 12, mo % 12 + 1, 1) - timedelta(days=1)] *)
Definition month_end (y mo : Z) : result date :=
  bind (date_new (y + mo / 12) (mo mod 12 + 1) 1) date_pred.

(** The body that both branches of [_month_from_filename] share; every
    exception is caught and gives [None]. *)
Definition month_of_ymd (y mo dd : Z) : option period :=
  match date_new y mo dd, date_new y mo 1, month_end y mo with
  | Ok _, Ok d1, Ok d_end => Some (fmt_0d 4 y ++ "-" ++ fmt_0d 2 mo, d1, d_end)
  | _, _, _ => None
  end.

Definition gint (n : nat) (m : rmatch) : Z := int_of_digits (group_str n m).

Definition _month_from_filename (filename : option string) : option period :=
  match filename with
  | None => None
  | Some fname =>
      if negb (nonempty fname) then None else
      let name := splitext_root (basename fname) in
      match search RE_FILE_MDY name with
      | None =>
          match search RE_FILE_YMD name with
          | Some m => month_of_ymd (gint 1 m) (gint 2 m) (gint 3 m)
          | None => None
          end
      | Some m => month_of_ymd (gint 3 m) (gint 1 m) (gint 2 m)
      end
  end.

(** ** Period parsing *)

Section WithDateParser.

(** [dateutil.parser.parse(s).date()]; [None] when it raises. *)
Variable dateparse : string -> option date.

Definition range_word : regex := alt [lit_i "to"; lit_i "through"; chr "-"].
Definition worded_date : regex :=
  seq [rep 3 9 alpha; plus space; d12; opt (chr ","); plus space; rep 2 4 digit].
Definition any_date : regex := alt [worded_date; numeric_date].

Definition RE_RANGE_Y : regex :=
  seq [Wordb; Grp 1 DATE_Y_PAT; star space; range_word; star space;
       Grp 2 DATE_Y_PAT; Wordb].
Definition RE_RANGE_MD : regex :=
  seq [Wordb; Grp 1 DATE_PAT; star space; range_word; star space;
       Grp 2 DATE_PAT; Wordb].
Definition RE_RANGE_WORDED : regex :=
  seq [Wordb; Grp 1 worded_date; star space; range_word; star space;
       Grp 2 worded_date; Wordb].
Definition RE_RANGE_PHRASE : regex :=
  seq [alt [seq [lit_i "for"; plus space; lit_i "the"; plus space; lit_i "period"];
            seq [lit_i "period"; plus space; lit_i "covered"];
            seq [lit_i "statement"; plus space; lit_i "period"]];
       star space; opt (one_of ":-"); star space;
       Grp 1 any_date; star space; range_word; star space; Grp 2 any_date].

(** One attempt of [_parse_period_variants]: both ends parse and are
    in order. *)
Definition range_of_match (m : option rmatch) : option (date * date) :=
  match m with
  | None => None
  | Some m =>
      match dateparse (group_str 1 m), dateparse (group_str 2 m) with
      | Some d1, Some d2 => if date_leb d1 d2 then Some (d1, d2) else None
      | _, _ => None
      end
  end.

Definition first_some {A : Type} (l : list (option A)) : option A :=
  fold_right (fun x acc => match x with Some a => Some a | None => acc end) None l.

Definition _parse_period_variants (text : string) : option (date * date) :=
  first_some
    [range_of_match (search RE_RANGE_Y text);
     range_of_match (search RE_RANGE_MD text);
     range_of_match (search RE_RANGE_WORDED text);
     range_of_match (search RE_RANGE_PHRASE text)].

Definition RE_STATEMENT_PERIOD : regex :=
  seq [Grp 1 (seq [lit_i "statement "; alt [lit_i "period"; lit_i "cycle"];
                    rep_lazy 0 30 any]);
       Grp 2 numeric_date; star space; range_word; star space;
       Grp 3 numeric_date].
Definition RE_MONTH_YEAR : regex :=
  seq [Grp 1 (alt [lit_i "for"; lit_i "ending"; lit_i "period"]); plus space;
       opt (seq [lit_i "on"; plus space]);
       Grp 2 (seq [rep 3 9 alpha; plus space; rep 4 4 digit])].

Definition date_max_of (ds : list date) : option date :=
  fold_left (fun acc d =>
               match acc with
               | None => Some d
               | Some b => if date_ltb b d then Some d else Some b
               end) ds None.

Definition filter_some {A : Type} (l : list (option A)) : list A :=
  flat_map (fun x => match x with Some a => [a] | None => [] end) l.

(** (A) an explicit statement period *)
Definition period_A (text : string) : option period :=
  match search RE_STATEMENT_PERIOD text with
  | Some m =>
      match dateparse (group_str 2 m), dateparse (group_str 3 m) with
      | Some d1, Some d2 => Some (month_key d2, d1, d2)
      | _, _ => None
      end
  | None => None
  end.

(** (C) "ending Month YYYY"; every exception is swallowed *)
Definition period_C (text : string) : option period :=
  match search RE_MONTH_YEAR text with
  | Some m =>
      match dateparse (group_str 2 m) with
      | Some d =>
          match date_new (year d) (month d) 1, month_end (year d) (month d) with
          | Ok d1, Ok d2 => Some (month_key d, d1, d2)
          | _, _ => None
          end
      | None => None
      end
  | None => None
  end.

Definition month_from_period (text : string) (filename : option string)
  : result (option period) :=
  match period_A text with
  | Some p => Ok (Some p)
  | None =>
  match _parse_period_variants text with
  | Some (d1, d2) => Ok (Some (month_key d2, d1, d2))
  | None =>
  match period_C text with
  | Some p => Ok (Some p)
  | None =>
      (* (D) any dated token: the latest one names the month *)
      let ds := filter_some (map (fun mm => dateparse (group0 mm))
                                 (finditer DATE_Y_PAT text)) in
      match date_max_of ds with
      | Some d2 =>
          bind (date_new (year d2) (month d2) 1) (fun d1 =>
          bind (month_end (year d2) (month d2)) (fun d_end =>
          Ok (Some (month_key d2, d1, d_end))))
      | None => Ok (_month_from_filename filename)   (* (E) *)
      end
  end end end.

(** ** Transactions *)

Definition RE_OPENING : regex :=
  seq [Grp 1 (alt [lit_i "beginning"; lit_i "starting"; lit_i "opening"]);
       plus space; lit_i "balance"; star space; opt (one_of ":-"); star space;
       Grp 2 MONEY_PAT].
Definition RE_ENDING : regex :=
  seq [Grp 1 (alt [lit_i "ending"; lit_i "closing"]);
       plus space; lit_i "balance"; star space; opt (one_of ":-"); star space;
       Grp 2 MONEY_PAT].
Definition RE_TXN : regex :=
  seq [Bol; star space; Grp 1 (alt [DATE_Y_PAT; DATE_PAT]); plus space;
       Grp 2 (plus_lazy any); plus space; Grp 3 MONEY_PAT; star space;
       opt MONEY_PAT; star space; Eol].
Definition RE_TXN_FLAG : regex :=
  seq [Bol; star space; Grp 1 DATE_PAT; plus space;
       Grp 2 (plus_lazy any); plus space; Grp 3 MONEY_PAT; star space;
       Grp 4 (alt [lit_i "CR"; lit_i "DR"]); star space; Eol].
Definition RE_4DIGITS : regex := rep 4 4 digit.

(** The last matching line decides. *)
Definition scan_balance (r : regex) (lines : list string) : option Q :=
  fold_left (fun acc ln =>
               match search r ln with
               | Some m => _parse_amount (group_str 2 m)
               | None => acc
               end) lines None.

(** A date written without a 4-digit year takes the closing year of the
    period: [dt.replace(year=d2.year)], a [ValueError] when that day
    does not exist there. *)
Definition in_period_year (p : option period) (dt_raw : string) (d : date)
  : result date :=
  match p with
  | Some (_, _, d2) =>
      match search RE_4DIGITS dt_raw with
      | None => date_new (year d2) (month d) (day d)
      | Some _ => Ok d
      end
  | None => Ok d
  end.

(** What one line adds to [txns] in the loop of [parse_transactions]. *)
Definition txn_of_line (p : option period) (ln : string) : result (option Txn) :=
  match match_ RE_TXN ln with
  | Some m =>
      let dt_raw := group_str 1 m in
      match dateparse dt_raw with
      | None => Ok None
      | Some d =>
          match _parse_amount (group_str 3 m) with
          | None => Ok None
          | Some amt =>
              bind (in_period_year p dt_raw d) (fun d' =>
              Ok (Some (mkTxn d' (strip (group_str 2 m)) amt None)))
          end
      end
  | None =>
      match match_ RE_TXN_FLAG ln with
      | Some m2 =>
          let dt_raw := group_str 1 m2 in
          let flag := upper (group_str 4 m2) in
          match dateparse dt_raw with
          | None => Ok None
          | Some d =>
              match _parse_amount (group_str 3 m2) with
              | None => Ok None
              | Some amt =>
                  let amt := if String.eqb flag "DR" then (- Qabs amt)%Q else Qabs amt in
                  bind (in_period_year p dt_raw d) (fun d' =>
                  Ok (Some (mkTxn d' (strip (group_str 2 m2)) amt None)))
              end
          end
      | None => Ok None
      end
  end.

Definition txn_leb (a b : Txn) : bool :=
  date_ltb (dt a) (dt b) || (date_eqb (dt a) (dt b) && Str.leb (desc a) (desc b)).

Definition parse_transactions (text : string) (p : option period)
  : result (list Txn * option Q * option Q) :=
  let lines := _clean_lines text in
  let opening := scan_balance RE_OPENING (head_items 120 lines) in
  let ending := scan_balance RE_ENDING (tail_items 200 lines) in
  bind (fold_left (fun acc ln =>
                     bind acc (fun txns =>
                     bind (txn_of_line p ln) (fun t =>
                     Ok (match t with Some t => (txns ++ [t])%list | None => txns end))))
                  lines (Ok []))
       (fun txns => Ok (sort txn_leb txns, opening, ending)).

End WithDateParser.

(** ** Metrics *)

Definition date_min_of (ds : list date) : option date :=
  fold_left (fun acc d =>
               match acc with
               | None => Some d
               | Some b => if date_ltb d b then Some d else Some b
               end) ds None.

(** [by_day[t.dt].append(t)] for every transaction *)
Definition group_by_day (txns : list Txn) : dict date (list Txn) :=
  fold_left (fun by_day t =>
               dict_set date_eqb by_day (dt t)
                        (dict_get_default date_eqb by_day (dt t) [] ++ [t])%list)
            txns [].

(** [if d in by_day: for t in by_day[d]: bal += t.amount] *)
Definition apply_day (by_day : dict date (list Txn)) (d : date) (bal : Q) : Q :=
  match dict_get date_eqb by_day d with
  | Some ts => fold_left (fun b t => (b + amount t)%Q) ts bal
  | None => bal
  end.

(** The [while d <= d2] loop; [fuel] bounds its iterations. *)
Fixpoint daily_loop (fuel : nat) (by_day : dict date (list Txn)) (d d2 : date)
         (bal : Q) (daily : dict date Q) : result (dict date Q) :=
  if date_leb d d2 then
    match fuel with
    | O => Raise OutOfFuel
    | S fuel' =>
        let bal' := apply_day by_day d bal in
        let daily' := dict_set date_eqb daily d bal' in
        bind (date_succ d) (fun d' => daily_loop fuel' by_day d' d2 bal' daily')
    end
  else Ok daily.

Definition rebuild_daily_balances (txns : list Txn) (opening_balance : option Q)
           (p : option period) : result (dict date Q) :=
  match txns with
  | [] => Ok []
  | t0 :: _ =>
      let '(d1, d2) :=
        match p with
        | Some (_, d1, d2) => (d1, d2)
        | None =>
            (match date_min_of (map dt txns) with Some d => d | None => dt t0 end,
             match date_max_of (map dt txns) with Some d => d | None => dt t0 end)
        end in
      let bal := match opening_balance with Some b => b | None => 0%Q end in
      daily_loop (Z.to_nat (days_between d2 d1 + 1)) (group_by_day txns) d1 d2 bal []
  end.

Definition count_negative_days (daily : dict date Q) : Z :=
  Z.of_nat (List.length (filter (fun v => Qltb v 0) (dict_values daily))).

Definition average_daily_balance (daily : dict date Q) : option Q :=
  match daily with
  | [] => None
  | _ => Some (round2 (Qsum (dict_values daily) / Qlen daily))
  end.

(** ** Recurring positions *)

Definition SKIPPED_NAMES : list string := ["deposit"; "pos"; "ach"; "online transfer"].

(** One iteration of the grouping loop: [groups[n].append(t.dt)] unless
    the normalised name is too short or too generic. *)
Definition file_date (groups : dict string (list date)) (t : Txn)
  : dict string (list date) :=
  let n := _normalize_desc (desc t) in
  if (len n <? 4)%Z || mem_string n SKIPPED_NAMES then groups
  else dict_set String.eqb groups n
         (dict_get_default String.eqb groups n [] ++ [dt t])%list.

Definition group_dates (txns : list Txn) : dict string (list date) :=
  fold_left file_date txns [].

(** [[(ds[i] - ds[i-1]).days for i in range(1, len(ds))]] *)
Fixpoint gaps (ds : list date) : list Z :=
  match ds with
  | a :: (b :: _) as r => days_between b a :: gaps r
  | _ => []
  end.

(** [statistics.median] of integers; [None] for no data, where it raises. *)
Definition median (data : list Z) : option Q :=
  let data := sort Z.leb data in
  let n := List.length data in
  match n with
  | O => None
  | _ =>
      if Nat.odd n then Some (inject_Z (nth (n / 2) data 0%Z))
      else let i := (n / 2)%nat in
           Some (inject_Z (nth (i - 1) data 0%Z + nth i data 0%Z) / 2)%Q
  end.

Inductive cadence : Type := Daily | Weekly.

(** The cadence of one group of dates, if any. *)
Definition classify (ds : list date) : option cadence :=
  if (List.length ds <? 3)%nat then None
  else match median (gaps (sort date_leb ds)) with
       | None => None
       | Some med =>
           if Qle_bool (8 # 10) med && Qle_bool med (13 # 10) then Some Daily
           else if Qle_bool (55 # 10) med && Qle_bool med (85 # 10) then Some Weekly
           else None
       end.

Fixpoint dedup (l : list string) : list string :=
  match l with
  | [] => []
  | x :: r => if mem_string x r then dedup r else x :: dedup r
  end.

(** [list(set(lst)); lst.sort(); lst[:5]] *)
Definition topk (lst : list string) : list string :=
  firstn 5 (sort Str.leb (dedup lst)).

Definition names_with (c : cadence) (groups : dict string (list date)) : list string :=
  map fst (filter (fun g => match classify (snd g), c with
                            | Some Daily, Daily => true
                            | Some Weekly, Weekly => true
                            | _, _ => false
                            end) groups).

Definition detect_positions (txns : list Txn) : list string * list string :=
  let groups := group_dates txns in
  (topk (names_with Daily groups), topk (names_with Weekly groups)).

(** ** Monthly aggregates *)

Definition incr (m : dict string Z) (k : string) : dict string Z :=
  dict_set String.eqb m k (dict_get_default String.eqb m k 0 + 1).

Definition add_to (m : dict string Q) (k : string) (a : Q) : dict string Q :=
  dict_set String.eqb m k (dict_get_default String.eqb m k 0%Q + a)%Q.

Definition excluded_deposit (t : Txn) : bool :=
  existsb (fun x => contains x (lower (desc t))) EXCLUDE_DEPOSIT_KEYWORDS.

Definition monthly : Type := (dict string Z * dict string Z * dict string Q)%type.

(** One iteration of the loop of [compute_monthly_counts_and_deposits]. *)
Definition count_txn (acc : monthly) (t : Txn) : monthly :=
  let '(debit_counts, credit_counts, monthly_deposits) := acc in
  let k := month_key (dt t) in
  if Qltb (amount t) 0 then (incr debit_counts k, credit_counts, monthly_deposits)
  else if Qltb 0 (amount t) then
    (debit_counts, incr credit_counts k,
     if negb (excluded_deposit t) then add_to monthly_deposits k (amount t)
     else monthly_deposits)
  else acc.

Definition compute_monthly_counts_and_deposits (txns : list Txn) : monthly :=
  fold_left count_txn txns ([], [], []).

(** ** Revenue selection *)

Definition BEST3_STATES : list string := ["NY"; "CA"].

Definition best3_state (state : option string) : bool :=
  match state with
  | Some st => nonempty st && mem_string (upper st) BEST3_STATES
  | None => false
  end.

Definition Qgeb (a b : Q) : bool := Qle_bool b a.

(** [round(sum(l) / len(l), 2)] on floats; [compensated] tells which
    of its two forms the built-in [sum] has. *)
Definition mean2 (compensated : bool) (l : list Q) : Q :=
  F64.round_digits 2
    (F64.fdiv (F64.builtin_sum compensated l)
              (F64.float_of_int (Z.of_nat (List.length l)))).

Definition pick_avg_revenue (compensated : bool) (monthly_deposits : dict string Q)
           (state : option string) : option Q :=
  match monthly_deposits with
  | [] => None
  | _ =>
      let vals := dict_values monthly_deposits in
      if best3_state state then
        let vals := sort Qgeb vals in
        let top := if (3 <=? List.length vals)%nat then firstn 3 vals else vals in
        match top with
        | [] => None
        | _ => Some (mean2 compensated top)
        end
      else Some (mean2 compensated vals)
  end.

(** ** Summaries *)

Section Summaries.

Variable dateparse : string -> option date.

(** The header fields (business name, account number, bank name) are
    read from the text by [extract_header_info], which the ledger does
    not depend on; it is a parameter here. *)
Variable extract_header_info :
  string -> option string -> option string * option string * option string.

Definition UNKNOWN_MONTH : string := "[unknown]".

Definition summarize_statement (text : string) (used_ocr : bool)
           (filename : option string)
  : result (StatementSummary * dict date Q * list Txn) :=
  bind (month_from_period dateparse text filename) (fun p =>
  let month_label := match p with Some (label, _, _) => label | None => UNKNOWN_MONTH end in
  let '(biz, acct, bank) := extract_header_info text filename in
  bind (parse_transactions dateparse text p) (fun '(txns, opening, ending) =>
  bind (rebuild_daily_balances txns opening p) (fun daily =>
  let '(debits, credits, monthly_deposits) := compute_monthly_counts_and_deposits txns in
  let this_month :=
    match p with
    | Some (label, _, _) => Some label
    | None => option_map month_key (date_max_of (map dt txns))
    end in
  let this_month :=
    match this_month with
    | Some k => if nonempty k then Some k else None
    | None => None
    end in
  let debit_count :=
    match this_month with Some k => dict_get_default String.eqb debits k 0 | None => 0 end in
  let credit_count :=
    match this_month with Some k => dict_get_default String.eqb credits k 0 | None => 0 end in
  let neg_days := count_negative_days daily in
  let adb := average_daily_balance daily in
  let '(daily_pos, weekly_pos) := detect_positions txns in
  let monthly_dep_ex_zelle :=
    match this_month with
    | Some k => dict_get_default String.eqb monthly_deposits k 0%Q
    | None => 0%Q
    end in
  Ok (mkSummary biz acct bank month_label debit_count credit_count neg_days adb
                (round2 monthly_dep_ex_zelle) daily_pos weekly_pos,
      daily, txns)))).

End Summaries.

End Statements.

(** * Loan applications: [Application_extractor.py] *)

Module Application.

Import Str Re.
Local Open Scope string_scope.

(** ** Configuration *)

Definition US_STATES : dict string string :=
  [("AL","Alabama"); ("AK","Alaska"); ("AZ","Arizona"); ("AR","Arkansas");
   ("CA","California"); ("CO","Colorado"); ("CT","Connecticut");
   ("DE","Delaware"); ("FL","Florida"); ("GA","Georgia"); ("HI","Hawaii");
   ("ID","Idaho"); ("IL","Illinois"); ("IN","Indiana"); ("IA","Iowa");
   ("KS","Kansas"); ("KY","Kentucky"); ("LA","Louisiana"); ("ME","Maine");
   ("MD","Maryland"); ("MA","Massachusetts"); ("MI","Michigan");
   ("MN","Minnesota"); ("MS","Mississippi"); ("MO","Missouri"); ("MT","Montana");
   ("NE","Nebraska"); ("NV","Nevada"); ("NH","New Hampshire");
   ("NJ","New Jersey"); ("NM","New Mexico"); ("NY","New York");
   ("NC","North Carolina"); ("ND","North Dakota"); ("OH","Ohio");
   ("OK","Oklahoma"); ("OR","Oregon"); ("PA","Pennsylvania"); ("RI","Rhode Island");
   ("SC","South Carolina"); ("SD","South Dakota");
   ("TN","Tennessee"); ("TX","Texas"); ("UT","Utah"); ("VT","Vermont");
   ("VA","Virginia"); ("WA","Washington"); ("WV","West Virginia");
   ("WI","Wisconsin"); ("WY","Wyoming"); ("DC","District of Columbia");
   ("PR","Puerto Rico")].

(** [{v.upper(): k for k, v in US_STATES.items()}] *)
Definition STATE_NAMES : dict string string :=
  map (fun kv => (upper (snd kv), fst kv)) US_STATES.

Definition is_state (abbr : string) : bool := dict_mem String.eqb US_STATES abbr.

Definition INDUSTRY_KEYWORDS : dict string (list string) :=
  [("Restaurants", ["restaurant";"pizza";"grill";"diner";"coffee";"cafe";
                    "caf" ++ String "195" (String "169" "");"bistro";"bbq";"taqueria"]);
   ("Construction", ["construction";"contractor";"roof";"roofing";"plumbing";
                     "electric";"hvac";"remodel";"general contractor"]);
   ("Retail", ["retail";"boutique";"store";"shop";"fashion";"apparel";"clothing";"gift shop"]);
   ("Healthcare", ["clinic";"medical";"dental";"dentist";"orthodont";"healthcare";
                   "urgent care";"chiropractic";"pharmacy"]);
   ("Transportation", ["trucking";"logistics";"transport";"freight";"dispatch";"fleet";"carrier"]);
   ("Beauty & Wellness", ["salon";"spa";"barber";"nail";"esthetic";"wellness";"massage"]);
   ("E-commerce", ["shopify";"amazon";"ecommerce";"e-commerce";"online store";"woocommerce"]);
   ("Professional Services", ["consulting";"law";"legal";"attorney";"cpa";"accounting";
                              "bookkeeping";"marketing";"agency"])].

Definition BN_LABELS : list string :=
  ["legal business name";"business legal name";"business name";"company name";
   "corporate name";"dba";"doing business as";"trade name";"legal name of business";
   "name of business";"business d/b/a name";"business dba name";"business d / b / a name"].

Definition TIB_KEYWORDS : list string :=
  ["time in business";"years in business";"length of ownership";"owner since";
   "date business started";"business start date";"established";"since";
   "in business since";"ownership since"].

Definition ANCHORS : dict string (list string) :=
  [("business_name", BN_LABELS);
   ("state", ["state";"state/province";"business address";"company address";
              "mailing address";"principal address";"city, state";"address"]);
   ("industry", ["industry";"business type";"naics";"sic";"primary industry";
                 "type of business";"line of business";"nature of business";"sector"]);
   ("tib", TIB_KEYWORDS);
   ("fico", ["fico";"credit score";"personal fico";"owner fico";"beacon score"])].

Definition BN_STOP_TOKENS : list string :=
  ["industry";"naics";"sic";"ein";"ssn";"dob";"address";"city";"state";"zip";
   "legal entity";"owner";"date";"email";"phone"].

Definition STOP_WORDS : list string :=
  ["application";"form";"page";"signature";"initial";"date";"phone";"email";"fax";
   "street";"address";"city";"state";"zip";"website";"ein";"ssn";"dob"].

(** ** Patterns *)

Definition d12 : regex := rep 1 2 digit.
Definition dot_opt : regex := opt (chr ".").

(** [\b(3\d{2}|[4-7]\d{2}|8[0-4]\d|850)\b] *)
Definition RE_FICO : regex :=
  seq [Wordb;
       Grp 1 (alt [seq [chr "3"; rep 2 2 digit];
                   seq [one_of "4567"; rep 2 2 digit];
                   seq [chr "8"; one_of "01234"; digit];
                   lit "850"]);
       Wordb].

Definition zip5 : regex := seq [rep 5 5 digit; opt (seq [chr "-"; rep 4 4 digit])].

(** [\b\d{5}(?:-\d{4})?\b] *)
Definition RE_ZIP5 : regex := seq [Wordb; zip5; Wordb].

(** [\b([A-Za-z][A-Za-z\.\- ]+),\s*([A-Z]{2})\s+(\d{5}(?:-\d{4})?)\b] *)
Definition RE_CITY_STATE_ZIP : regex :=
  seq [Wordb;
       Grp 1 (seq [alpha; plus (Chr (fun c => is_alpha c || mem_char c ".- "))]);
       chr ","; star space; Grp 2 (rep 2 2 upper_); plus space; Grp 3 zip5; Wordb].

(** [\b(\d{1,2}[/\-]\d{1,2}[/\-]\d{2,4}|[A-Za-z]{3,9}\s+\d{1,2},\s*\d{2,4})\b] *)
Definition RE_DATE : regex :=
  seq [Wordb;
       Grp 1 (alt [seq [d12; one_of "/-"; d12; one_of "/-"; rep 2 4 digit];
                   seq [rep 3 9 alpha; plus space; d12; chr ","; star space; rep 2 4 digit]]);
       Wordb].

Definition years_word : regex :=
  alt [seq [lit_i "yr"; opt (chr_i "s")]; seq [lit_i "year"; opt (chr_i "s")]].
Definition months_word : regex :=
  alt [seq [lit_i "mo"; opt (chr_i "s")]; seq [lit_i "month"; opt (chr_i "s")]].

(** [\b(\d{1,2}(?:\.\d{1,2})?)\s*(?:yrs?|years?)\b], [re.I] *)
Definition RE_YEARS_NUM : regex :=
  seq [Wordb; Grp 1 (seq [d12; opt (seq [chr "."; d12])]); star space; years_word; Wordb].

(** [\b(\d{1,2})\s*(?:yrs?|years?)\s*(\d{1,2})\s*(?:mos?|months?)\b], [re.I] *)
Definition RE_YEARS_MONTHS : regex :=
  seq [Wordb; Grp 1 d12; star space; years_word; star space; Grp 2 d12; star space;
       months_word; Wordb].

(** [\b(\d{1,3}(?:\.\d{1,2})?)\s*(?:mos?|months?)\b], [re.I] *)
Definition RE_MONTHS_ONLY : regex :=
  seq [Wordb; Grp 1 (seq [rep 1 3 digit; opt (seq [chr "."; d12])]); star space;
       months_word; Wordb].

(** [^\s*(\d{1,6})\s+([A-Za-z0-9\.\-# ]+)] *)
Definition RE_STREET : regex :=
  seq [Bol; star space; Grp 1 (rep 1 6 digit); plus space;
       Grp 2 (plus (Chr (fun c => is_alnum c || mem_char c ".-# ")))].

Definition phone_sep : regex := opt (Chr (fun c => mem_char c "-." || is_space c)).

(** [\b(\+?1[-.\s]?)?\(?\d{3}\)?[-.\s]?\d{3}[-.\s]?\d{4}\b] *)
Definition RE_PHONE : regex :=
  seq [Wordb; opt (Grp 1 (seq [opt (chr "+"); chr "1"; phone_sep]));
       opt (chr "("); rep 3 3 digit; opt (chr ")"); phone_sep; rep 3 3 digit;
       phone_sep; rep 4 4 digit; Wordb].

(** [[A-Za-z0-9._%+-]+@[A-Za-z0-9.-]+\.[A-Za-z]{2,}] *)
Definition RE_EMAIL : regex :=
  seq [plus (Chr (fun c => is_alnum c || mem_char c "._%+-")); chr "@";
       plus (Chr (fun c => is_alnum c || mem_char c ".-")); chr ".";
       at_least 2 alpha].

Definition corp_suffix : regex :=
  alt [lit_i "INCORPORATED"; seq [lit_i "INC"; dot_opt]; lit_i "LLC"; lit_i "L.L.C.";
       seq [lit_i "LTD"; dot_opt]; seq [lit_i "CO"; dot_opt]; lit_i "CO";
       seq [lit_i "CORP"; dot_opt]; lit_i "CORPORATION"; lit_i "PLC"; lit_i "LLP";
       lit_i "L.L.P."; lit_i "PLLC"; lit_i "P.L.L.C."; lit_i "PC"; lit_i "P.C.";
       lit_i "PA"; lit_i "P.A."].

(** [(,?\s+(INCORPORATED|INC\.?|...))+$], [re.I] *)
Definition CORP_SUFFIXES_RE : regex :=
  seq [plus (Grp 1 (seq [opt (chr ","); plus space; Grp 2 corp_suffix])); Eol].

Definition spaces1 : regex := plus space.        (* \s+ *)
Definition spaces2 : regex := at_least 2 space.  (* \s{2,} *)
Definition colon_dash_opt : regex := seq [star space; opt (one_of ":-"); star space].

(** ** Generic helpers *)

Definition nul_to_space (s : string) : string :=
  map_chars (fun c => if Ascii.eqb c "000" then " "%char else c) s.

Definition lines_from_text (text : string) : list string :=
  filter nonempty
    (map (fun ln => strip (sub spaces1 " " ln)) (splitlines (nul_to_space text))).

(** [" | ".join(lines[max(0, idx - radius) : min(len(lines), idx + radius + 1)])] *)
Definition window (lines : list string) (idx : nat) (radius : nat) : string :=
  let s := (idx - radius)%nat in
  let e := Nat.min (List.length lines) (idx + radius + 1) in
  join " | " (firstn (e - s) (skipn s lines)).

Definition RE_NAME_LABEL : regex :=
  seq [Bol; Grp 1 (alt [lit_i "legal"; lit_i "company"; lit_i "business"; lit_i "corporate"]);
       plus space;
       Grp 2 (alt [lit_i "name"; seq [lit_i "legal"; plus space; lit_i "name"]]);
       colon_dash_opt].
Definition slash_opt : regex := opt (chr "/").
Definition RE_DBA_LABEL : regex :=
  seq [Bol;
       Grp 1 (alt [lit_i "dba"; lit_i "doing business as"; lit_i "trade name";
                   seq [lit_i "business d"; slash_opt; chr_i "b"; slash_opt; lit_i "a name"]]);
       colon_dash_opt].

(** The en dash that the source also strips is not an ASCII character. *)
Definition clean_business_name (name : string) : string :=
  let name := sub RE_NAME_LABEL "" name in
  let name := sub RE_DBA_LABEL "" name in
  strip_chars " :-" (sub spaces2 " " name).

Definition clean_and_clip (s : string) : string :=
  let s := strip (sub spaces2 " " s) in
  strip (strip_chars ":-" s).

Definition is_match (r : regex) (s : string) : bool :=
  match search r s with Some _ => true | None => false end.

Definition ADDRESS_HINTS : list string :=
  ["suite"; "ste"; "apt"; "unit"; "floor"; "fl"; "ave"; "avenue"; "blvd"; "road";
   "rd"; "st "; " street"; "lane"; "ln"; "dr "; " drive"].

Definition is_probably_address (s : string) : bool :=
  let s_low := lower s in
  is_match RE_STREET s
  || existsb (fun k => contains k s_low) ADDRESS_HINTS
  || is_match RE_PHONE s || is_match RE_EMAIL s
  || is_match RE_CITY_STATE_ZIP s.

(** [re.split(r"[^\w&\-.']", s)] without its empty pieces *)
Definition name_tokens (s : string) : list string :=
  filter nonempty (split_by (fun c => negb (is_word c || mem_char c "&-.'")) s).

Definition first_is_upper (t : string) : bool :=
  match t with String c _ => is_upper c | EmptyString => false end.

Definition count_chars (p : ascii -> bool) (s : string) : Z :=
  (fix go (s : string) : Z :=
     match s with
     | EmptyString => 0
     | String c r => (if p c then 1 else 0) + go r
     end) s.

Definition Zlen {A : Type} (l : list A) : Z := Z.of_nat (List.length l).

(** How likely a line is a business name. *)
Definition name_score (line : string) : Z :=
  let s := strip_chars ":," (strip line) in
  if (len s <? 2)%Z || (120 <? len s)%Z then -999
  else if is_probably_address s then -5
  else
    let low := lower s in
    if existsb (fun w => contains w low) STOP_WORDS then -2
    else
      let tokens := name_tokens s in
      match tokens with
      | [] => -2
      | _ =>
          let cap_tokens := Zlen (filter first_is_upper tokens) in
          let cap_ratio := (inject_Z cap_tokens / inject_Z (Z.max 1 (Zlen tokens)))%Q in
          (if is_match CORP_SUFFIXES_RE s then 5 else 0)
          + (if (2 <=? Zlen tokens)%Z && (Zlen tokens <=? 6)%Z then 2 else 0)
          + (if Qle_bool (7 # 10) cap_ratio then 2 else 0)
          + (if contains " & " s || contains " - " s then 1 else 0)
          - (if (3 <=? count_chars is_digit s)%Z then 2 else 0)
          - (if endswith s "." || endswith s "," then 1 else 0)
          - (if startswith low "industry " then 5 else 0)
      end.

(** ** Extraction core *)

(** Python's truth value of what an extractor hands back. *)
Class Truthy (V : Type) : Type := truth : V -> bool.

#[export] Instance truthy_string : Truthy string := nonempty.
#[export] Instance truthy_tuple : Truthy (Q * Q) := fun _ => true.

Definition truthy {V : Type} `{Truthy V} (v : option V) : bool :=
  match v with
  | Some x => truth x
  | None => false
  end.

Record FieldResult (V : Type) : Type := mkField {
  value : option V;
  confidence : Q;
  evidence : dict string string
}.

Arguments mkField {V} value confidence evidence.
Arguments value {V} f.
Arguments confidence {V} f.
Arguments evidence {V} f.

Definition NOT_FOUND {V : Type} : FieldResult V := mkField None 0 [].

Definition hit : Type := (nat * string * Q)%type.

Definition hit_leb (a b : hit) : bool :=
  let '(ia, _, sa) := a in
  let '(ib, _, sb) := b in
  Qltb sb sa || (Qle_bool sb sa && (ia <=? ib)%nat).

Section Resolver.

(** [rapidfuzz.fuzz.partial_ratio(a, ln)], a score between 0 and 100 *)
Variable partial_ratio : string -> string -> Q.

Definition enumerate {A : Type} (l : list A) : list (nat * A) :=
  combine (List.seq 0 (List.length l)) l.

Definition best_anchor_hits_local (lines_lower : list string) (anchors : list string)
  : list hit :=
  sort hit_leb
    (flat_map (fun '(i, ln) =>
                 flat_map (fun a =>
                             let score := partial_ratio a ln in
                             if Qle_bool 80 score then [(i, a, score)] else [])
                          anchors)
              (enumerate lines_lower)).

Context {V : Type} `{Truthy V}.

Definition headtail_try (lines : list string) (extractor_fn : string -> option V)
  : FieldResult V :=
  let head := join " | " (head_items 60 lines) in
  let tail := join " | " (tail_items 60 lines) in
  let v := if truthy (extractor_fn head) then extractor_fn head else extractor_fn tail in
  if truthy v
  then mkField v (45 # 100) [("anchor", "global-fallback"); ("line", "(document head/tail)")]
  else NOT_FOUND.

(** One iteration of the loop over the ranked hits. *)
Definition try_hit (lines : list string) (extractor_fn : string -> option V)
           (conf_base : Q) (best : FieldResult V) (h : hit) : FieldResult V :=
  let '(idx, anchor, score) := h in
  let win := window lines idx 2 in
  let v := extractor_fn win in
  if truthy v then
    let conf := Qmin (conf_base + (score / 100) * (35 # 100)) (98 # 100) in
    if Qltb (confidence best) conf
    then mkField v (round2 conf) [("anchor", anchor); ("line", win)]
    else best
  else best.

Definition find_with_anchors (lines lines_lower : list string) (field_key : string)
           (anchors : dict string (list string))
           (extractor_fn : string -> option V) (conf_base : Q)
  : result (FieldResult V) :=
  match dict_get String.eqb anchors field_key with
  | None => Raise KeyError
  | Some phrases =>
      let hits := best_anchor_hits_local lines_lower phrases in
      let best := fold_left (try_hit lines extractor_fn conf_base)
                            (firstn 8 hits) NOT_FOUND in
      if truthy (value best) then Ok best
      else Ok (headtail_try lines extractor_fn)
  end.

End Resolver.

Definition extract_fico (win : string) : option string :=
  match search RE_FICO win with
  | None => None
  | Some m =>
      let v := int_of_digits (group0 m) in
      if (300 <=? v)%Z && (v <=? 850)%Z then Some (str_of_int v) else None
  end.

(** ** State extraction *)

(** [ZIP3_TO_STATE], as the ranges [range(lo, hi)] it is built from, in
    the order of the source: a later range overrides an earlier one. *)
Definition ZIP3_RANGES : list (Z * Z * string) :=
  [(350, 370, "AL"); (995, 1000, "AK"); (850, 866, "AZ"); (716, 730, "AR");
   (900, 962, "CA"); (800, 816, "CO"); (600, 700, "CT"); (200, 207, "DC");
   (197, 200, "DE"); (320, 350, "FL"); (300, 321, "GA"); (967, 969, "HI");
   (500, 528, "IA"); (832, 839, "ID"); (600, 630, "IL"); (460, 480, "IN");
   (660, 680, "KS"); (400, 428, "KY"); (700, 716, "LA"); (100, 280, "MA");
   (206, 220, "MD"); (390, 400, "ME"); (480, 500, "MI"); (550, 568, "MN");
   (630, 660, "MO"); (386, 400, "MS"); (590, 600, "MT"); (270, 290, "NC");
   (580, 590, "ND"); (680, 700, "NE"); (300, 400, "NH"); (700, 900, "NJ");
   (870, 885, "NM"); (889, 900, "NV"); (100, 150, "NY"); (430, 460, "OH");
   (730, 750, "OK"); (970, 980, "OR"); (150, 200, "PA");
   (6, 10, "PR"); (280, 291, "RI"); (290, 300, "SC"); (570, 578, "SD");
   (370, 386, "TN"); (750, 800, "TX"); (840, 850, "UT"); (220, 247, "VA");
   (50, 60, "VT"); (980, 994, "WA"); (530, 550, "WI"); (247, 269, "WV");
   (820, 832, "WY")].

(** [ZIP3_TO_STATE.get(z3)] *)
Definition zip3_to_state (z3 : Z) : option string :=
  fold_left (fun acc '(lo, hi, st) =>
               if (lo <=? z3)%Z && (z3 <? hi)%Z then Some st else acc)
            ZIP3_RANGES None.

Definition zip_to_state (zipcode : string) : option string :=
  match search RE_ZIP5 zipcode with
  | None => None
  | Some m => zip3_to_state (int_of_digits (take 3 (group0 m)))
  end.

Definition BLOCK_STOPS : list string :=
  ["industry"; "ein"; "ssn"; "dob"; "owner"; "date"; "application";
   "business legal name"; "business name"; "company name"].

(** The lines that follow an anchor line into its block: at most [n],
    stripped, up to the first empty or stopping line. *)
Fixpoint block_tail (n : nat) (ls : list string) : list string :=
  match n, ls with
  | S k, l :: r =>
      let nxt := strip l in
      if negb (nonempty nxt) then []
      else if existsb (fun tok => contains tok (lower nxt)) BLOCK_STOPS then []
      else nxt :: block_tail k r
  | _, _ => []
  end.

(** [skip] counts the lines already taken into the previous block. *)
Fixpoint collect_blocks_from (max_block_lines : nat) (skip : nat) (ls : list string)
  : list string :=
  match ls with
  | [] => []
  | ln :: r =>
      match skip with
      | S k => collect_blocks_from max_block_lines k r
      | O =>
          if contains "address" (lower ln) || is_match RE_STREET ln
          then let more := block_tail (max_block_lines - 1) r in
               join " | " (ln :: more)
               :: collect_blocks_from max_block_lines (List.length more) r
          else collect_blocks_from max_block_lines O r
      end
  end.

Definition collect_address_blocks (lines : list string) : list string :=
  collect_blocks_from 4 O lines.

Definition RE_TOKEN2 : regex := seq [Wordb; rep 2 2 upper_; Wordb].  (* [A-Z]{2} *)

Definition ARROW : string := String "226" (String "134" (String "146" "")).

(** Layer 1: [City, ST ZIP], the leftmost match and a known state *)
Definition state_by_city_zip (s : string) : option string :=
  match search RE_CITY_STATE_ZIP s with
  | Some m => if is_state (group_str 2 m) then Some (group_str 2 m) else None
  | None => None
  end.

(** Layer 2: a full state name between blanks *)
Definition state_by_name (s : string) : option string :=
  let up := " " ++ upper s ++ " " in
  option_map snd
    (List.find (fun '(full_name, abbr) => contains (" " ++ full_name ++ " ") up) STATE_NAMES).

(** Layer 3: the first ZIP code, through its first three digits *)
Definition state_by_zip (s : string) : option string :=
  match search RE_ZIP5 s with
  | Some m => zip_to_state (group0 m)
  | None => None
  end.

(** Layer 4, on one stitched block *)
Definition state_in_block (block : string) : option (string * string) :=
  match state_by_city_zip block with
  | Some st => Some (st, "[block city,st,zip] " ++ block)
  | None =>
  match state_by_name block with
  | Some abbr => Some (abbr, "[block state-name] " ++ block)
  | None =>
  match state_by_zip block with
  | Some abbr => Some (abbr, "[block zip-only" ++ ARROW ++ abbr ++ "] " ++ block)
  | None => None
  end end end.

Definition state_by_blocks (all_lines : list string) : option (string * string) :=
  fold_right (fun block acc =>
                match state_in_block block with Some r => Some r | None => acc end)
             None (collect_address_blocks all_lines).

(** Layer 5: a bare two-letter token, with the word "address" in sight *)
Definition state_by_token (win : string) : option string :=
  if contains "address" (lower win)
  then List.find is_state (findall RE_TOKEN2 win)
  else None.

Definition extract_state_stronger_multiline (all_lines : list string) (win : string)
  : option (string * string) :=
  match state_by_city_zip win with
  | Some st => Some (st, "[city,st,zip] " ++ win)
  | None =>
  match state_by_name win with
  | Some abbr => Some (abbr, "[state-name] " ++ win)
  | None =>
  match state_by_zip win with
  | Some abbr => Some (abbr, "[zip-only" ++ ARROW ++ abbr ++ "] " ++ win)
  | None =>
  match state_by_blocks all_lines with
  | Some r => Some r
  | None =>
  match state_by_token win with
  | Some token => Some (token, "[address token] " ++ win)
  | None => None
  end end end end end.

(** ** Time in business (strict) *)

(** [datetime.datetime]: a date and the microseconds since midnight. *)
Record datetime : Type := mkdatetime { dt_date : date; dt_us : Z }.

Definition datetime_leb (a b : datetime) : bool :=
  date_ltb (dt_date a) (dt_date b)
  || (date_eqb (dt_date a) (dt_date b) && (dt_us a <=? dt_us b)%Z).

(** [(a - b).days] *)
Definition delta_days (a b : datetime) : Z :=
  ((days_between (dt_date a) (dt_date b) * 86400000000 + (dt_us a - dt_us b))
     / 86400000000)%Z.

(** [float(s)] on digits with an optional fraction *)
Definition float_of_number (s : string) : Q :=
  match split_on "." s with
  | [ip; fp] =>
      let scale := Z.pow 10 (len fp) in
      Qred (Qmake (int_of_digits ip * scale + int_of_digits fp) (Z.to_pos scale))
  | _ => inject_Z (int_of_digits s)
  end.

(** A founding year after "estab...", "since" or "started", optionally
    after "in"; [re.I] *)
Definition RE_FOUNDED : regex :=
  seq [Grp 1 (alt [seq [lit_i "estab"; star word]; lit_i "since"; lit_i "started"]);
       star space; opt (seq [lit_i "in"; star space]); Grp 2 (rep 4 4 digit)].

Section Clock.

(** [datetime.now()], read once per run, and
    [dateutil.parser.parse(raw, dayfirst=False, fuzzy=True)], [None]
    when it raises. *)
Variable now : datetime.
Variable dateparse_fuzzy : string -> option datetime.

Definition parse_date_candidate (neigh : string) : option datetime :=
  let c := flat_map (fun m =>
                       match dateparse_fuzzy (group_str 1 m) with
                       | Some d =>
                           if (1900 <? year (dt_date d))%Z && datetime_leb d now
                           then [d] else []
                       | None => []
                       end)
                    (finditer RE_DATE neigh) in
  hd_error (sort datetime_leb c).

Definition parse_tib_value_strict (neigh : string) : option (Q * Q) :=
  let low := lower neigh in
  if negb (existsb (fun k => contains k low) TIB_KEYWORDS) then None else
  match search RE_YEARS_MONTHS neigh with
  | Some m =>
      let yrs := int_of_digits (group_str 1 m) in
      let mos := int_of_digits (group_str 2 m) in
      let total_m := (yrs * 12 + mos)%Z in
      Some (inject_Z total_m, round2 (inject_Z total_m / 12))
  | None =>
  match search RE_MONTHS_ONLY neigh with
  | Some m =>
      let mos := float_of_number (group_str 1 m) in
      Some (mos, round2 (mos / 12))
  | None =>
  match search RE_YEARS_NUM neigh with
  | Some m =>
      let yrs := float_of_number (group_str 1 m) in
      Some (round1 (yrs * 12), round2 yrs)
  | None =>
  match parse_date_candidate neigh with
  | Some d =>
      let delta := inject_Z (delta_days now d) in
      let yrs := round2 (delta / (36525 # 100)) in
      let mos := round1 (delta / (304375 # 10000)) in
      Some (mos, yrs)
  | None =>
  match search RE_FOUNDED neigh with
  | Some m =>
      let y := int_of_digits (group_str 2 m) in
      if (1900 <? y)%Z && (y <=? year (dt_date now))%Z
      then let yrs := inject_Z (year (dt_date now) - y) in
           Some (round1 (yrs * 12), round2 yrs)
      else None
  | None => None
  end end end end end.

End Clock.

(** ** Business name *)

Definition earliest_label (low : string) : option (nat * string) :=
  fold_left (fun acc lbl =>
               match Str.find lbl low with
               | Some i =>
                   match acc with
                   | None => Some (i, lbl)
                   | Some (p, _) => if (i <? p)%nat then Some (i, lbl) else acc
                   end
               | None => acc
               end) BN_LABELS None.

Definition is_bn_stop (t : string) : bool :=
  let tl := strip_chars ",;:" (lower t) in
  mem_string tl BN_STOP_TOKENS || mem_string tl ["business"; "legal"; "name"].

(** The tokens before the first stop token *)
Fixpoint cut_at_stop (stop : string -> bool) (tokens : list string) : list string :=
  match tokens with
  | [] => []
  | t :: r => if stop t then [] else t :: cut_at_stop stop r
  end.

Definition plausible_name (cand : string) (least : Z) : bool :=
  (2 <=? len cand)%Z && (len cand <=? 120)%Z && (least <=? name_score cand)%Z.

Definition extract_bn_from_window (win : string) : option string :=
  match earliest_label (lower win) with
  | None => None
  | Some (p, label_hit) =>
      let after := drop (p + String.length label_hit) win in
      let after := clean_and_clip (replace "|" " " after) in
      match cut_at_stop is_bn_stop (split_ws after) with
      | [] => None
      | kept =>
          let cand := clean_and_clip (clean_business_name (join " " kept)) in
          if plausible_name cand 1 then Some cand else None
      end
  end.

(** *** Layout-aware strategy *)

(** A word of [page.extract_words] and the first page it comes from. *)
Record pdf_word : Type := mkword {
  w_text : string;
  w_x0 : Q;
  w_x1 : Q;
  w_top : Q;
  w_size : option Q
}.

Record pdf_page : Type := mkpage {
  page_words : list pdf_word;
  page_height : Q;
  page_width : Q
}.

(** Words grouped by [int(round(top / step))], in order of appearance *)
Definition bands (step : Q) (ws : list pdf_word) : dict Z (list pdf_word) :=
  fold_left (fun rows w =>
               let band := round_half_even (w_top w / step) in
               dict_set Z.eqb rows band (dict_get_default Z.eqb rows band [] ++ [w])%list)
            ws [].

Definition has_label (s : string) : bool :=
  existsb (fun lbl => contains lbl (lower s)) BN_LABELS.

Definition is_zero (q : Q) : bool := Qeq_bool q 0.

(** [label_x1 = max(label_x1 or w["x1"], w["x1"])] over the label words *)
Definition label_right_edge (ws : list pdf_word) : option Q :=
  fold_left (fun acc w =>
               if has_label (w_text w)
               then let cur := match acc with
                               | Some x => if is_zero x then w_x1 w else x
                               | None => w_x1 w
                               end in
                    Some (Qmax cur (w_x1 w))
               else acc) ws None.

Definition is_layout_stop (t : string) : bool :=
  let t := lower t in
  existsb (fun st => startswith t st) BN_STOP_TOKENS
  || existsb (fun st => contains st t) BN_STOP_TOKENS.

Definition row_candidate (ws : list pdf_word) : option (string * string * Q) :=
  let row_text := join " " (map w_text ws) in
  if has_label row_text then
    match label_right_edge ws with
    | None => None
    | Some label_x1 =>
        let right_tokens :=
          map w_text (filter (fun w => Qltb (label_x1 + 2) (w_x0 w)) ws) in
        match cut_at_stop is_layout_stop right_tokens with
        | [] => None
        | kept =>
            let cand := clean_and_clip (clean_business_name (join " " kept)) in
            if plausible_name cand 1
            then Some (cand, "[layout row] " ++ row_text, 18 # 100)
            else None
        end
    end
  else None.

Definition APPROX : string := String "226" (String "137" (String "136" "")).

(** A line of the top quarter of the page with its ranking score; [None]
    where the source divides by zero. *)
Definition top_candidate (width : Q) (ws : list pdf_word) : option (Q * string * string) :=
  let n := Qlen ws in
  let half := (width / 2)%Q in
  if is_zero n || is_zero half then None else
  let avg_size := (Qsum (map (fun w => match w_size w with Some x => x | None => 10 end) ws)
                   / Qmax 1 n)%Q in
  let text_line := clean_and_clip (join " " (map w_text ws)) in
  let sc := inject_Z (name_score text_line) in
  let x_avg := (Qsum (map (fun w => (w_x0 w + w_x1 w) / 2) ws) / n)%Q in
  let center_bias := (- Qabs (x_avg - half) / half)%Q in
  let score := (sc + avg_size / 10 + ((8 # 10) + center_bias))%Q in
  Some (score, text_line,
        "[top largest-font] size" ++ APPROX ++ fmt_fixed 1 avg_size
        ++ " text='" ++ take 80 text_line ++ "'").

Fixpoint all_some {A : Type} (l : list (option A)) : option (list A) :=
  match l with
  | [] => Some []
  | None :: _ => None
  | Some a :: r => option_map (cons a) (all_some r)
  end.

Section Layout.

(** [pdfplumber]: the words of the first page with their boxes; [None]
    when the document cannot be opened or has no page. *)
Variable pdf_first_page : string -> option pdf_page.

Definition extract_business_name_layout_aware (pdf_bytes : string)
  : option (string * string * Q) :=
  match pdf_first_page pdf_bytes with
  | None => None
  | Some page =>
      match page_words page with
      | [] => None
      | words =>
          match Statements.first_some
                  (map (fun row => row_candidate (snd row)) (bands 3 words)) with
          | Some r => Some r
          | None =>
              let height := if is_zero (page_height page) then 1000%Q else page_height page in
              let cutoff_y := (height * (25 # 100))%Q in
              let top_words := filter (fun w => Qle_bool (w_top w) cutoff_y) words in
              match all_some (map (fun b => top_candidate (page_width page) (snd b))
                                  (bands 2 top_words)) with
              | None => None
              | Some candidates =>
                  let ranked := sort (fun a b => Qle_bool (fst (fst b)) (fst (fst a)))
                                     candidates in
                  match List.find (fun c => (2 <=? name_score (snd (fst c)))%Z)
                                  (firstn 5 ranked) with
                  | Some (_, text_line, ev) => Some (text_line, ev, 10 # 100)
                  | None => None
                  end
              end
          end
      end
  end.

End Layout.

(** *** Text heuristics *)

Definition to_line_end : regex := plus (none_of ("|" ++ String "010" "")). (* [^\|\n]+ *)

Definition RE_NAME_ANCHOR : regex :=
  seq [alt [seq [lit_i "legal"; plus space; lit_i "business"; plus space; lit_i "name"];
            seq [lit_i "business"; plus space; lit_i "name"];
            seq [lit_i "company"; plus space; lit_i "name"];
            seq [lit_i "corporate"; plus space; lit_i "name"]];
       colon_dash_opt; Grp 1 to_line_end].
Definition RE_DBA_ANCHOR : regex :=
  seq [alt [lit_i "dba";
            seq [lit_i "doing"; plus space; lit_i "business"; plus space; lit_i "as"];
            seq [lit_i "trade"; plus space; lit_i "name"];
            seq [lit_i "business d"; slash_opt; chr_i "b"; slash_opt; lit_i "a name"]];
       colon_dash_opt; Grp 1 to_line_end].

Definition anchored_name (r : regex) (text_all : string) : option string :=
  match search r text_all with
  | Some m =>
      let cand := clean_and_clip (clean_business_name (group_str 1 m)) in
      if plausible_name cand 1 then Some cand else None
  | None => None
  end.

(** The index of the first street line among the first 40 *)
Definition first_street (lines_ : list string) : option nat :=
  option_map fst
    (List.find (fun '(_, ln) => is_match RE_STREET ln) (enumerate (firstn 40 lines_))).

Definition above_address (lines_ : list string) : option string :=
  match first_street lines_ with
  | Some (S i) =>
      let prev := clean_and_clip (nth i lines_ "") in
      if plausible_name prev 2 then Some prev else None
  | _ => None
  end.

Definition top_scored (lines_ : list string) : option string :=
  let top := map clean_and_clip (firstn 20 lines_) in
  let scored := map (fun ln => (name_score ln, ln)) (filter nonempty top) in
  let scored := filter (fun sl => (2 <=? fst sl)%Z) scored in
  option_map snd (hd_error (sort (fun a b => (fst b <=? fst a)%Z) scored)).

Definition corp_suffix_top (lines_ : list string) : option string :=
  Statements.first_some
    (map (fun ln =>
            if is_match CORP_SUFFIXES_RE ln
            then let cand := clean_and_clip ln in
                 if (1 <=? name_score cand)%Z then Some cand else None
            else None)
         (firstn 40 lines_)).

Definition extract_business_name_stronger (lines_ : list string)
  : option (string * string * Q) :=
  let text_all := join " | " lines_ in
  match anchored_name RE_NAME_ANCHOR text_all with
  | Some cand => Some (cand, "[anchor]", 10 # 100)
  | None =>
  match anchored_name RE_DBA_ANCHOR text_all with
  | Some cand => Some (cand, "[dba]", 10 # 100)
  | None =>
  match above_address lines_ with
  | Some prev => Some (prev, "[above-address]", 8 # 100)
  | None =>
  match top_scored lines_ with
  | Some ln => Some (ln, "[top-scored]", 6 # 100)
  | None =>
  match corp_suffix_top lines_ with
  | Some cand => Some (cand, "[corp-suffix-top]", 5 # 100)
  | None => None
  end end end end end.

(** ** Industry *)

Definition RE_INDUSTRY : regex :=
  seq [alt [lit_i "industry"; seq [lit_i "business"; star space; lit_i "type"];
            lit_i "naics"; lit_i "sic";
            seq [lit_i "line"; plus space; lit_i "of"; plus space; lit_i "business"];
            seq [lit_i "nature"; plus space; lit_i "of"; plus space; lit_i "business"];
            lit_i "sector"];
       colon_dash_opt;
       Grp 1 (plus (Chr (fun c => is_alpha c || mem_char c "&-/" || is_space c)))].

Definition keyword_vote (t : string) : option string :=
  fst (fold_left (fun '(best, hits) '(label, kws) =>
                    let h := Zlen (filter (fun k => contains k t) kws) in
                    if (hits <? h)%Z then (Some label, h) else (best, hits))
                 INDUSTRY_KEYWORDS (None, 0%Z)).

Definition classify_industry (text_all : string) : option string :=
  let labelled :=
    match search RE_INDUSTRY text_all with
    | Some m =>
        let cand := sub spaces2 " " (strip (hd "" (split_on "|" (group_str 1 m)))) in
        if (2 <=? len cand)%Z && (len cand <=? 80)%Z then Some cand else None
    | None => None
    end in
  match labelled with
  | Some cand => Some cand
  | None => keyword_vote (lower text_all)
  end.

(** ** Main extraction *)

Definition OCR_DPI_DEFAULT : Z := 300.
Definition TESS_OEM : Z := 1.
Definition TESS_PSM : Z := 4.
Definition TESS_LANG : string := "eng".

Definition EM_DASH : string := String "226" (String "128" (String "148" "")).
Definition BULLET : string := String "226" (String "128" (String "162" "")).

Definition ZIP_TAGS : list string := ["city,st,zip"; "zip-only"; "block "].

Definition evidence_line {V : Type} (f : FieldResult V) : string :=
  dict_get_default String.eqb (evidence f) "line" "".

Section Pipeline.

(** The engines behind text acquisition:
    - [pdf_page_texts]: [page.extract_text() or ""] for every page,
      [None] when [pdfplumber] raises;
    - [convert_from_bytes]: the page images at a resolution, whose
      exceptions are not caught;
    - [preprocess_for_ocr], [image_to_string] (image, language,
      configuration) and [paddle_ocr_page]: the image pipeline and the
      two OCR engines. *)
Variable image : Type.
Variable pdf_page_texts : string -> option (list string).
Variable convert_from_bytes : string -> Z -> result (list image).
Variable preprocess_for_ocr : image -> image.
Variable image_to_string : image -> string -> string -> string.
Variable paddle_ocr_page : image -> string.
Variable pdf_first_page : string -> option pdf_page.
Variable partial_ratio : string -> string -> Q.
Variable dateparse_fuzzy : string -> option datetime.
Variable now : datetime.

Definition native_text_of (pdf_bytes : string) : string :=
  match pdf_page_texts pdf_bytes with
  | Some pages =>
      strip (join (String "010" "") (filter (fun t => nonempty (strip t)) pages))
  | None => ""
  end.

Definition ocr_page (tess_cfg : string) (img : image) : string :=
  let pre := preprocess_for_ocr img in
  let txt := strip (image_to_string pre TESS_LANG tess_cfg) in
  let txt := if (len txt <? 100)%Z
             then let alt := paddle_ocr_page img in
                  if (len txt <? len alt)%Z then alt else txt
             else txt in
  replace BULLET "-" (replace EM_DASH "-" txt).

(** The text of the document and whether OCR produced it. *)
Definition acquire_text (pdf_bytes : string) (ocr_dpi tess_psm : Z)
  : result (string * bool) :=
  let native_text := native_text_of pdf_bytes in
  if (len native_text <? 1000)%Z then
    bind (convert_from_bytes pdf_bytes ocr_dpi) (fun pages =>
    let tess_cfg := "--oem " ++ str_of_int TESS_OEM ++ " --psm " ++ str_of_int tess_psm in
    Ok (join (String "010" "") (map (ocr_page tess_cfg) pages), true))
  else Ok (native_text, false).

Definition state_of_window (lines : list string) (win : string) : option string :=
  option_map fst (extract_state_stronger_multiline lines win).

Definition resolve_state (lines lines_lower : list string) : result (FieldResult string) :=
  bind (find_with_anchors partial_ratio lines lines_lower "state" ANCHORS
                          (state_of_window lines) (62 # 100))
       (fun state_field =>
  if truthy (value state_field) then
    match extract_state_stronger_multiline lines (evidence_line state_field) with
    | Some (_, ev) =>
        Ok (mkField (value state_field) (confidence state_field)
                    [("anchor", "address-aware"); ("line", ev)])
    | None => Ok state_field
    end
  else Ok state_field).

Definition score_of (v : option string) : Z :=
  match v with Some s => name_score s | None => 0%Z end.

(** A candidate of one of the two stronger strategies replaces the
    value when there is none or when it scores higher. *)
Definition prefer (bn : FieldResult string) (val anchor ev : string)
  : FieldResult string :=
  if negb (truthy (value bn)) || (score_of (value bn) <? name_score val)%Z
  then mkField (Some val) (confidence bn) [("anchor", anchor); ("line", ev)]
  else bn.

Definition resolve_business_name (pdf_bytes : string) (native : bool)
           (lines lines_lower : list string) : result (FieldResult string) :=
  bind (find_with_anchors partial_ratio lines lines_lower "business_name" ANCHORS
                          extract_bn_from_window (72 # 100))
       (fun bn_field =>
  let '(bn_field, conf_boost) :=
    if native then
      match extract_business_name_layout_aware pdf_first_page pdf_bytes with
      | Some (val, ev, boost) => (prefer bn_field val "layout-aware" ev, (0 + boost)%Q)
      | None => (bn_field, 0%Q)
      end
    else (bn_field, 0%Q) in
  let '(bn_field, conf_boost) :=
    if negb (truthy (value bn_field)) || Qltb (confidence bn_field) (82 # 100) then
      match extract_business_name_stronger lines with
      | Some (val, ev, boost) =>
          (prefer bn_field val "text-heuristic" ev, (conf_boost + boost)%Q)
      | None => (bn_field, conf_boost)
      end
    else (bn_field, conf_boost) in
  match value bn_field with
  | Some name =>
      if nonempty name then
        let base := Qmax (confidence bn_field) (70 # 100) in
        let conf_boost :=
          if is_match CORP_SUFFIXES_RE name then (conf_boost + (3 # 100))%Q
          else conf_boost in
        Ok (mkField (value bn_field) (Qmin (99 # 100) (base + conf_boost))
                    (evidence bn_field))
      else Ok bn_field
  | None => Ok bn_field
  end).

Definition resolve_tib (lines lines_lower : list string) : result (FieldResult string) :=
  bind (find_with_anchors partial_ratio lines lines_lower "tib" ANCHORS
                          (parse_tib_value_strict now dateparse_fuzzy) (6 # 10))
       (fun tib =>
  Ok (mkField
        (option_map (fun '(mos, yrs) =>
                       fmt_fixed 1 mos ++ " months (" ++ fmt_fixed 2 yrs ++ " years)")
                    (value tib))
        (confidence tib) (evidence tib))).

(** The nudge of the state's confidence when a ZIP code backs it. *)
Definition nudge_state (st : FieldResult string) : FieldResult string :=
  if truthy (value st) && existsb (fun tag => contains tag (evidence_line st)) ZIP_TAGS
  then mkField (value st)
               (Qmin (99 # 100) (Qmax (confidence st) (76 # 100) + (8 # 100)))
               (evidence st)
  else st.

Definition extract_fields_from_bytes (pdf_bytes : string) (ocr_dpi tess_psm : Z)
  : result (dict string (FieldResult string) * string) :=
  bind (acquire_text pdf_bytes ocr_dpi tess_psm) (fun '(text, use_ocr) =>
  let lines := lines_from_text text in
  let lines_lower := map lower lines in
  bind (find_with_anchors partial_ratio lines lines_lower "fico" ANCHORS
                          extract_fico (6 # 10)) (fun fico =>
  let out := dict_set String.eqb [] "FICO" fico in
  bind (resolve_state lines lines_lower) (fun state_field =>
  let out := dict_set String.eqb out "State" state_field in
  bind (resolve_business_name pdf_bytes (negb use_ocr) lines lines_lower) (fun bn_field =>
  let out := dict_set String.eqb out "BusinessName" bn_field in
  bind (find_with_anchors partial_ratio lines lines_lower "industry" ANCHORS
                          classify_industry (55 # 100)) (fun industry =>
  let out := dict_set String.eqb out "Industry" industry in
  bind (resolve_tib lines lines_lower) (fun tib =>
  let out := dict_set String.eqb out "LengthOfOwnership" tib in
  let out :=
    match dict_get String.eqb out "State" with
    | Some st => dict_set String.eqb out "State" (nudge_state st)
    | None => out
    end in
  let preview := "[source=" ++ (if use_ocr then "ocr" else "native") ++ "] "
                 ++ join (String "010" "") (firstn 200 lines) in
  Ok (out, preview))))))).

End Pipeline.

End Application.

(** * Account numbers: the helpers of [Statements_extractor.py] *)

Module Account.

Import Str Re.
Local Open Scope string_scope.









Definition found (r : regex) (s : string) : bool :=
  match search r s with Some _ => true | None => false end.








End Account.

(** * Uploads: [allowed_file] of [Application_extractor.py] *)

Module Upload.

Import Str.
Local Open Scope string_scope.

Definition ALLOWED_EXT : list string := ["pdf"].

(** ["." in filename and filename.rsplit(".", 1)[1].lower() in ALLOWED_EXT] *)
Definition allowed_file (filename : string) : bool :=
  match Statements.rfind_char "." filename with
  | None => false
  | Some i => mem_string (lower (drop (S i) filename)) ALLOWED_EXT
  end.

End Upload.

(** * Lender rules: the reading of a length of ownership,
      [lenders_rules.py] *)

Module Lenders.

Import Str Re.
Local Open Scope string_scope.





End Lenders.


(** * Specification vocabulary

    The notions that the statements below are written with. *)

Import Statements.
Import Application.

(** The extra day of a leap year. *)
Definition leap_day (y : Z) : Z := if is_leap y then 1 else 0.

Definition in_period (d1 d2 d : date) : Prop :=
  valid_date d = true /\ date_leb d1 d = true /\ date_leb d d2 = true.

Definition opening_or_zero (o : option Q) : Q :=
  match o with Some b => b | None => 0%Q end.

(** Each element of the list is before all that follow it. *)
Definition ordered {A : Type} (leb : A -> A -> bool) : list A -> Prop :=
  StronglySorted (fun a b => leb a b = true).

(** The state is one of the best-3 set, whatever its case. *)
Definition in_best3 (state : option string) : Prop :=
  exists st, state = Some st /\ (Str.upper st = "NY"%string \/ Str.upper st = "CA"%string).

(** A float: a binary64 value, far from the greatest one. *)
Definition binary64 (q : Q) : Prop :=
  (F64.b64 q == q)%Q /\ (Qabs q <= inject_Z (2 ^ 512))%Q.

(** The average of a list of floats as Python computes it, rounded to
    two decimals: [round(sum(l) / len(l), 2)]. *)
Definition float_mean2 (compensated : bool) (l : list Q) : Q :=
  F64.round_digits 2
    (F64.fdiv (F64.builtin_sum compensated l)
              (F64.float_of_int (Z.of_nat (List.length l)))).

(** The monthly totals 1000.0 and 1000.03, as floats. *)
Definition two_months : dict string Q :=
  [("2024-01"%string, 1000%Q); ("2024-02"%string, F64.b64 (100003 # 100))].

(** The monthly totals of the specification's example. *)
Definition four_months : dict string Q :=
  [("2024-01"%string, 100%Q); ("2024-02"%string, 200%Q);
   ("2024-03"%string, 300%Q); ("2024-04"%string, 50%Q)].

(** The transactions of a month, and how many of a list satisfy a test. *)
Definition in_month (k : string) (t : Txn) : bool := String.eqb (month_key (dt t)) k.

Definition count_where (p : Txn -> bool) (txns : list Txn) : Z :=
  Z.of_nat (List.length (filter p txns)).

Definition is_debit (t : Txn) : bool := Qltb (amount t) 0.
Definition is_credit (t : Txn) : bool := Qltb 0 (amount t).

Definition debits_of (acc : monthly) : dict string Z := fst (fst acc).
Definition credits_of (acc : monthly) : dict string Z := snd (fst acc).

Definition indicator (b : bool) : Z := if b then 1 else 0.

(** The dates on which a normalised name occurs, in the order of the
    list; the names that are kept; the cadence of a name. *)
Definition occurrences (n : string) (txns : list Txn) : list date :=
  map dt (filter (fun t => String.eqb (_normalize_desc (desc t)) n) txns).

(** A text of 7-bit characters: on such texts [Str.lower], [Str.len]
    and the character classes of the patterns are those of Python. *)
Fixpoint is_ascii (s : string) : bool :=
  match s with
  | EmptyString => true
  | String c r => (Str.code c <? 128)%N && is_ascii r
  end.

Definition eligible (n : string) : bool :=
  negb ((Str.len n <? 4) || Str.mem_string n SKIPPED_NAMES).

Definition cadence_of (n : string) (txns : list Txn) : option cadence :=
  if eligible n then classify (occurrences n txns) else None.

Definition median_gap (ds : list date) : option Q :=
  median (gaps (sort date_leb ds)).

Definition strictly_sorted (l : list string) : Prop :=
  StronglySorted (fun a b => String.ltb a b = true) l.

(** [top] holds the least names that satisfy [P], five at most, in
    increasing order. *)
Definition least_five (top : list string) (P : string -> Prop) : Prop :=
  strictly_sorted top
  /\ (List.length top <= 5)%nat
  /\ (forall n, In n top -> P n)
  /\ (forall n, P n ->
                In n top
                \/ (List.length top = 5%nat /\ forall m, In m top -> String.ltb m n = true)).

(** Ten dates with no period: the gaps are 2, 3, 11, 2, 17, 3, 2, 12 and
    3 days. *)
Definition irregular_dates : list date :=
  [mkdate 2024 1 3; mkdate 2024 1 5; mkdate 2024 1 8; mkdate 2024 1 19;
   mkdate 2024 1 21; mkdate 2024 2 7; mkdate 2024 2 10; mkdate 2024 2 12;
   mkdate 2024 2 24; mkdate 2024 2 27].

(** Ten dates with no period either, but a median gap of a week: the
    gaps are 1, 1, 2, 30, 7, 7, 7, 6 and 40 days. *)
Definition uneven_weekly_dates : list date :=
  [mkdate 2024 1 1; mkdate 2024 1 2; mkdate 2024 1 3; mkdate 2024 1 5;
   mkdate 2024 2 4; mkdate 2024 2 11; mkdate 2024 2 18; mkdate 2024 2 25;
   mkdate 2024 3 2; mkdate 2024 4 11].

Definition same_desc (dsc : string) (ds : list date) : list Txn :=
  map (fun d => mkTxn d dsc (-(25 # 1))%Q None) ds.

(** A month label [YYYY-MM]: four digits, a hyphen, two digits that
    name a month. *)
Definition is_year_month (s : string) : bool :=
  match s with
  | String y1 (String y2 (String y3 (String y4 (String sep (String m1 (String m2 EmptyString)))))) =>
      Str.is_digit y1 && Str.is_digit y2 && Str.is_digit y3 && Str.is_digit y4
      && Ascii.eqb sep "-"
      && Str.is_digit m1 && Str.is_digit m2
      && (1 <=? Str.digit_val m1 * 10 + Str.digit_val m2)
      && (Str.digit_val m1 * 10 + Str.digit_val m2 <=? 12)
  | _ => false
  end.

(** Labels, and the checks that their two halves pass. *)
Definition label_of (y m : Z) : string :=
  (Str.fmt_0d 4 y ++ "-" ++ Str.fmt_0d 2 m)%string.

Definition years : list Z := map Z.of_nat (seq 1 (Z.to_nat 9999)).
Definition months : list Z := map Z.of_nat (seq 1 12).

Definition year_ok (s : string) : bool :=
  match s with
  | String y1 (String y2 (String y3 (String y4 EmptyString))) =>
      Str.is_digit y1 && Str.is_digit y2 && Str.is_digit y3 && Str.is_digit y4
  | _ => false
  end.

Definition month_ok (s : string) : bool :=
  match s with
  | String m1 (String m2 EmptyString) =>
      Str.is_digit m1 && Str.is_digit m2
      && (1 <=? Str.digit_val m1 * 10 + Str.digit_val m2)
      && (Str.digit_val m1 * 10 + Str.digit_val m2 <=? 12)
  | _ => false
  end.

Definition no_dates : string -> option date := fun _ => None.
Definition no_header : string -> option string
                       -> option string * option string * option string :=
  fun _ _ => (None, None, None).

(** The five fields of an application, with the anchor key and the base
    confidence that [extract_fields_from_bytes] resolves each with. *)
Inductive field : Type := FICO | State | BusinessName | Industry | LengthOfOwnership.

Definition field_key (f : field) : string :=
  match f with
  | FICO => "fico"
  | State => "state"
  | BusinessName => "business_name"
  | Industry => "industry"
  | LengthOfOwnership => "tib"
  end.

Definition field_conf_base (f : field) : Q :=
  match f with
  | FICO => 6 # 10
  | State => 62 # 100
  | BusinessName => 72 # 100
  | Industry => 55 # 100
  | LengthOfOwnership => 6 # 10
  end.

Definition field_anchors (f : field) : list string :=
  dict_get_default String.eqb ANCHORS (field_key f) [].

Definition hit_window (lines : list string) (h : hit) : string :=
  window lines (fst (fst h)) 2.

Definition head_text (lines : list string) : string :=
  Str.join " | " (Str.head_items 60 lines).
Definition tail_text (lines : list string) : string :=
  Str.join " | " (Str.tail_items 60 lines).

(** A result that carries a value found near an anchor. *)
Definition anchored {V : Type} `{Truthy V} (r : FieldResult V) : Prop :=
  truthy (value r) = true /\ (275 # 1000 <= confidence r <= 985 # 1000)%Q.

(** [k] occurs in [s]. *)
Definition occurs (k s : string) : Prop :=
  exists pre post, s = (pre ++ k ++ post)%string.

Definition noon_2024 : datetime := mkdatetime (mkdate 2024 6 15) 43200000000.
Definition noon_2025 : datetime := mkdatetime (mkdate 2025 6 15) 43200000000.
Definition no_datetimes : string -> option datetime := fun _ => None.


Definition FIELD_NAMES : list string :=
  ["FICO"; "State"; "BusinessName"; "Industry"; "LengthOfOwnership"]%string.

(** A stand-in for the fuzzy matcher: 100 when the phrase occurs in the
    line as it is, 0 otherwise. *)
Definition exact_ratio (a ln : string) : Q :=
  if Str.contains a ln then 100%Q else 0%Q.

(** Engines for a scanned one-page document that reads
    "Established 2010". *)
Definition scan_texts : string -> option (list string) := fun _ => Some [].
Definition scan_pages : string -> Z -> result (list unit) := fun _ _ => Ok [tt].
Definition scan_ocr : unit -> string -> string -> string :=
  fun _ _ _ => "Established 2010"%string.
Definition scan_paddle : unit -> string := fun _ => ""%string.
Definition scan_layout : string -> option pdf_page := fun _ => None.

Definition extract_scan (now : datetime)
  : result (dict string (FieldResult string) * string) :=
  extract_fields_from_bytes unit scan_texts scan_pages (fun img => img) scan_ocr
                            scan_paddle scan_layout exact_ratio no_datetimes now
                            "%PDF-1.4" OCR_DPI_DEFAULT TESS_PSM.

Definition field_value (out : dict string (FieldResult string)) (k : string)
  : option string :=
  match dict_get String.eqb out k with
  | Some f => value f
  | None => None
  end.

(** ** Vocabulary of the further properties *)

(** The transactions dated from [d1] to [d], and the sum of the amounts
    of a list of transactions. *)
Definition posted_through (d1 d : date) (txns : list Txn) : list Txn :=
  filter (fun t => date_leb d1 (dt t) && date_leb (dt t) d) txns.

Definition total (ts : list Txn) : Q := Qsum (map amount ts).

Definition dated (txns : list Txn) : Prop :=
  Forall (fun t => valid_date (dt t) = true) txns.

(** A date parser that reads every date as 29 February 2024, and a
    statement of one line dated without a year. *)
Definition leap_day_parser : string -> option date := fun _ => Some (mkdate 2024 2 29).
Definition leap_day_text : string := "02/29 COFFEE SHOP 4.50".

(** A date parser that reads "MM/DD" as a day of 2024, and a statement of
    three lines that are not in order. *)
Definition month_day_parser (s : string) : option date :=
  match s with
  | String a (String b (String "/" (String c (String e EmptyString)))) =>
      if Str.is_digit a && Str.is_digit b && Str.is_digit c && Str.is_digit e
      then Some (mkdate 2024 (Str.digit_val a * 10 + Str.digit_val b)
                        (Str.digit_val c * 10 + Str.digit_val e))
      else None
  | _ => None
  end.

Definition unordered_text : string :=
  ("03/15 RENT 1,200.00" ++ String "010" "01/10 COFFEE SHOP 4.50"
   ++ String "010" "01/10 BAKERY 3.25")%string.

Definition deposits_of (acc : monthly) : dict string Q := snd acc.

(** A credit that counts as a deposit: its description does not mention
    Zelle, in any case. *)
Definition is_deposit (t : Txn) : bool :=
  is_credit t && negb (Str.contains "zelle" (Str.lower (desc t))).

(** A gym fee charged on four Mondays in a row. *)
Definition gym_fees : list Txn :=
  [mkTxn (mkdate 2024 1 1) "Gym Fee" (-(30 # 1))%Q None;
   mkTxn (mkdate 2024 1 8) "Gym Fee" (-(30 # 1))%Q None;
   mkTxn (mkdate 2024 1 15) "Gym Fee" (-(30 # 1))%Q None;
   mkTxn (mkdate 2024 1 22) "Gym Fee" (-(30 # 1))%Q None].

(** A [datetime] of the calendar. *)
Definition valid_datetime (t : datetime) : Prop :=
  valid_date (dt_date t) = true /\ 0 <= dt_us t < 86400000000.

(** A result read off the window of an anchor hit, and a result read off
    the head or the tail of the document. *)
Definition found_at {V : Type} `{Truthy V} (extractor_fn : string -> option V)
           (lines : list string) (conf_base : Q) (r : FieldResult V) (h : hit) : Prop :=
  value r = extractor_fn (hit_window lines h)
  /\ truthy (value r) = true
  /\ confidence r
     = round2 (Qmin (conf_base + (snd h / 100) * (35 # 100)) (98 # 100))
  /\ evidence r = [("anchor", snd (fst h)); ("line", hit_window lines h)]%string.

Definition found_globally {V : Type} `{Truthy V} (extractor_fn : string -> option V)
           (lines : list string) (r : FieldResult V) : Prop :=
  (value r = extractor_fn (head_text lines) \/ value r = extractor_fn (tail_text lines))
  /\ truthy (value r) = true
  /\ confidence r = 45 # 100
  /\ evidence r = [("anchor", "global-fallback"); ("line", "(document head/tail)")]%string.

(** One iteration of the loop of [parse_transactions] over the lines. *)
Definition add_line (dateparse : string -> option date) (p : option period)
           (acc : result (list Txn)) (ln : string) : result (list Txn) :=
  bind acc (fun txns =>
  bind (txn_of_line dateparse p ln) (fun t =>
  Ok (match t with Some t => (txns ++ [t])%list | None => txns end))).

(** A field whose value, if any, scores at least 1 as a name. *)
Definition named (f : FieldResult string) : Prop :=
  forall v, value f = Some v -> 1 <= name_score v.

(** How [extract_fields_from_bytes] writes a length of ownership. *)
Definition tib_text (mos yrs : Q) : string :=
  (Str.fmt_fixed 1 mos ++ " months (" ++ Str.fmt_fixed 2 yrs ++ " years)")%string.






(** How many keywords of a list occur in a text. *)
Definition keyword_hits (t : string) (kws : list string) : Z :=
  Zlen (filter (fun k => Str.contains k t) kws).

(** What a vote over labelled entries holds after the entries [seen],
    with [h] the score of an entry: nothing when no entry scored, else
    the first label with the highest score, and that score. *)
Definition vote_inv {A : Type} (h : A -> Z) (seen : list (string * A))
           (st : option string * Z) : Prop :=
  match fst st with
  | None => snd st = 0%Z /\ forall l k, In (l, k) seen -> (h k <= 0)%Z
  | Some l =>
      (0 < snd st)%Z
      /\ exists pre k post,
           seen = pre ++ (l, k) :: post /\ h k = snd st
           /\ (forall l' k', In (l', k') pre -> (h k' < snd st)%Z)
           /\ (forall l' k', In (l', k') post -> (h k' <= snd st)%Z)
  end.

(** * Properties *)

(** ** Dictionaries *)

Section DictFacts.
Context {K V : Type} (keq : K -> K -> bool).
Hypothesis keq_spec : forall a b, keq a b = true <-> a = b.

Lemma keq_refl : forall k, keq k k = true.
Proof. intro k. now apply keq_spec. Qed.

Lemma keq_neq : forall a b, a <> b -> keq a b = false.
Proof.
  intros a b Hab. destruct (keq a b) eqn:E; [|reflexivity].
  apply keq_spec in E. contradiction.
Qed.

Lemma dict_get_set_same (m : dict K V) k v :
  dict_get keq (dict_set keq m k v) k = Some v.
Proof.
  induction m as [|[k' v'] m IH]; simpl.
  - now rewrite keq_refl.
  - destruct (keq k k') eqn:E; simpl; rewrite E; [reflexivity|exact IH].
Qed.

Lemma dict_get_set_other (m : dict K V) k k' v :
  k <> k' -> dict_get keq (dict_set keq m k v) k' = dict_get keq m k'.
Proof.
  intros Hne. induction m as [|[k0 v0] m IH]; simpl.
  - rewrite keq_neq; auto.
  - destruct (keq k k0) eqn:E; simpl.
    + apply keq_spec in E. subst k0.
      rewrite keq_neq by (intros ->; now apply Hne). reflexivity.
    + now rewrite IH.
Qed.

Lemma dict_get_none (m : dict K V) k :
  dict_get keq m k = None <-> ~ In k (dict_keys m).
Proof.
  induction m as [|[k0 v0] m IH]; simpl.
  - tauto.
  - destruct (keq k k0) eqn:E.
    + apply keq_spec in E. subst. split; [discriminate|]. intros H. exfalso. apply H. now left.
    + rewrite IH. split.
      * intros H [H1|H1]; [|auto]. subst. rewrite keq_refl in E. discriminate.
      * intros H H1. apply H. now right.
Qed.

Lemma dict_keys_set_fresh (m : dict K V) k v :
  ~ In k (dict_keys m) -> dict_keys (dict_set keq m k v) = dict_keys m ++ [k].
Proof.
  induction m as [|[k0 v0] m IH]; simpl; intros Hn.
  - reflexivity.
  - rewrite keq_neq by (intros ->; apply Hn; now left).
    simpl. f_equal. apply IH. intros H. apply Hn. now right.
Qed.

Lemma dict_keys_set_present (m : dict K V) k v :
  In k (dict_keys m) -> dict_keys (dict_set keq m k v) = dict_keys m.
Proof.
  induction m as [|[k0 v0] m IH]; simpl; intros Hin.
  - contradiction.
  - destruct (keq k k0) eqn:E; simpl.
    + reflexivity.
    + f_equal. apply IH. destruct Hin as [->|]; [|assumption].
      rewrite keq_refl in E. discriminate.
Qed.

End DictFacts.

(** ** The calendar *)

Module DateFacts.

Lemma date_eqb_eq a b : date_eqb a b = true <-> a = b.
Proof.
  destruct a as [ya ma da], b as [yb mb db]. unfold date_eqb; simpl.
  rewrite !andb_true_iff, !Z.eqb_eq. split.
  - intros [[-> ->] ->]. reflexivity.
  - intros H. injection H as -> -> ->. auto.
Qed.

Lemma valid_date_iff d :
  valid_date d = true <->
  1 <= year d <= 9999 /\ 1 <= month d <= 12
  /\ 1 <= day d <= days_in_month (year d) (month d).
Proof.
  unfold valid_date, MINYEAR, MAXYEAR.
  rewrite !andb_true_iff, !Z.leb_le. tauto.
Qed.

Lemma days_in_month_bounds y m : 28 <= days_in_month y m <= 31.
Proof.
  unfold days_in_month.
  destruct (m =? 2); [destruct (is_leap y); lia|].
  destruct ((m =? 4) || (m =? 6) || (m =? 9) || (m =? 11)); lia.
Qed.

Lemma days_before_month_succ y m :
  1 <= m -> days_before_month y (m + 1) = days_before_month y m + days_in_month y m.
Proof.
  intros Hm. unfold days_before_month.
  replace (Z.to_nat (m + 1 - 1)) with (S (Z.to_nat (m - 1))) by lia.
  rewrite seq_S, map_app, fold_left_app.
  cbn [map fold_left].
  replace (Z.of_nat (1 + Z.to_nat (m - 1))) with m by lia. reflexivity.
Qed.

Lemma days_before_month_13 y : days_before_month y 13 = 365 + leap_day y.
Proof.
  unfold days_before_month, leap_day, days_in_month.
  destruct (is_leap y); vm_compute; reflexivity.
Qed.

Lemma days_before_month_mono y m1 m2 :
  1 <= m1 -> m1 < m2 ->
  days_before_month y m1 + days_in_month y m1 <= days_before_month y m2.
Proof.
  intros H1 H12.
  remember (Z.to_nat (m2 - m1 - 1)) as n eqn:Hn.
  revert m2 H12 Hn. induction n as [|n IH]; intros m2 H12 Hn.
  - assert (m2 = m1 + 1) by lia. subst m2.
    rewrite days_before_month_succ by lia. lia.
  - replace m2 with ((m2 - 1) + 1) by lia.
    rewrite days_before_month_succ by lia.
    specialize (IH (m2 - 1) ltac:(lia) ltac:(lia)).
    pose proof (days_in_month_bounds y (m2 - 1)). lia.
Qed.

Lemma days_before_year_succ y :
  days_before_year (y + 1) = days_before_year y + 365 + leap_day y.
Proof.
  unfold days_before_year, leap_day, is_leap.
  replace (y + 1 - 1) with y by lia.
  destruct (Z.eqb_spec (y mod 4) 0), (Z.eqb_spec (y mod 100) 0),
           (Z.eqb_spec (y mod 400) 0); simpl;
    Z.to_euclidean_division_equations; lia.
Qed.

Lemma days_before_year_mono y1 y2 :
  y1 <= y2 -> days_before_year y1 <= days_before_year y2.
Proof.
  intros H. unfold days_before_year.
  Z.to_euclidean_division_equations. lia.
Qed.

Lemma toordinal_year_bounds d :
  valid_date d = true ->
  days_before_year (year d) < toordinal d <= days_before_year (year d + 1).
Proof.
  intros Hv. apply valid_date_iff in Hv. destruct Hv as (Hy & Hm & Hd).
  unfold toordinal. rewrite days_before_year_succ.
  pose proof (days_before_month_13 (year d)) as H13.
  assert (0 <= days_before_month (year d) (month d)).
  { destruct (Z.eq_dec (month d) 1) as [->|].
    - cbv. discriminate.
    - pose proof (days_before_month_mono (year d) 1 (month d) ltac:(lia) ltac:(lia)).
      pose proof (days_in_month_bounds (year d) 1).
      change (days_before_month (year d) 1) with 0 in H. lia. }
  pose proof (days_before_month_mono (year d) (month d) 13 ltac:(lia) ltac:(lia)).
  lia.
Qed.

Lemma toordinal_lt a b :
  valid_date a = true -> valid_date b = true ->
  date_ltb a b = true -> toordinal a < toordinal b.
Proof.
  intros Ha Hb Hlt.
  pose proof (toordinal_year_bounds a Ha) as Ba.
  pose proof (toordinal_year_bounds b Hb) as Bb.
  apply valid_date_iff in Ha, Hb.
  unfold date_ltb in Hlt.
  repeat (first [rewrite orb_true_iff in Hlt | rewrite andb_true_iff in Hlt]).
  rewrite !Z.ltb_lt, !Z.eqb_eq in Hlt.
  destruct Hlt as [Hy | [Hy [Hm | [Hm Hd]]]].
  - pose proof (days_before_year_mono (year a + 1) (year b) ltac:(lia)). lia.
  - unfold toordinal. rewrite Hy.
    pose proof (days_before_month_mono (year b) (month a) (month b) ltac:(lia) Hm).
    rewrite Hy in Ha. lia.
  - unfold toordinal. rewrite Hy, Hm. lia.
Qed.

Lemma date_trichotomy a b :
  date_ltb a b = true \/ a = b \/ date_ltb b a = true.
Proof.
  destruct a as [ya ma da], b as [yb mb db]. unfold date_ltb; simpl.
  repeat (first [rewrite orb_true_iff | rewrite andb_true_iff]).
  rewrite !Z.ltb_lt, !Z.eqb_eq.
  destruct (Z.lt_trichotomy ya yb) as [?|[->|?]]; [tauto| |tauto].
  destruct (Z.lt_trichotomy ma mb) as [?|[->|?]]; [tauto| |tauto].
  destruct (Z.lt_trichotomy da db) as [?|[->|?]]; tauto.
Qed.

Lemma date_ltb_ord a b :
  valid_date a = true -> valid_date b = true ->
  date_ltb a b = (toordinal a <? toordinal b).
Proof.
  intros Ha Hb.
  destruct (date_trichotomy a b) as [H | [-> | H]].
  - rewrite H. symmetry. apply Z.ltb_lt. now apply toordinal_lt.
  - rewrite Z.ltb_irrefl. destruct (date_ltb b b) eqn:E; [|reflexivity].
    apply toordinal_lt in E; auto. lia.
  - pose proof (toordinal_lt b a Hb Ha H).
    destruct (date_ltb a b) eqn:E.
    + apply toordinal_lt in E; auto. lia.
    + symmetry. apply Z.ltb_ge. lia.
Qed.

Lemma toordinal_inj a b :
  valid_date a = true -> valid_date b = true ->
  toordinal a = toordinal b -> a = b.
Proof.
  intros Ha Hb Heq.
  destruct (date_trichotomy a b) as [H | [-> | H]]; [|reflexivity|];
    apply toordinal_lt in H; auto; lia.
Qed.

Lemma date_leb_ord a b :
  valid_date a = true -> valid_date b = true ->
  date_leb a b = (toordinal a <=? toordinal b).
Proof.
  intros Ha Hb. unfold date_leb. rewrite date_ltb_ord by assumption.
  destruct (date_eqb a b) eqn:E.
  - apply date_eqb_eq in E. subst. rewrite orb_true_r. symmetry. apply Z.leb_le. lia.
  - rewrite orb_false_r.
    destruct (Z.ltb_spec (toordinal a) (toordinal b)).
    + symmetry. apply Z.leb_le. lia.
    + symmetry. apply Z.leb_gt.
      assert (toordinal a <> toordinal b).
      { intros Heq. apply toordinal_inj in Heq; auto. subst.
        assert (date_eqb b b = true) by now apply date_eqb_eq. congruence. }
      lia.
Qed.

(** The day after a day of the calendar other than the last one is the
    next day of the calendar. *)
Lemma date_succ_spec d :
  valid_date d = true -> d <> date_max ->
  exists d', date_succ d = Ok d' /\ valid_date d' = true
             /\ toordinal d' = toordinal d + 1.
Proof.
  intros Hv Hmax. pose proof Hv as Hv'. apply valid_date_iff in Hv.
  destruct Hv as (Hy & Hm & Hd).
  unfold date_succ, MAXYEAR.
  destruct (Z.ltb_spec (day d) (days_in_month (year d) (month d))) as [H1|H1].
  - eexists. split; [reflexivity|]. split.
    + apply valid_date_iff. simpl. lia.
    + unfold toordinal. simpl. lia.
  - destruct (Z.ltb_spec (month d) 12) as [H2|H2].
    + eexists. split; [reflexivity|]. split.
      * apply valid_date_iff. simpl.
        pose proof (days_in_month_bounds (year d) (month d + 1)). lia.
      * unfold toordinal. simpl. rewrite days_before_month_succ by lia. lia.
    + destruct (Z.ltb_spec (year d) 9999) as [H3|H3].
      * eexists. split; [reflexivity|]. split.
        -- apply valid_date_iff. simpl.
           pose proof (days_in_month_bounds (year d + 1) 1). lia.
        -- unfold toordinal. simpl.
           assert (month d = 12) as Hm12 by lia.
           rewrite days_before_year_succ, Hm12.
           pose proof (days_before_month_succ (year d) 12 ltac:(lia)) as Hs.
           change (12 + 1) with 13 in Hs. rewrite days_before_month_13 in Hs.
           change (days_before_month (year d + 1) 1) with 0.
           rewrite Hm12 in H1, Hd. lia.
      * exfalso. apply Hmax. destruct d as [y m dd]. simpl in *.
        assert (y = 9999) by lia. assert (m = 12) by lia. subst.
        change (days_in_month 9999 12) with 31 in Hd, H1.
        assert (dd = 31) by lia. subst. reflexivity.
Qed.

End DateFacts.

Module LedgerFacts.

Import DateFacts Statements.

Lemma date_succ_ord k k' :
  valid_date k = true -> date_succ k = Ok k' ->
  valid_date k' = true /\ toordinal k' = toordinal k + 1.
Proof.
  intros Hv Hs.
  destruct (date_eqb k date_max) eqn:E.
  - apply date_eqb_eq in E. subst. discriminate.
  - assert (k <> date_max) as Hne.
    { intros ->. now rewrite (proj2 (date_eqb_eq _ _) eq_refl) in E. }
    destruct (date_succ_spec k Hv Hne) as (d' & Hd' & Hvd & Hord).
    rewrite Hs in Hd'. injection Hd' as ->. auto.
Qed.

Lemma toordinal_le_max d :
  valid_date d = true -> toordinal d <= toordinal date_max.
Proof.
  intros Hv.
  destruct (date_trichotomy d date_max) as [H | [-> | H]].
  - apply toordinal_lt in H; auto. lia.
  - lia.
  - exfalso. apply valid_date_iff in Hv. destruct Hv as (Hy & Hm & Hd).
    unfold date_ltb, date_max in H. cbn [year month day] in H.
    repeat (first [rewrite orb_true_iff in H | rewrite andb_true_iff in H]).
    rewrite !Z.ltb_lt, !Z.eqb_eq in H.
    destruct H as [H | [Hy' [H | [Hm' H]]]]; try lia.
    rewrite <- Hy', <- Hm' in Hd. change (days_in_month 9999 12) with 31 in Hd. lia.
Qed.

Lemma before_max d :
  valid_date d = true -> d <> date_max -> toordinal d < toordinal date_max.
Proof.
  intros Hv Hne. pose proof (toordinal_le_max d Hv).
  assert (toordinal d <> toordinal date_max).
  { intros Heq. apply Hne. apply toordinal_inj; auto. }
  lia.
Qed.

Lemma date_pred_spec d :
  valid_date d = true -> d <> date_min ->
  exists p, date_pred d = Ok p /\ valid_date p = true /\ date_succ p = Ok d.
Proof.
  intros Hv Hmin. apply valid_date_iff in Hv. destruct Hv as (Hy & Hm & Hd).
  destruct d as [y m dd]. simpl in *.
  unfold date_pred, date_succ, MINYEAR, MAXYEAR. simpl.
  destruct (Z.ltb_spec 1 dd) as [H1|H1].
  - eexists. split; [reflexivity|]. split.
    + apply valid_date_iff. simpl. lia.
    + simpl. destruct (Z.ltb_spec (dd - 1) (days_in_month y m)); [|lia].
      f_equal. f_equal. lia.
  - assert (dd = 1) by lia. subst dd.
    destruct (Z.ltb_spec 1 m) as [H2|H2].
    + eexists. split; [reflexivity|]. split.
      * apply valid_date_iff. simpl.
        pose proof (days_in_month_bounds y (m - 1)). lia.
      * simpl. rewrite Z.ltb_irrefl.
        destruct (Z.ltb_spec (m - 1) 12); [|lia]. f_equal. f_equal. lia.
    + assert (m = 1) by lia. subst m.
      destruct (Z.ltb_spec 1 y) as [H3|H3].
      * eexists. split; [reflexivity|]. split.
        -- apply valid_date_iff. simpl. change (days_in_month (y - 1) 12) with 31. lia.
        -- simpl. change (days_in_month (y - 1) 12) with 31. simpl.
           destruct (Z.ltb_spec (y - 1) 9999); [|lia]. f_equal. f_equal. lia.
      * exfalso. apply Hmin. assert (y = 1) by lia. subst. reflexivity.
Qed.

Lemma dict_keys_set_incl {V : Type} (m : dict date V) k v x :
  In x (dict_keys (dict_set date_eqb m k v)) -> In x (dict_keys m) \/ x = k.
Proof.
  induction m as [|[k0 v0] m IH]; simpl.
  - intros [<-|[]]. now right.
  - destruct (date_eqb k k0); simpl.
    + intros [<-|H]; left; auto.
    + intros [<-|H]; [left; now left|].
      destruct (IH H); [left; now right|now right].
Qed.

(** A day on which no transaction falls has no entry in [by_day]. *)
Lemma group_by_day_none txns d :
  (forall t, In t txns -> dt t <> d) ->
  dict_get date_eqb (group_by_day txns) d = None.
Proof.
  intros Hno. apply (dict_get_none date_eqb date_eqb_eq).
  unfold group_by_day.
  assert (forall acc : dict date (list Txn),
             ~ In d (dict_keys acc) ->
             ~ In d (dict_keys
                       (fold_left (fun by_day t =>
                          dict_set date_eqb by_day (dt t)
                            (dict_get_default date_eqb by_day (dt t) [] ++ [t]))
                          txns acc))) as Hgen.
  { induction txns as [|t txns IH]; intros acc Hacc; simpl; [assumption|].
    apply IH.
    - intros t' Ht'. apply Hno. now right.
    - intros Hin. apply dict_keys_set_incl in Hin. destruct Hin as [Hin|Heq]; [auto|].
      apply (Hno t); [now left|congruence]. }
  apply Hgen. simpl. tauto.
Qed.

Lemma apply_day_idle txns d bal :
  (forall t, In t txns -> dt t <> d) -> apply_day (group_by_day txns) d bal = bal.
Proof.
  intros H. unfold apply_day. now rewrite group_by_day_none.
Qed.

(** What the loop builds: one new key for every day from [d] to [d2], the
    first holding the balance after that day's transactions and each
    later one the balance of the day before after its own. *)
Lemma daily_loop_spec by_day d2 :
  valid_date d2 = true -> toordinal d2 < toordinal date_max ->
  forall fuel d bal daily,
    valid_date d = true ->
    toordinal d2 - toordinal d + 1 <= Z.of_nat fuel ->
    NoDup (dict_keys daily) ->
    (forall k, In k (dict_keys daily) -> toordinal k < toordinal d) ->
    exists daily',
      daily_loop fuel by_day d d2 bal daily = Ok daily'
      /\ NoDup (dict_keys daily')
      /\ (forall k, In k (dict_keys daily') <->
                    In k (dict_keys daily)
                    \/ (valid_date k = true /\ toordinal d <= toordinal k <= toordinal d2))
      /\ Z.of_nat (List.length daily')
         = Z.of_nat (List.length daily) + Z.max 0 (toordinal d2 - toordinal d + 1)
      /\ (forall k, In k (dict_keys daily) ->
                    dict_get date_eqb daily' k = dict_get date_eqb daily k)
      /\ (toordinal d <= toordinal d2 ->
          dict_get date_eqb daily' d = Some (apply_day by_day d bal))
      /\ (forall k k' v,
             valid_date k = true -> toordinal d <= toordinal k ->
             date_succ k = Ok k' -> toordinal k' <= toordinal d2 ->
             dict_get date_eqb daily' k = Some v ->
             dict_get date_eqb daily' k' = Some (apply_day by_day k' v)).
Proof.
  intros Hv2 Hmax fuel.
  induction fuel as [|fuel IH]; intros d bal daily Hvd Hfuel Hnd Hold.
  - assert (date_leb d d2 = false) as Hle.
    { rewrite date_leb_ord by assumption. apply Z.leb_gt. lia. }
    simpl. rewrite Hle. exists daily. split; [reflexivity|].
    split; [assumption|]. split; [|split; [lia|split; [auto|split; [lia|]]]].
    + intros k. split; [auto|]. intros [H|[_ H]]; [assumption|lia].
    + intros k k' v Hvk Hk Hs Hk'. apply date_succ_ord in Hs; auto. lia.
  - simpl. destruct (date_leb d d2) eqn:Hle.
    + rewrite date_leb_ord in Hle by assumption. apply Z.leb_le in Hle.
      assert (d <> date_max) as Hne by (intros ->; lia).
      destruct (date_succ_spec d Hvd Hne) as (d' & Hs & Hvd' & Hord).
      rewrite Hs. simpl.
      assert (~ In d (dict_keys daily)) as Hfresh.
      { intros Hin. apply Hold in Hin. lia. }
      set (bal' := apply_day by_day d bal).
      set (daily1 := dict_set date_eqb daily d bal').
      assert (dict_keys daily1 = dict_keys daily ++ [d]) as Hkeys1
          by (apply dict_keys_set_fresh; [exact date_eqb_eq|assumption]).
      destruct (IH d' bal' daily1 Hvd' ltac:(lia)) as
          (daily' & Hrun & Hnd' & Hin' & Hlen' & Hkeep' & Hfirst' & Hchain').
      { rewrite Hkeys1. apply NoDup_app; [assumption|repeat constructor; simpl; tauto|].
        intros x Hx [<-|[]]. contradiction. }
      { intros k. rewrite Hkeys1, in_app_iff. intros [Hk|[<-|[]]]; [|lia].
        apply Hold in Hk. lia. }
      exists daily'. split; [exact Hrun|]. split; [exact Hnd'|].
      assert (dict_get date_eqb daily' d = Some bal') as Hd.
      { rewrite Hkeep'.
        - apply dict_get_set_same. exact date_eqb_eq.
        - rewrite Hkeys1, in_app_iff. right. now left. }
      split; [|split; [|split; [|split]]].
      * intros k. rewrite Hin', Hkeys1, in_app_iff. simpl. split.
        -- intros [[H|[<-|[]]]|[Hvk Hk]]; [now left|right; split; [assumption|lia]|].
           right. split; [assumption|lia].
        -- intros [H|[Hvk Hk]]; [left; now left|].
           destruct (Z.eq_dec (toordinal k) (toordinal d)) as [Heq|Hneq].
           ++ left. right. left. symmetry. now apply toordinal_inj.
           ++ right. split; [assumption|lia].
      * rewrite Hlen'. unfold daily1.
        assert (List.length (dict_set date_eqb daily d bal')
                = S (List.length daily)) as ->.
        { change (List.length (dict_set date_eqb daily d bal'))
            with (List.length daily1).
          rewrite <- (length_map fst daily1).
          change (map fst daily1) with (dict_keys daily1).
          rewrite Hkeys1, length_app, <- (length_map fst daily). simpl.
          unfold dict_keys. lia. }
        lia.
      * intros k Hk. rewrite Hkeep'.
        -- apply dict_get_set_other; [exact date_eqb_eq|].
           intros <-. contradiction.
        -- rewrite Hkeys1, in_app_iff. now left.
      * intros _. exact Hd.
      * intros k k' v Hvk Hk Hsk Hk' Hget.
        destruct (Z.eq_dec (toordinal k) (toordinal d)) as [Heq|Hneq].
        -- apply toordinal_inj in Heq; auto. subst k.
           rewrite Hs in Hsk. injection Hsk as <-.
           rewrite Hd in Hget. injection Hget as <-.
           apply Hfirst'. exact Hk'.
        -- apply (Hchain' k k' v); auto. lia.
    + rewrite date_leb_ord in Hle by assumption. apply Z.leb_gt in Hle.
      exists daily. split; [reflexivity|].
      split; [assumption|]. split; [|split; [lia|split; [auto|split; [lia|]]]].
      * intros k. split; [auto|]. intros [H|[_ H]]; [assumption|lia].
      * intros k k' v Hvk Hk Hsk Hk'. apply date_succ_ord in Hsk; auto. lia.
Qed.

End LedgerFacts.

Import DateFacts LedgerFacts Statements.

Section LedgerMore.

Lemma dict_get_set_date {V : Type} (m : dict date V) k k' v :
  dict_get date_eqb (dict_set date_eqb m k v) k'
  = if date_eqb k k' then Some v else dict_get date_eqb m k'.
Proof.
  destruct (date_eqb k k') eqn:E.
  - apply date_eqb_eq in E. subst. apply dict_get_set_same. exact date_eqb_eq.
  - apply dict_get_set_other; [exact date_eqb_eq|].
    intros ->. now rewrite (proj2 (date_eqb_eq _ _) eq_refl) in E.
Qed.

(** Every transaction filed under a day is one of the list. *)
Lemma group_by_day_sound txns d ts :
  dict_get date_eqb (group_by_day txns) d = Some ts ->
  forall t, In t ts -> In t txns.
Proof.
  unfold group_by_day.
  assert (forall (acc : dict date (list Txn)) (seen : list Txn),
             (forall k l, dict_get date_eqb acc k = Some l -> forall t, In t l -> In t seen) ->
             forall k l,
               dict_get date_eqb
                 (fold_left (fun by_day t =>
                    dict_set date_eqb by_day (dt t)
                      (dict_get_default date_eqb by_day (dt t) [] ++ [t]))
                    txns acc) k = Some l ->
               forall t, In t l -> In t (seen ++ txns)) as Hgen.
  { induction txns as [|t0 txns IH]; intros acc seen Hacc k l Hget t Ht; simpl in *.
    - rewrite app_nil_r. eauto.
    - replace (seen ++ t0 :: txns) with ((seen ++ [t0]) ++ txns)
        by (rewrite <- app_assoc; reflexivity).
      eapply IH; [|exact Hget|exact Ht].
      intros k' l' Hget' t' Ht'. rewrite dict_get_set_date in Hget'.
      destruct (date_eqb (dt t0) k') eqn:E.
      + injection Hget' as <-. apply in_app_iff in Ht'. apply in_app_iff.
        destruct Ht' as [Ht'|Ht']; [|now right].
        left. unfold dict_get_default in Ht'.
        destruct (dict_get date_eqb acc (dt t0)) eqn:G; [eauto|contradiction].
      + apply in_app_iff. left. eauto. }
  intros Hget t Ht. apply (Hgen [] [] ) with (k := d) (l := ts); auto.
  simpl. discriminate.
Qed.

Lemma daily_loop_values (P : Q -> Prop) by_day d2 :
  (forall d b, P b -> P (apply_day by_day d b)) ->
  forall fuel d bal daily daily',
    P bal -> Forall P (dict_values daily) ->
    daily_loop fuel by_day d d2 bal daily = Ok daily' ->
    Forall P (dict_values daily').
Proof.
  intros Hstep fuel. induction fuel as [|fuel IH]; intros d bal daily daily' Hb Hd; simpl.
  - destruct (date_leb d d2); [discriminate|]. now intros [= <-].
  - destruct (date_leb d d2); [|now intros [= <-]].
    destruct (date_succ d) as [d'|e]; simpl; [|discriminate].
    apply IH; [now apply Hstep|].
    clear IH. induction daily as [|[k v] m IHm]; simpl.
    + constructor; [now apply Hstep|constructor].
    + inversion Hd; subst.
      destruct (date_eqb d k); simpl; constructor; auto; now apply Hstep.
Qed.

Lemma toordinal_pos d : valid_date d = true -> 1 <= toordinal d.
Proof.
  intros Hv. pose proof (toordinal_year_bounds d Hv).
  apply valid_date_iff in Hv.
  pose proof (days_before_year_mono 1 (year d) ltac:(lia)).
  change (days_before_year 1) with 0 in *. lia.
Qed.

Lemma fold_amounts_le (ts : list Txn) (b : Q) :
  (forall t, In t ts -> (amount t <= 0)%Q) ->
  (fold_left (fun b t => b + amount t) ts b <= b)%Q.
Proof.
  revert b. induction ts as [|t ts IH]; intros b H; simpl.
  - lra.
  - assert (amount t <= 0)%Q by (apply H; now left).
    specialize (IH (b + amount t)%Q ltac:(intros; apply H; now right)). lra.
Qed.

Lemma count_negative_all (daily : dict date Q) :
  Forall (fun v => (v < 0)%Q) (dict_values daily) ->
  count_negative_days daily = Z.of_nat (List.length daily).
Proof.
  unfold count_negative_days, dict_values. intros H. f_equal.
  induction daily as [|[k v] m IH]; simpl in *; [reflexivity|].
  inversion H; subst.
  assert (Qltb v 0 = true) as ->.
  { unfold Qltb. destruct (Qle_bool 0 v) eqn:E; [|reflexivity].
    apply Qle_bool_iff in E. lra. }
  simpl. f_equal. auto.
Qed.

End LedgerMore.

(** C2.  When the transaction list is not empty and the period
    [[d1, d2]] ends before the last day of the calendar,
    [rebuild_daily_balances] returns a mapping whose keys are exactly the
    calendar days of the closed interval [[d1, d2]], each of them once;
    a day that no transaction falls on records the balance of the day
    before it, and the first day, when idle, records the opening balance,
    or zero when there is none.  For the empty transaction list the
    mapping is empty, whatever the period. *)
Theorem rebuild_daily_balances_covers_period :
  (forall txns opening label d1 d2,
      txns <> [] ->
      valid_date d1 = true -> valid_date d2 = true ->
      date_leb d1 d2 = true -> d2 <> date_max ->
      exists daily,
        rebuild_daily_balances txns opening (Some (label, d1, d2)) = Ok daily
        /\ NoDup (dict_keys daily)
        /\ (forall d, In d (dict_keys daily) <-> in_period d1 d2 d)
        /\ (forall d, in_period d1 d2 d -> (forall t, In t txns -> dt t <> d) ->
              (d = d1 -> dict_get date_eqb daily d = Some (opening_or_zero opening))
              /\ (d <> d1 ->
                  exists p v, date_pred d = Ok p
                              /\ dict_get date_eqb daily p = Some v
                              /\ dict_get date_eqb daily d = Some v)))
  /\ (forall opening p, rebuild_daily_balances [] opening p = Ok []).
Proof.
  split; [|reflexivity].
  {
  intros txns opening label d1 d2 Hne Hv1 Hv2 Hle Hmax.
  destruct txns as [|t0 txns0]; [contradiction|].
  set (txns := t0 :: txns0) in *.
  unfold rebuild_daily_balances. fold txns.
  rewrite date_leb_ord in Hle by assumption. apply Z.leb_le in Hle.
  pose proof (before_max d2 Hv2 Hmax) as Hlt.
  destruct (daily_loop_spec (group_by_day txns) d2 Hv2 Hlt
              (Z.to_nat (days_between d2 d1 + 1)) d1 (opening_or_zero opening) []
              Hv1) as (daily & Hrun & Hnd & Hin & Hlen & _ & Hfirst & Hchain).
  { unfold days_between. lia. }
  { constructor. }
  { simpl. tauto. }
  exists daily. split; [exact Hrun|]. split; [exact Hnd|].
  assert (forall d, In d (dict_keys daily) <-> in_period d1 d2 d) as Hkeys.
  { intros d. rewrite Hin. simpl. unfold in_period. split.
    - intros [[]|[Hvd Hd]]. rewrite !date_leb_ord by assumption.
      rewrite !Z.leb_le. auto.
    - intros (Hvd & H1 & H2). rewrite !date_leb_ord in * by assumption.
      apply Z.leb_le in H1, H2. right. auto. }
  split; [exact Hkeys|].
  intros d Hd Hidle. pose proof Hd as (Hvd & Hd1 & Hd2).
  rewrite date_leb_ord in Hd1, Hd2 by assumption. apply Z.leb_le in Hd1, Hd2.
  split.
  - intros ->. rewrite Hfirst by lia. now rewrite apply_day_idle.
  - intros Hneq.
    assert (d <> date_min) as Hmin.
    { intros ->. apply Hneq. apply toordinal_inj; auto.
      pose proof (toordinal_pos d1 Hv1). change (toordinal date_min) with 1 in *. lia. }
    destruct (date_pred_spec d Hvd Hmin) as (p & Hp & Hvp & Hs).
    destruct (date_succ_ord p d Hvp Hs) as (_ & Hord).
    assert (toordinal d <> toordinal d1) as Hneq'.
    { intros Heq. apply Hneq. now apply toordinal_inj. }
    assert (In p (dict_keys daily)) as Hpin.
    { apply Hin. right. split; [assumption|lia]. }
    destruct (dict_get date_eqb daily p) as [v|] eqn:Hgp.
    + exists p, v. split; [exact Hp|]. split; [exact Hgp|].
      rewrite (Hchain p d v Hvp ltac:(lia) Hs Hd2 Hgp).
      now rewrite apply_day_idle.
    + apply (dict_get_none date_eqb date_eqb_eq) in Hgp. contradiction.
  }
Qed.

(** C2 on the first five days of January 2024, with one payment on the
    second. *)
Lemma rebuild_daily_balances_covers_period_witness :
  exists daily,
    rebuild_daily_balances [mkTxn (mkdate 2024 1 2) "rent" (-10) None] (Some (-50)%Q)
                           (Some ("2024-01"%string, mkdate 2024 1 1, mkdate 2024 1 5))
    = Ok daily
    /\ NoDup (dict_keys daily)
    /\ (forall d, In d (dict_keys daily)
                  <-> in_period (mkdate 2024 1 1) (mkdate 2024 1 5) d)
    /\ (forall d, in_period (mkdate 2024 1 1) (mkdate 2024 1 5) d ->
          (forall t, In t [mkTxn (mkdate 2024 1 2) "rent" (-10) None] -> dt t <> d) ->
          (d = mkdate 2024 1 1 ->
           dict_get date_eqb daily d = Some (opening_or_zero (Some (-50)%Q)))
          /\ (d <> mkdate 2024 1 1 ->
              exists p v, date_pred d = Ok p
                          /\ dict_get date_eqb daily p = Some v
                          /\ dict_get date_eqb daily d = Some v)).
Proof.
  apply (proj1 rebuild_daily_balances_covers_period
           [mkTxn (mkdate 2024 1 2) "rent" (-10) None] (Some (-50)%Q) "2024-01"%string
           (mkdate 2024 1 1) (mkdate 2024 1 5)).
  - discriminate.
  - reflexivity.
  - reflexivity.
  - reflexivity.
  - discriminate.
Defined.

(** C2 without its first premise: for an empty transaction list
    [rebuild_daily_balances] returns the empty mapping, whose keys are not
    the days of the period. *)
Lemma rebuild_daily_balances_empty_counterexample :
  ~ (exists daily,
        rebuild_daily_balances [] (Some (-50)%Q)
                               (Some ("2024-01"%string, mkdate 2024 1 1, mkdate 2024 1 5))
        = Ok daily
        /\ forall d, In d (dict_keys daily)
                     <-> in_period (mkdate 2024 1 1) (mkdate 2024 1 5) d).
Proof.
  intros (daily & Hrun & Hkeys). simpl in Hrun. injection Hrun as <-.
  apply (proj2 (Hkeys (mkdate 2024 1 3))).
  repeat split; reflexivity.
Qed.

(** C3.  With an opening balance of -50, a transaction list that is not
    empty and holds no positive amount, and a period of five days that
    ends before the last day of the calendar, [rebuild_daily_balances]
    returns a mapping on which [count_negative_days] is 5.  For the
    empty transaction list the mapping is empty and the count is 0. *)
Theorem count_negative_days_five :
  (forall txns label d1 d2,
      txns <> [] ->
      (forall t, In t txns -> (amount t <= 0)%Q) ->
      valid_date d1 = true -> valid_date d2 = true ->
      days_between d2 d1 = 4 -> d2 <> date_max ->
      exists daily,
        rebuild_daily_balances txns (Some (-50)%Q) (Some (label, d1, d2)) = Ok daily
        /\ count_negative_days daily = 5)
  /\ (forall opening p,
         exists daily,
           rebuild_daily_balances [] opening p = Ok daily
           /\ count_negative_days daily = 0).
Proof.
  split; [|intros opening p; exists []; split; reflexivity].
  {
  intros txns label d1 d2 Hne Hamt Hv1 Hv2 Hdays Hmax.
  destruct txns as [|t0 txns0]; [contradiction|].
  set (txns := t0 :: txns0) in *.
  unfold rebuild_daily_balances. fold txns.
  pose proof (before_max d2 Hv2 Hmax) as Hlt.
  unfold days_between in Hdays.
  destruct (daily_loop_spec (group_by_day txns) d2 Hv2 Hlt
              (Z.to_nat (days_between d2 d1 + 1)) d1 (-50)%Q [] Hv1)
    as (daily & Hrun & _ & _ & Hlen & _).
  { unfold days_between. lia. }
  { constructor. }
  { simpl. tauto. }
  exists daily. split; [exact Hrun|].
  rewrite count_negative_all.
  - rewrite Hlen. simpl. lia.
  - apply Forall_impl with (P := fun v => (v <= -50)%Q); [intros; lra|].
    assert (forall d b, (b <= -50)%Q ->
                        (apply_day (group_by_day txns) d b <= -50)%Q) as Hstep.
    { intros d b Hb. unfold apply_day.
      destruct (dict_get date_eqb (group_by_day txns) d) as [ts|] eqn:G; [|assumption].
      pose proof (fold_amounts_le ts b) as Hf.
      assert (forall t, In t ts -> (amount t <= 0)%Q) as Hts.
      { intros t Ht. apply Hamt. eapply group_by_day_sound; eauto. }
      specialize (Hf Hts). lra. }
    apply (daily_loop_values (fun v => (v <= -50)%Q) (group_by_day txns) d2 Hstep
             (Z.to_nat (days_between d2 d1 + 1)) d1 (-50)%Q [] daily);
      [lra|constructor|exact Hrun].
  }
Qed.

(** C3 on the first five days of January 2024, with one fee of zero. *)
Lemma count_negative_days_five_witness :
  exists daily,
    rebuild_daily_balances [mkTxn (mkdate 2024 1 2) "fee" 0 None] (Some (-50)%Q)
                           (Some ("2024-01"%string, mkdate 2024 1 1, mkdate 2024 1 5))
    = Ok daily
    /\ count_negative_days daily = 5.
Proof.
  apply (proj1 count_negative_days_five [mkTxn (mkdate 2024 1 2) "fee" 0 None] "2024-01"%string
           (mkdate 2024 1 1) (mkdate 2024 1 5)).
  - discriminate.
  - intros t [<-|[]]. simpl. lra.
  - reflexivity.
  - reflexivity.
  - reflexivity.
  - discriminate.
Defined.

(** C3 with the empty transaction list: the mapping is empty and the
    count is 0, not 5. *)
Lemma count_negative_days_empty_counterexample :
  exists daily,
    rebuild_daily_balances [] (Some (-50)%Q)
                           (Some ("2024-01"%string, mkdate 2024 1 1, mkdate 2024 1 5))
    = Ok daily
    /\ count_negative_days daily = 0
    /\ count_negative_days daily <> 5.
Proof.
  exists []. repeat split. discriminate.
Qed.

(** ** Sorting *)

Section SortFacts.
Context {A : Type} (leb : A -> A -> bool).

Lemma insert_sorted_perm x l : Permutation (insert_sorted leb x l) (x :: l).
Proof.
  induction l as [|y l IH]; simpl; [reflexivity|].
  destruct (leb y x); [|reflexivity].
  rewrite IH. apply perm_swap.
Qed.

Lemma sort_perm l : Permutation (sort leb l) l.
Proof.
  unfold sort.
  assert (forall acc, Permutation (fold_left (fun acc x => insert_sorted leb x acc) l acc)
                                  (acc ++ l)) as H.
  { induction l as [|x l IH]; intros acc; simpl.
    - now rewrite app_nil_r.
    - rewrite IH, insert_sorted_perm. apply Permutation_middle. }
  apply (H []).
Qed.

Hypothesis leb_total : forall a b, leb a b = true \/ leb b a = true.
Hypothesis leb_trans : forall a b c, leb a b = true -> leb b c = true -> leb a c = true.

Lemma insert_sorted_ordered x l : ordered leb l -> ordered leb (insert_sorted leb x l).
Proof.
  unfold ordered. induction l as [|y l IH]; simpl; intros Hs.
  - repeat constructor.
  - inversion Hs as [|? ? Hl Hy]; subst.
    destruct (leb y x) eqn:E.
    + constructor; [auto|].
      apply Forall_forall. intros z Hz.
      apply (Permutation_in _ (insert_sorted_perm x l)) in Hz.
      destruct Hz as [<-|Hz]; [assumption|].
      rewrite Forall_forall in Hy. auto.
    + assert (leb x y = true) as Hxy by (destruct (leb_total x y); congruence).
      constructor; [assumption|].
      constructor; [assumption|].
      apply Forall_forall. intros z Hz. rewrite Forall_forall in Hy. eauto.
Qed.

Lemma sort_ordered l : ordered leb (sort leb l).
Proof.
  unfold sort.
  assert (forall acc, ordered leb acc ->
                      ordered leb (fold_left (fun acc x => insert_sorted leb x acc) l acc)) as H.
  { induction l as [|x l IH]; intros acc Hacc; simpl; [assumption|].
    apply IH. now apply insert_sorted_ordered. }
  apply H. constructor.
Qed.

(** In an ordered list every element of a prefix comes before every
    element of what follows it. *)
Lemma ordered_firstn_skipn n l a b :
  ordered leb l -> In a (firstn n l) -> In b (skipn n l) -> leb a b = true.
Proof.
  unfold ordered. revert l. induction n as [|n IH]; intros l Hs Ha Hb; simpl in *.
  - contradiction.
  - destruct l as [|x l]; simpl in *; [contradiction|].
    inversion Hs as [|? ? Hl Hx]; subst.
    destruct Ha as [<-|Ha]; [|eauto].
    rewrite Forall_forall in Hx. apply Hx.
    revert Hb. clear. revert l. induction n as [|n IH]; intros l; simpl; [auto|].
    destruct l as [|y l]; simpl; [auto|]. intros H. right. auto.
Qed.

End SortFacts.

(** ** Rounding *)

Module NumFacts.

Lemma round_half_even_near q :
  (Qabs (inject_Z (round_half_even q) - q) <= 1 # 2)%Q.
Proof.
  unfold round_half_even.
  pose proof (Qfloor_le q) as Hlo. pose proof (Qlt_floor q) as Hhi.
  set (fl := Qfloor q) in *.
  assert (inject_Z (fl + 1) == inject_Z fl + 1)%Q as Hfl1
      by (rewrite inject_Z_plus; reflexivity).
  rewrite Hfl1 in Hhi.
  apply Qabs_Qle_condition.
  destruct (Qcompare (q - inject_Z fl) (1 # 2)) eqn:E.
  - apply Qeq_alt in E.
    destruct (Z.even fl); [|rewrite Hfl1]; split; lra.
  - apply Qlt_alt in E. split; lra.
  - apply Qgt_alt in E. rewrite Hfl1. split; lra.
Qed.

Lemma round2_near q : (Qabs (round2 q - q) <= 1 # 200)%Q.
Proof.
  unfold round2, round_nd. rewrite Qred_correct.
  change (Z.pow 10 (Z.of_nat 2)) with 100%Z.
  change (Z.to_pos 100) with 100%positive.
  pose proof (round_half_even_near (q * inject_Z 100)) as H.
  set (n := round_half_even (q * inject_Z 100)) in *.
  assert (n # 100 == inject_Z n / 100)%Q as ->.
  { unfold Qeq, Qdiv, Qmult, Qinv, inject_Z. simpl. lia. }
  apply Qabs_Qle_condition in H. apply Qabs_Qle_condition.
  change (inject_Z 100) with 100%Q in H.
  destruct H as [H1 H2]. split.
  - assert (inject_Z n / 100 - q == (inject_Z n - q * 100) / 100)%Q as -> by field.
    apply Qle_shift_div_l; [reflexivity|]. lra.
  - assert (inject_Z n / 100 - q == (inject_Z n - q * 100) / 100)%Q as -> by field.
    apply Qle_shift_div_r; [reflexivity|]. lra.
Qed.

End NumFacts.

(** ** Revenue selection *)

Import Statements.

Section RevenueFacts.

Lemma best3_state_spec state : best3_state state = true <-> in_best3 state.
Proof.
  unfold best3_state, in_best3, BEST3_STATES, Str.mem_string. split.
  - destruct state as [st|]; [|discriminate].
    rewrite andb_true_iff. simpl. rewrite !orb_true_iff, !String.eqb_eq.
    intros [_ [H|[H|H]]]; [eauto|eauto|discriminate].
  - intros (st & -> & H). apply andb_true_iff. split.
    + destruct st; [destruct H; discriminate|reflexivity].
    + simpl. rewrite !orb_true_iff, !String.eqb_eq. tauto.
Qed.

Lemma Qgeb_total a b : Qgeb a b = true \/ Qgeb b a = true.
Proof.
  unfold Qgeb. rewrite !Qle_bool_iff. destruct (Qlt_le_dec a b); [right|left]; lra.
Qed.

Lemma Qgeb_trans a b c : Qgeb a b = true -> Qgeb b c = true -> Qgeb a c = true.
Proof. unfold Qgeb. rewrite !Qle_bool_iff. intros; lra. Qed.

Lemma firstn_short {A : Type} (l : list A) :
  (if (3 <=? List.length l)%nat then firstn 3 l else l) = firstn 3 l.
Proof.
  destruct (Nat.leb_spec 3 (List.length l)); [reflexivity|].
  symmetry. apply firstn_all2. lia.
Qed.

End RevenueFacts.

(** C4.  For monthly totals that are floats and not empty,
    [pick_avg_revenue] returns the average of a selection [top] of the
    totals as Python computes it on floats, [round(sum(top) / len(top),
    2)], for either form of the built-in [sum]: when the state is NY or
    CA in any case, [top] is the three largest totals in falling order,
    or all of them when there are fewer than three; otherwise, and when
    there is no state, [top] is all the totals in the order of the
    table.  On the totals 100, 200, 300 and 50 the result is 200 for NY
    and 162.5 with no state. *)
Theorem pick_avg_revenue_rule :
  (forall compensated monthly_deposits state,
      monthly_deposits <> [] ->
      Forall binary64 (dict_values monthly_deposits) ->
      exists top rest r,
        pick_avg_revenue compensated monthly_deposits state = Some r
        /\ Permutation (top ++ rest) (dict_values monthly_deposits)
        /\ r = float_mean2 compensated top
        /\ (in_best3 state ->
            List.length top = Nat.min 3 (List.length monthly_deposits)
            /\ ordered Qgeb (top ++ rest))
        /\ (~ in_best3 state -> top = dict_values monthly_deposits))
  /\ (forall compensated,
         pick_avg_revenue compensated four_months (Some "NY"%string) = Some 200%Q)
  /\ (forall compensated,
         pick_avg_revenue compensated four_months None = Some (325 # 2)%Q).
Proof.
  split; [|split; intros []; vm_compute; reflexivity].
  intros compensated md state Hne _.
  destruct md as [|kv md0]; [contradiction|].
  set (md := kv :: md0) in *.
  unfold pick_avg_revenue. fold md.
  destruct (best3_state state) eqn:Hb.
  - rewrite firstn_short.
    set (sorted := sort Qgeb (dict_values md)).
    assert (Permutation sorted (dict_values md)) as Hperm by apply sort_perm.
    assert (List.length sorted = List.length md) as Hlen.
    { rewrite (Permutation_length Hperm). unfold dict_values. apply length_map. }
    exists (firstn 3 sorted), (skipn 3 sorted).
    destruct (firstn 3 sorted) as [|v top] eqn:Htop.
    { exfalso. apply (f_equal (@List.length Q)) in Htop.
      rewrite length_firstn, Hlen in Htop. simpl in Htop. lia. }
    rewrite <- Htop. eexists. split; [reflexivity|].
    split; [now rewrite firstn_skipn|]. split; [reflexivity|]. split.
    + intros _. split; [now rewrite length_firstn, Hlen|].
      rewrite firstn_skipn.
      apply sort_ordered; [exact Qgeb_total|exact Qgeb_trans].
    + intros Hn. exfalso. apply Hn. now apply best3_state_spec.
  - exists (dict_values md), []. eexists. split; [reflexivity|].
    split; [now rewrite app_nil_r|]. split; [reflexivity|]. split.
    + intros Hin. apply best3_state_spec in Hin. congruence.
    + reflexivity.
Qed.

(** C4 on the totals 1000.0 and 1000.03 for Texas: their float average
    is just below 1000.015 and is rounded to 1000.01. *)
Lemma pick_avg_revenue_rule_witness :
  exists top rest r,
    (pick_avg_revenue false two_months (Some "TX"%string) = Some r
     /\ Permutation (top ++ rest) (dict_values two_months)
     /\ r = float_mean2 false top
     /\ (in_best3 (Some "TX"%string) ->
         List.length top = Nat.min 3 (List.length two_months)
         /\ ordered Qgeb (top ++ rest))
     /\ (~ in_best3 (Some "TX"%string) -> top = dict_values two_months))
    /\ r = F64.b64 (100001 # 100).
Proof.
  destruct (proj1 pick_avg_revenue_rule false two_months (Some "TX"%string))
    as (top & rest & r & H).
  - discriminate.
  - repeat constructor; vm_compute; try reflexivity; discriminate.
  - exists top, rest, r. split; [exact H|].
    destruct H as (H & _). vm_compute in H. injection H as <-. vm_compute. reflexivity.
Defined.

Import Statements.

Module MonthlyFacts.

Lemma get_default_set {V : Type} (m : dict string V) k k' v d :
  dict_get_default String.eqb (dict_set String.eqb m k v) k' d
  = if String.eqb k k' then v else dict_get_default String.eqb m k' d.
Proof.
  unfold dict_get_default. destruct (String.eqb k k') eqn:E.
  - apply String.eqb_eq in E. subst.
    now rewrite (dict_get_set_same String.eqb String.eqb_eq).
  - rewrite (dict_get_set_other String.eqb String.eqb_eq); [reflexivity|].
    intros ->. now rewrite String.eqb_refl in E.
Qed.

Lemma Qltb_lt a b : Qltb a b = true <-> (a < b)%Q.
Proof.
  unfold Qltb. rewrite negb_true_iff. split.
  - intros H. apply Qnot_le_lt. intros Hle. apply Qle_bool_iff in Hle. congruence.
  - intros H. destruct (Qle_bool b a) eqn:E; [|reflexivity].
    apply Qle_bool_iff in E. lra.
Qed.

Lemma debit_not_credit t : is_debit t = true -> is_credit t = false.
Proof.
  unfold is_debit, is_credit. intros H. apply Qltb_lt in H.
  destruct (Qltb 0 (amount t)) eqn:E; [|reflexivity]. apply Qltb_lt in E. lra.
Qed.

Lemma zero_neither t : (amount t == 0)%Q -> is_debit t = false /\ is_credit t = false.
Proof.
  unfold is_debit, is_credit. intros H. split.
  - destruct (Qltb (amount t) 0) eqn:E; [|reflexivity]. apply Qltb_lt in E. lra.
  - destruct (Qltb 0 (amount t)) eqn:E; [|reflexivity]. apply Qltb_lt in E. lra.
Qed.

Lemma count_txn_zero acc t : (amount t == 0)%Q -> count_txn acc t = acc.
Proof.
  intros H. destruct (zero_neither t H) as [Hd Hc].
  unfold count_txn, is_debit, is_credit in *.
  destruct acc as [[debits credits] deposits]. now rewrite Hd, Hc.
Qed.

Lemma count_txn_debits acc t k :
  dict_get_default String.eqb (debits_of (count_txn acc t)) k 0
  = dict_get_default String.eqb (debits_of acc) k 0 + indicator (in_month k t && is_debit t).
Proof.
  destruct acc as [[debits credits] deposits].
  unfold count_txn, in_month, is_debit, debits_of, incr.
  destruct (Qltb (amount t) 0); simpl.
  - rewrite get_default_set.
    destruct (String.eqb (month_key (dt t)) k) eqn:E; simpl; [|lia].
    apply String.eqb_eq in E. subst. reflexivity.
  - rewrite andb_false_r. destruct (Qltb 0 (amount t)); simpl; lia.
Qed.

Lemma count_txn_credits acc t k :
  dict_get_default String.eqb (credits_of (count_txn acc t)) k 0
  = dict_get_default String.eqb (credits_of acc) k 0 + indicator (in_month k t && is_credit t).
Proof.
  destruct acc as [[debits credits] deposits].
  unfold count_txn, in_month, credits_of, incr.
  destruct (Qltb (amount t) 0) eqn:Hd; simpl.
  - rewrite (debit_not_credit t Hd), andb_false_r. simpl. lia.
  - unfold is_credit. destruct (Qltb 0 (amount t)); simpl.
    + rewrite get_default_set.
      destruct (String.eqb (month_key (dt t)) k) eqn:E; simpl; [|lia].
      apply String.eqb_eq in E. subst. reflexivity.
    + rewrite andb_false_r. simpl. lia.
Qed.

Lemma count_where_cons p t l :
  count_where p (t :: l) = indicator (p t) + count_where p l.
Proof.
  unfold count_where, indicator. cbn [filter].
  destruct (p t); cbn [List.length]; lia.
Qed.

(** The counters of a month hold the numbers of its negative and of its
    positive amounts. *)
Lemma fold_counts txns : forall acc k,
  dict_get_default String.eqb (debits_of (fold_left count_txn txns acc)) k 0
  = dict_get_default String.eqb (debits_of acc) k 0
    + count_where (fun t => in_month k t && is_debit t) txns
  /\ dict_get_default String.eqb (credits_of (fold_left count_txn txns acc)) k 0
     = dict_get_default String.eqb (credits_of acc) k 0
       + count_where (fun t => in_month k t && is_credit t) txns.
Proof.
  induction txns as [|t txns IH]; intros acc k; simpl.
  - unfold count_where. simpl. lia.
  - destruct (IH (count_txn acc t) k) as [Hd Hc].
    rewrite Hd, Hc, count_txn_debits, count_txn_credits, !count_where_cons. lia.
Qed.

Lemma counts_partition k txns :
  count_where (fun t => in_month k t && is_debit t) txns
  + count_where (fun t => in_month k t && is_credit t) txns
  + count_where (fun t => in_month k t && negb (is_debit t) && negb (is_credit t)) txns
  = count_where (in_month k) txns.
Proof.
  induction txns as [|t txns IH]; [reflexivity|].
  rewrite !count_where_cons, <- IH. cbv beta.
  destruct (is_debit t) eqn:Hd.
  - rewrite (debit_not_credit t Hd).
    destruct (in_month k t); cbn [andb negb indicator]; lia.
  - destruct (is_credit t), (in_month k t); cbn [andb negb indicator]; lia.
Qed.

Lemma count_where_nonneg p txns : 0 <= count_where p txns.
Proof. unfold count_where. lia. Qed.

Lemma count_where_app p l1 l2 :
  count_where p (l1 ++ l2) = count_where p l1 + count_where p l2.
Proof. unfold count_where. rewrite filter_app, length_app. lia. Qed.

End MonthlyFacts.

(** C10.  A transaction whose amount is zero leaves every result of
    [compute_monthly_counts_and_deposits] as it is without it: the debit
    counts, the credit counts and the deposit totals; so in its month the
    debit count and the credit count add up to less than the number of
    transactions. *)
Theorem zero_amount_not_counted :
  forall l1 t l2,
    (amount t == 0)%Q ->
    compute_monthly_counts_and_deposits (l1 ++ t :: l2)
    = compute_monthly_counts_and_deposits (l1 ++ l2)
    /\ (let '(debit_counts, credit_counts, _) :=
          compute_monthly_counts_and_deposits (l1 ++ t :: l2) in
        let k := month_key (dt t) in
        dict_get_default String.eqb debit_counts k 0
        + dict_get_default String.eqb credit_counts k 0
        < count_where (in_month k) (l1 ++ t :: l2)).
Proof.
  intros l1 t l2 Hz. split.
  - unfold compute_monthly_counts_and_deposits.
    rewrite !fold_left_app. simpl. now rewrite MonthlyFacts.count_txn_zero.
  - pose proof (MonthlyFacts.fold_counts (l1 ++ t :: l2) ([], [], []) (month_key (dt t)))
      as [Hd Hc].
    unfold compute_monthly_counts_and_deposits.
    destruct (fold_left count_txn (l1 ++ t :: l2) ([], [], [])) as [[debits credits] deposits].
    unfold debits_of, credits_of in Hd, Hc. simpl in Hd, Hc.
    cbv zeta. rewrite Hd, Hc.
    change (dict_get_default String.eqb [] (month_key (dt t)) 0) with 0.
    pose proof (MonthlyFacts.counts_partition (month_key (dt t)) (l1 ++ t :: l2)) as Hp.
    assert (1 <= count_where
                   (fun t0 => in_month (month_key (dt t)) t0
                              && negb (is_debit t0) && negb (is_credit t0))
                   (l1 ++ t :: l2)) as Hone.
    { rewrite MonthlyFacts.count_where_app, MonthlyFacts.count_where_cons. cbv beta.
      destruct (MonthlyFacts.zero_neither t Hz) as [-> ->].
      assert (in_month (month_key (dt t)) t = true) as ->
          by (unfold in_month; apply String.eqb_refl).
      cbn [andb negb indicator].
      pose proof (MonthlyFacts.count_where_nonneg
                    (fun t0 => in_month (month_key (dt t)) t0
                               && negb (is_debit t0) && negb (is_credit t0)) l1).
      pose proof (MonthlyFacts.count_where_nonneg
                    (fun t0 => in_month (month_key (dt t)) t0
                               && negb (is_debit t0) && negb (is_credit t0)) l2).
      lia. }
    lia.
Qed.

(** C10 on a debit, a memo of zero and a credit in January 2024. *)
Lemma zero_amount_not_counted_witness :
  compute_monthly_counts_and_deposits
    ([mkTxn (mkdate 2024 1 2) "card" (-3) None] ++ mkTxn (mkdate 2024 1 3) "memo" 0 None
       :: [mkTxn (mkdate 2024 1 4) "sale" 7 None])
  = compute_monthly_counts_and_deposits
      ([mkTxn (mkdate 2024 1 2) "card" (-3) None] ++ [mkTxn (mkdate 2024 1 4) "sale" 7 None])
  /\ (let '(debit_counts, credit_counts, _) :=
        compute_monthly_counts_and_deposits
          ([mkTxn (mkdate 2024 1 2) "card" (-3) None] ++ mkTxn (mkdate 2024 1 3) "memo" 0 None
             :: [mkTxn (mkdate 2024 1 4) "sale" 7 None]) in
      let k := month_key (dt (mkTxn (mkdate 2024 1 3) "memo" 0 None)) in
      dict_get_default String.eqb debit_counts k 0
      + dict_get_default String.eqb credit_counts k 0
      < count_where (in_month k)
          ([mkTxn (mkdate 2024 1 2) "card" (-3) None] ++ mkTxn (mkdate 2024 1 3) "memo" 0 None
             :: [mkTxn (mkdate 2024 1 4) "sale" 7 None])).
Proof.
  apply (zero_amount_not_counted
           [mkTxn (mkdate 2024 1 2) "card" (-3) None]
           (mkTxn (mkdate 2024 1 3) "memo" 0 None)
           [mkTxn (mkdate 2024 1 4) "sale" 7 None]).
  reflexivity.
Defined.

(** ** The order of strings *)

Module StringOrder.

Lemma ascii_compare_refl a : Ascii.compare a a = Eq.
Proof. unfold Ascii.compare. apply N.compare_refl. Qed.

Lemma ascii_compare_lt_trans a b c :
  Ascii.compare a b = Lt -> Ascii.compare b c = Lt -> Ascii.compare a c = Lt.
Proof.
  unfold Ascii.compare. rewrite !N.compare_lt_iff. lia.
Qed.

Lemma compare_lt_trans s1 : forall s2 s3,
  String.compare s1 s2 = Lt -> String.compare s2 s3 = Lt -> String.compare s1 s3 = Lt.
Proof.
  induction s1 as [|a s1 IH]; intros [|b s2] [|c s3]; simpl; try discriminate; auto.
  destruct (Ascii.compare a b) eqn:Eab; try discriminate;
    destruct (Ascii.compare b c) eqn:Ebc; try discriminate; intros H1 H2.
  - apply Ascii.compare_eq_iff in Eab, Ebc. subst.
    rewrite ascii_compare_refl. eauto.
  - apply Ascii.compare_eq_iff in Eab. subst. now rewrite Ebc.
  - apply Ascii.compare_eq_iff in Ebc. subst. now rewrite Eab.
  - now rewrite (ascii_compare_lt_trans a b c).
Qed.

Lemma leb_trans a b c :
  String.leb a b = true -> String.leb b c = true -> String.leb a c = true.
Proof.
  unfold String.leb.
  destruct (String.compare a b) eqn:Eab; try discriminate;
    destruct (String.compare b c) eqn:Ebc; try discriminate; intros _ _.
  - apply String.compare_eq_iff in Eab. subst. now rewrite Ebc.
  - apply String.compare_eq_iff in Eab. subst. now rewrite Ebc.
  - apply String.compare_eq_iff in Ebc. subst. now rewrite Eab.
  - now rewrite (compare_lt_trans a b c).
Qed.

Lemma leb_neq_ltb a b : String.leb a b = true -> a <> b -> String.ltb a b = true.
Proof.
  unfold String.leb, String.ltb. intros H Hne.
  destruct (String.compare a b) eqn:E; try discriminate; [|reflexivity].
  apply String.compare_eq_iff in E. contradiction.
Qed.

End StringOrder.

(** ** Recurring positions *)

Import Statements.

Module PositionFacts.

Lemma mem_string_In x l : Str.mem_string x l = true <-> In x l.
Proof.
  unfold Str.mem_string. rewrite existsb_exists. split.
  - intros (y & Hy & E). apply String.eqb_eq in E. now subst.
  - intros H. exists x. split; [assumption|apply String.eqb_refl].
Qed.

Lemma dedup_In x l : In x (dedup l) <-> In x l.
Proof.
  induction l as [|y l IH]; simpl; [tauto|].
  destruct (Str.mem_string y l) eqn:E.
  - rewrite IH. apply mem_string_In in E. split; [auto|]. intros [<-|H]; auto.
  - simpl. rewrite IH. tauto.
Qed.

Lemma dedup_NoDup l : NoDup (dedup l).
Proof.
  induction l as [|y l IH]; simpl; [constructor|].
  destruct (Str.mem_string y l) eqn:E; [assumption|].
  constructor; [|assumption].
  rewrite dedup_In. intros H. apply mem_string_In in H. congruence.
Qed.

Lemma sorted_nodup_strict l :
  ordered String.leb l -> NoDup l -> strictly_sorted l.
Proof.
  unfold ordered, strictly_sorted. induction l as [|x l IH]; intros Hs Hn.
  - constructor.
  - inversion Hs as [|? ? Hl Hx]; inversion Hn as [|? ? Hnx Hnl]; subst.
    constructor; [auto|].
    rewrite Forall_forall in *. intros y Hy.
    apply StringOrder.leb_neq_ltb; [auto|]. intros ->. contradiction.
Qed.

Lemma strictly_sorted_firstn n l : strictly_sorted l -> strictly_sorted (firstn n l).
Proof.
  unfold strictly_sorted. revert l. induction n as [|n IH]; intros l Hs; simpl.
  - constructor.
  - destruct l as [|x l]; [constructor|].
    inversion Hs as [|? ? Hl Hx]; subst. constructor; [auto|].
    rewrite Forall_forall in *. intros y Hy. apply Hx.
    revert Hy. clear. revert l. induction n; intros [|z l]; simpl; try tauto.
    intros [->|H]; auto.
Qed.

Lemma In_firstn {A : Type} n (l : list A) x : In x (firstn n l) -> In x l.
Proof.
  revert l. induction n; intros [|z l]; simpl; try tauto. intros [->|H]; auto.
Qed.

Lemma topk_least_five l : least_five (topk l) (fun n => In n l).
Proof.
  unfold topk. set (s := sort Str.leb (dedup l)).
  assert (Permutation s (dedup l)) as Hperm by apply sort_perm.
  assert (ordered String.leb s) as Hord
      by (apply sort_ordered; [exact String.leb_total|exact StringOrder.leb_trans]).
  assert (NoDup s) as Hnd
      by (apply (Permutation_NoDup (Permutation_sym Hperm)), dedup_NoDup).
  repeat split.
  - apply strictly_sorted_firstn. now apply sorted_nodup_strict.
  - rewrite length_firstn. lia.
  - intros n Hn. apply In_firstn in Hn.
    apply dedup_In. now apply (Permutation_in _ Hperm).
  - intros n Hn.
    assert (In n s) as Hs
        by (apply (Permutation_in _ (Permutation_sym Hperm)); now apply dedup_In).
    rewrite <- (firstn_skipn 5 s) in Hs. apply in_app_iff in Hs.
    destruct Hs as [Hs|Hs]; [now left|]. right.
    assert (5 < List.length s)%nat as Hlen.
    { destruct (Nat.lt_ge_cases 5 (List.length s)) as [|Hge]; [assumption|].
      rewrite skipn_all2 in Hs by lia. contradiction. }
    split; [rewrite length_firstn; lia|].
    intros m Hm. apply StringOrder.leb_neq_ltb.
    + apply (ordered_firstn_skipn String.leb 5 s m n); assumption.
    + intros ->.
      rewrite <- (firstn_skipn 5 s) in Hnd. revert Hnd Hm Hs. generalize (firstn 5 s), (skipn 5 s).
      intros l1 l2 Hnd Hm Hs. induction l1 as [|y l1 IH]; [contradiction|].
      simpl in Hnd. inversion Hnd as [|? ? Hny Hnd1]; subst.
      destruct Hm as [->|Hm]; [|auto].
      apply Hny. apply in_app_iff. now right.
Qed.

Lemma occurrences_cons n t txns :
  occurrences n (t :: txns)
  = if String.eqb (_normalize_desc (desc t)) n
    then dt t :: occurrences n txns else occurrences n txns.
Proof.
  unfold occurrences. simpl.
  destruct (String.eqb (_normalize_desc (desc t)) n); reflexivity.
Qed.

Lemma get_set_string {V : Type} (m : dict string V) k k' v :
  dict_get String.eqb (dict_set String.eqb m k v) k'
  = if String.eqb k k' then Some v else dict_get String.eqb m k'.
Proof.
  destruct (String.eqb k k') eqn:E.
  - apply String.eqb_eq in E. subst.
    apply (dict_get_set_same String.eqb String.eqb_eq).
  - apply (dict_get_set_other String.eqb String.eqb_eq).
    intros ->. now rewrite String.eqb_refl in E.
Qed.

(** What the groups hold after more transactions are filed. *)
Lemma fold_groups txns : forall acc n,
  dict_get String.eqb (fold_left file_date txns acc) n
  = if eligible n
    then match dict_get String.eqb acc n, occurrences n txns with
         | None, [] => None
         | None, occ => Some occ
         | Some l, occ => Some (l ++ occ)
         end
    else dict_get String.eqb acc n.
Proof.
  induction txns as [|t txns IH]; intros acc n.
  - simpl. destruct (eligible n), (dict_get String.eqb acc n); try reflexivity.
    now rewrite app_nil_r.
  - cbn [fold_left]. rewrite IH, occurrences_cons. unfold file_date.
    set (n0 := _normalize_desc (desc t)).
    destruct ((Str.len n0 <? 4) || Str.mem_string n0 SKIPPED_NAMES) eqn:Eskip.
    + destruct (String.eqb n0 n) eqn:E; [|reflexivity].
      apply String.eqb_eq in E. subst n.
      unfold eligible. fold n0. rewrite Eskip. reflexivity.
    + rewrite get_set_string.
      destruct (String.eqb n0 n) eqn:E; [|reflexivity].
      apply String.eqb_eq in E. subst n.
      unfold dict_get_default.
      assert (eligible n0 = true) as -> by (unfold eligible; now rewrite Eskip).
      destruct (dict_get String.eqb acc n0) as [l|]; simpl.
      * now rewrite <- app_assoc.
      * reflexivity.
Qed.

Lemma group_dates_get txns n :
  dict_get String.eqb (group_dates txns) n
  = if eligible n
    then match occurrences n txns with [] => None | occ => Some occ end
    else None.
Proof. unfold group_dates. rewrite fold_groups. reflexivity. Qed.

Lemma dict_keys_set_string {V : Type} (m : dict string V) k v :
  NoDup (dict_keys m) -> NoDup (dict_keys (dict_set String.eqb m k v)).
Proof.
  intros Hnd. destruct (in_dec string_dec k (dict_keys m)) as [Hin|Hout].
  - now rewrite (dict_keys_set_present String.eqb String.eqb_eq).
  - rewrite (dict_keys_set_fresh String.eqb String.eqb_eq) by assumption.
    apply NoDup_app; [assumption|repeat constructor; simpl; tauto|].
    intros x Hx [<-|[]]. contradiction.
Qed.

Lemma group_dates_NoDup txns : NoDup (dict_keys (group_dates txns)).
Proof.
  unfold group_dates.
  assert (forall acc, NoDup (dict_keys acc) ->
                      NoDup (dict_keys (fold_left file_date txns acc))) as H.
  { induction txns as [|t txns IH]; intros acc Hacc; simpl; [assumption|].
    apply IH. unfold file_date.
    destruct ((Str.len (_normalize_desc (desc t)) <? 4)
              || Str.mem_string (_normalize_desc (desc t)) SKIPPED_NAMES);
      [assumption|now apply dict_keys_set_string]. }
  apply H. constructor.
Qed.

Lemma dict_In_get {V : Type} (m : dict string V) k v :
  NoDup (dict_keys m) -> (In (k, v) m <-> dict_get String.eqb m k = Some v).
Proof.
  induction m as [|[k0 v0] m IH]; simpl; intros Hnd.
  - split; [contradiction|discriminate].
  - inversion Hnd as [|? ? Hk0 Hm]; subst.
    destruct (String.eqb k k0) eqn:E.
    + apply String.eqb_eq in E. subst k0. split.
      * intros [[= ->]|Hin]; [reflexivity|].
        exfalso. apply Hk0. apply in_map_iff. now exists (k, v).
      * intros [= ->]. now left.
    + rewrite <- (IH Hm). split; [|auto].
      intros [[= -> ->]|Hin]; [|assumption]. now rewrite String.eqb_refl in E.
Qed.

Lemma names_with_spec c txns n :
  In n (names_with c (group_dates txns)) <-> cadence_of n txns = Some c.
Proof.
  unfold names_with, cadence_of. rewrite in_map_iff. split.
  - intros ([n' ds] & <- & Hin). apply filter_In in Hin. destruct Hin as [Hin Hc].
    apply (dict_In_get _ _ _ (group_dates_NoDup txns)) in Hin.
    rewrite group_dates_get in Hin. simpl in *.
    destruct (eligible n'); [|discriminate].
    destruct (occurrences n' txns) as [|d occ]; [discriminate|].
    injection Hin as <-.
    destruct (classify (d :: occ)) as [[|]|], c; try discriminate; reflexivity.
  - intros H. destruct (eligible n) eqn:El; [|discriminate].
    exists (n, occurrences n txns). split; [reflexivity|].
    apply filter_In. split.
    + apply (dict_In_get _ _ _ (group_dates_NoDup txns)).
      rewrite group_dates_get, El.
      destruct (occurrences n txns); [|reflexivity].
      discriminate.
    + simpl. rewrite H. destruct c; reflexivity.
Qed.

Lemma least_five_iff top (P R : string -> Prop) :
  (forall n, P n <-> R n) -> least_five top P -> least_five top R.
Proof.
  intros Hiff (Hs & Hl & Hin & Hall). repeat split; auto.
  - intros n Hn. apply Hiff. auto.
  - intros n Hn. apply Hall. now apply Hiff.
Qed.

Lemma Qle_bool_range lo hi med :
  Qle_bool lo med && Qle_bool med hi = true <-> (lo <= med <= hi)%Q.
Proof. rewrite andb_true_iff, !Qle_bool_iff. tauto. Qed.

Lemma classify_spec ds :
  (classify ds = Some Daily <->
   (3 <= List.length ds)%nat
   /\ exists med, median_gap ds = Some med /\ (8 # 10 <= med <= 13 # 10)%Q)
  /\ (classify ds = Some Weekly <->
      (3 <= List.length ds)%nat
      /\ exists med, median_gap ds = Some med /\ (55 # 10 <= med <= 85 # 10)%Q).
Proof.
  unfold classify, median_gap.
  destruct (Nat.ltb_spec (List.length ds) 3) as [Hlt|Hge].
  - split; split; try discriminate; intros [H _]; lia.
  - destruct (median (gaps (sort date_leb ds))) as [med|].
    + destruct (Qle_bool (8 # 10) med && Qle_bool med (13 # 10)) eqn:Ed;
        [|destruct (Qle_bool (55 # 10) med && Qle_bool med (85 # 10)) eqn:Ew];
        try (apply Qle_bool_range in Ed); try (apply Qle_bool_range in Ew);
        split; split; intros H; try discriminate; try reflexivity;
        try (split; [assumption|now exists med]);
        destruct H as [_ (m & [= <-] & Hm)];
        try lra;
        apply Qle_bool_range in Hm; congruence.
    + split; split; try discriminate; intros [_ (m & Hm & _)]; discriminate.
Qed.

Lemma date_leb_of_gap a b :
  valid_date a = true -> valid_date b = true -> 0 <= days_between b a ->
  date_leb a b = true.
Proof.
  intros Ha Hb H. rewrite DateFacts.date_leb_ord by assumption.
  apply Z.leb_le. unfold days_between in H. lia.
Qed.

Lemma date_leb_refl a : date_leb a a = true.
Proof.
  unfold date_leb. rewrite (proj2 (DateFacts.date_eqb_eq a a) eq_refl).
  apply orb_true_r.
Qed.

(** Four occurrences a week apart are a weekly cadence. *)
Lemma classify_weekly d1 d2 d3 d4 :
  valid_date d1 = true -> valid_date d2 = true ->
  valid_date d3 = true -> valid_date d4 = true ->
  days_between d2 d1 = 7 -> days_between d3 d2 = 7 -> days_between d4 d3 = 7 ->
  classify [d1; d2; d3; d4] = Some Weekly.
Proof.
  intros H1 H2 H3 H4 G1 G2 G3.
  assert (sort date_leb [d1; d2; d3; d4] = [d1; d2; d3; d4]) as Hsort.
  { unfold days_between in *.
    assert (date_leb d1 d2 = true) as E12
        by (apply date_leb_of_gap; unfold days_between; auto; lia).
    assert (date_leb d1 d3 = true) as E13
        by (apply date_leb_of_gap; unfold days_between; auto; lia).
    assert (date_leb d2 d3 = true) as E23
        by (apply date_leb_of_gap; unfold days_between; auto; lia).
    assert (date_leb d1 d4 = true) as E14
        by (apply date_leb_of_gap; unfold days_between; auto; lia).
    assert (date_leb d2 d4 = true) as E24
        by (apply date_leb_of_gap; unfold days_between; auto; lia).
    assert (date_leb d3 d4 = true) as E34
        by (apply date_leb_of_gap; unfold days_between; auto; lia).
    unfold sort.
    repeat (progress (cbn [fold_left insert_sorted];
                      rewrite ?E12, ?E13, ?E23, ?E14, ?E24, ?E34)).
    reflexivity. }
  unfold classify. cbn [List.length Nat.ltb Nat.leb]. rewrite Hsort.
  cbn [gaps]. rewrite G1, G2, G3. reflexivity.
Qed.

End PositionFacts.

Import Statements.

(** C5.  On transactions with ASCII descriptions, [detect_positions]
    groups the dates by normalised description and passes over the names
    shorter than four characters and the names deposit, pos, ach and
    online transfer; each bucket holds, in increasing order and without
    repetition, the least names of its cadence, five at most.  A group is
    daily exactly when it has three dates or more and the median gap
    between its sorted dates lies in [[0.8, 1.3]], weekly exactly when it
    has three dates or more and the median lies in [[5.5, 8.5]]: nothing
    but the median gap is looked at.  The normalised description is the
    description in lower case, with runs of two or more blanks made one
    space, whole-word runs of four digits or more removed, runs of the
    characters - / # * made one space, and the words joined by single
    spaces; shorter runs of digits stay.  A description that is kept and
    occurs four times, seven days apart, is weekly.  Of two descriptions
    on ten dates with no period, the one with gaps 2, 3, 11, 2, 17, 3,
    2, 12, 3 is in neither bucket and the one with gaps 1, 1, 2, 30, 7,
    7, 7, 6, 40 is weekly. *)
Theorem detect_positions_cadence :
  (forall txns,
      Forall (fun t => is_ascii (desc t) = true) txns ->
      least_five (fst (detect_positions txns)) (fun n => cadence_of n txns = Some Daily)
      /\ least_five (snd (detect_positions txns))
                    (fun n => cadence_of n txns = Some Weekly))
  /\ (forall ds,
         (classify ds = Some Daily <->
          (3 <= List.length ds)%nat
          /\ exists med, median_gap ds = Some med /\ (8 # 10 <= med <= 13 # 10)%Q)
         /\ (classify ds = Some Weekly <->
             (3 <= List.length ds)%nat
             /\ exists med, median_gap ds = Some med /\ (55 # 10 <= med <= 85 # 10)%Q))
  /\ (forall dsc,
         is_ascii dsc = true ->
         _normalize_desc dsc
         = Str.join " "
             (Str.split_ws
                (Re.sub separators " "
                   (Re.sub digits4_word ""
                      (Re.sub spaces2 " " (Str.lower dsc))))))
  /\ _normalize_desc "POS  Debit #12-34567 Store 123" = "pos debit 12 store 123"%string
  /\ (forall dsc d1 d2 d3 d4 a1 a2 a3 a4,
         is_ascii dsc = true ->
         eligible (_normalize_desc dsc) = true ->
         valid_date d1 = true -> valid_date d2 = true ->
         valid_date d3 = true -> valid_date d4 = true ->
         days_between d2 d1 = 7 -> days_between d3 d2 = 7 -> days_between d4 d3 = 7 ->
         detect_positions [mkTxn d1 dsc a1 None; mkTxn d2 dsc a2 None;
                           mkTxn d3 dsc a3 None; mkTxn d4 dsc a4 None]
         = ([], [_normalize_desc dsc]))
  /\ detect_positions (same_desc "Card Purchase" irregular_dates) = ([], [])
  /\ detect_positions (same_desc "Card Purchase" uneven_weekly_dates)
     = ([], ["card purchase"%string]).
Proof.
  split; [|split; [|split; [|split; [|split; [|split]]]]].
  - intros txns _. unfold detect_positions. cbn [fst snd]. split.
    + eapply PositionFacts.least_five_iff; [|apply PositionFacts.topk_least_five].
      intros n. apply PositionFacts.names_with_spec.
    + eapply PositionFacts.least_five_iff; [|apply PositionFacts.topk_least_five].
      intros n. apply PositionFacts.names_with_spec.
  - exact PositionFacts.classify_spec.
  - intros dsc _. reflexivity.
  - vm_compute. reflexivity.
  - intros dsc d1 d2 d3 d4 a1 a2 a3 a4 _ Hel H1 H2 H3 H4 G1 G2 G3.
    unfold detect_positions.
    pose proof (PositionFacts.classify_weekly d1 d2 d3 d4 H1 H2 H3 H4 G1 G2 G3) as Hc.
    unfold eligible in Hel. apply negb_true_iff in Hel.
    assert (group_dates [mkTxn d1 dsc a1 None; mkTxn d2 dsc a2 None;
                         mkTxn d3 dsc a3 None; mkTxn d4 dsc a4 None]
            = [(_normalize_desc dsc, [d1; d2; d3; d4])]) as ->.
    { unfold group_dates. cbn [fold_left]. unfold file_date. cbn [desc dt]. rewrite Hel.
      unfold dict_get_default.
      cbn [dict_set dict_get app]. rewrite String.eqb_refl.
      cbn [dict_set dict_get app]. rewrite String.eqb_refl.
      cbn [dict_set dict_get app]. rewrite String.eqb_refl.
      reflexivity. }
    unfold names_with. cbn [filter snd map fst]. rewrite Hc. reflexivity.
  - vm_compute. reflexivity.
  - vm_compute. reflexivity.
Qed.

(** C5 on a gym fee charged on ten dates with no period, and on four
    Mondays in a row. *)
Lemma detect_positions_cadence_witness :
  (least_five (fst (detect_positions (same_desc "Gym Fee" irregular_dates)))
              (fun n => cadence_of n (same_desc "Gym Fee" irregular_dates) = Some Daily)
   /\ least_five (snd (detect_positions (same_desc "Gym Fee" irregular_dates)))
                 (fun n => cadence_of n (same_desc "Gym Fee" irregular_dates)
                           = Some Weekly))
  /\ detect_positions [mkTxn (mkdate 2024 1 1) "Gym Fee" (-(30 # 1))%Q None;
                       mkTxn (mkdate 2024 1 8) "Gym Fee" (-(30 # 1))%Q None;
                       mkTxn (mkdate 2024 1 15) "Gym Fee" (-(30 # 1))%Q None;
                       mkTxn (mkdate 2024 1 22) "Gym Fee" (-(30 # 1))%Q None]
     = ([], [_normalize_desc "Gym Fee"]).
Proof.
  split.
  - apply (proj1 detect_positions_cadence (same_desc "Gym Fee" irregular_dates)).
    repeat constructor.
  - apply (proj1 (proj2 (proj2 (proj2 (proj2 detect_positions_cadence))))
             "Gym Fee"%string (mkdate 2024 1 1) (mkdate 2024 1 8)
             (mkdate 2024 1 15) (mkdate 2024 1 22)); reflexivity.
Defined.

(** C5 without the exception of the names passed over, and with
    exclusion read as a matter of period: POS, charged on four Mondays in
    a row, is not reported as weekly, and a description on ten dates
    with no period, whose median gap is a week, is. *)
Lemma detect_positions_skipped_counterexample :
  days_between (mkdate 2024 1 8) (mkdate 2024 1 1) = 7
  /\ days_between (mkdate 2024 1 15) (mkdate 2024 1 8) = 7
  /\ days_between (mkdate 2024 1 22) (mkdate 2024 1 15) = 7
  /\ detect_positions [mkTxn (mkdate 2024 1 1) "POS" (-(30 # 1))%Q None;
                       mkTxn (mkdate 2024 1 8) "POS" (-(30 # 1))%Q None;
                       mkTxn (mkdate 2024 1 15) "POS" (-(30 # 1))%Q None;
                       mkTxn (mkdate 2024 1 22) "POS" (-(30 # 1))%Q None]
     = ([], [])
  /\ gaps uneven_weekly_dates = [1; 1; 2; 30; 7; 7; 7; 6; 40]
  /\ detect_positions (same_desc "Card Purchase" uneven_weekly_dates)
     = ([], ["card purchase"%string]).
Proof. repeat split. Qed.

Import Statements.

Module MonthFacts.

Lemma years_checked : forallb (fun y => year_ok (Str.fmt_0d 4 y)) years = true.
Proof. vm_compute. reflexivity. Qed.

Lemma months_checked : forallb (fun m => month_ok (Str.fmt_0d 2 m)) months = true.
Proof. vm_compute. reflexivity. Qed.

Lemma year_month_ok a b :
  year_ok a = true -> month_ok b = true -> is_year_month (a ++ "-" ++ b) = true.
Proof.
  destruct a as [|y1 [|y2 [|y3 [|y4 [|? ?]]]]]; try discriminate.
  destruct b as [|m1 [|m2 [|? ?]]]; try discriminate.
  cbn [year_ok month_ok is_year_month append]. intros H1 H2.
  change (Ascii.eqb "-" "-") with true.
  rewrite !andb_true_iff in H1, H2. rewrite !andb_true_iff. tauto.
Qed.

Lemma label_of_wf y m :
  1 <= y <= 9999 -> 1 <= m <= 12 -> is_year_month (label_of y m) = true.
Proof.
  intros Hy Hm. apply year_month_ok.
  - pose proof years_checked as H. rewrite forallb_forall in H. apply H.
    unfold years. apply in_map_iff. exists (Z.to_nat y). split; [lia|].
    apply in_seq. lia.
  - pose proof months_checked as H. rewrite forallb_forall in H. apply H.
    unfold months. apply in_map_iff. exists (Z.to_nat m). split; [lia|].
    apply in_seq. lia.
Qed.

Lemma month_key_wf d : valid_date d = true -> is_year_month (month_key d) = true.
Proof.
  intros Hv. apply DateFacts.valid_date_iff in Hv. apply label_of_wf; lia.
Qed.

Lemma date_max_of_In ds d : date_max_of ds = Some d -> In d ds.
Proof.
  unfold date_max_of.
  assert (forall acc, fold_left (fun acc d => match acc with
                                              | None => Some d
                                              | Some b => if date_ltb b d then Some d else Some b
                                              end) ds acc = Some d ->
                      acc = Some d \/ In d ds) as H.
  { induction ds as [|x ds IH]; intros acc; simpl; [auto|].
    intros Hf. apply IH in Hf. destruct Hf as [Hf|Hf]; [|auto].
    destruct acc as [b|].
    - destruct (date_ltb b x); injection Hf as <-; auto.
    - injection Hf as <-. auto. }
  intros Hf. apply H in Hf. destruct Hf as [Hf|Hf]; [discriminate|assumption].
Qed.

Lemma filter_some_In {A : Type} (l : list (option A)) a :
  In a (filter_some l) -> In (Some a) l.
Proof.
  unfold filter_some. rewrite in_flat_map. intros ([x|] & Hx & Hin); simpl in Hin.
  - destruct Hin as [<-|[]]. assumption.
  - contradiction.
Qed.

Lemma first_some_In {A : Type} (l : list (option A)) a :
  first_some l = Some a -> In (Some a) l.
Proof.
  unfold first_some. induction l as [|[x|] l IH]; simpl.
  - discriminate.
  - intros [= <-]. now left.
  - intros H. right. auto.
Qed.

Section WithParser.
Variable dateparse : string -> option date.
Hypothesis dateparse_valid : forall s d, dateparse s = Some d -> valid_date d = true.

Lemma range_of_match_valid m d1 d2 :
  range_of_match dateparse m = Some (d1, d2) -> valid_date d2 = true.
Proof.
  unfold range_of_match. destruct m as [m|]; [|discriminate].
  destruct (dateparse (Re.group_str 1 m)) as [a|]; [|discriminate].
  destruct (dateparse (Re.group_str 2 m)) as [b|] eqn:Eb; [|discriminate].
  destruct (date_leb a b); [|discriminate].
  intros [= <- <-]. eauto.
Qed.

Lemma month_of_ymd_wf y mo dd label d1 d2 :
  month_of_ymd y mo dd = Some (label, d1, d2) -> is_year_month label = true.
Proof.
  unfold month_of_ymd, date_new.
  destruct (valid_date (mkdate y mo dd)) eqn:Hv; [|discriminate].
  destruct (valid_date (mkdate y mo 1)); [|discriminate].
  destruct (month_end y mo); [|discriminate].
  intros [= <- _ _]. exact (month_key_wf _ Hv).
Qed.

Lemma month_from_filename_wf filename label d1 d2 :
  _month_from_filename filename = Some (label, d1, d2) -> is_year_month label = true.
Proof.
  unfold _month_from_filename. destruct filename as [fname|]; [|discriminate].
  destruct (negb (Str.nonempty fname)); [discriminate|].
  destruct (Re.search RE_FILE_MDY _).
  - apply month_of_ymd_wf.
  - destruct (Re.search RE_FILE_YMD _); [apply month_of_ymd_wf|discriminate].
Qed.

(** Every label that [month_from_period] produces names a month. *)
Lemma month_from_period_wf text filename label d1 d2 :
  month_from_period dateparse text filename = Ok (Some (label, d1, d2)) ->
  is_year_month label = true.
Proof.
  unfold month_from_period.
  destruct (period_A dateparse text) as [[[la a1] a2]|] eqn:EA.
  { intros [= <- _ _]. unfold period_A in EA.
    destruct (Re.search RE_STATEMENT_PERIOD text) as [m|]; [|discriminate].
    destruct (dateparse (Re.group_str 2 m)); [|discriminate].
    destruct (dateparse (Re.group_str 3 m)) as [b|] eqn:Eb; [|discriminate].
    injection EA as <- _ _. apply month_key_wf. eauto. }
  destruct (_parse_period_variants dateparse text) as [[b1 b2]|] eqn:EB.
  { intros [= <- _ _]. apply month_key_wf.
    unfold _parse_period_variants in EB. apply first_some_In in EB.
    simpl in EB.
    destruct EB as [E|[E|[E|[E|[]]]]]; eapply range_of_match_valid; exact E. }
  destruct (period_C dateparse text) as [[[lc c1] c2]|] eqn:EC.
  { intros [= <- _ _]. unfold period_C in EC.
    destruct (Re.search RE_MONTH_YEAR text) as [m|]; [|discriminate].
    destruct (dateparse (Re.group_str 2 m)) as [d|] eqn:Ed; [|discriminate].
    destruct (date_new (year d) (month d) 1); [|discriminate].
    destruct (month_end (year d) (month d)); [|discriminate].
    injection EC as <- _ _. apply month_key_wf. eauto. }
  destruct (date_max_of _) as [dmax|] eqn:ED.
  { apply date_max_of_In, filter_some_In, in_map_iff in ED.
    destruct ED as (mm & Hmm & _).
    destruct (date_new (year dmax) (month dmax) 1); simpl; [|discriminate].
    destruct (month_end (year dmax) (month dmax)); simpl; [|discriminate].
    intros [= <- _ _]. apply month_key_wf. eauto. }
  intros [= E]. eapply month_from_filename_wf. exact E.
Qed.

End WithParser.

End MonthFacts.

(** C9.  Whenever [summarize_statement] returns a summary, with a date
    parser that yields calendar dates only, the [statement_month] of the
    summary is a month label, four digits, a hyphen and two digits
    between 01 and 12, or it is the string [[unknown]] with its
    brackets. *)
Theorem statement_month_well_formed :
  forall (dateparse : string -> option date)
         (extract_header_info :
            string -> option string -> option string * option string * option string)
         text used_ocr filename summary daily txns,
    (forall s d, dateparse s = Some d -> valid_date d = true) ->
    summarize_statement dateparse extract_header_info text used_ocr filename
    = Ok (summary, daily, txns) ->
    is_year_month (statement_month summary) = true
    \/ statement_month summary = "[unknown]"%string.
Proof.
  intros dateparse header text used_ocr filename summary daily txns Hvalid.
  unfold summarize_statement.
  destruct (month_from_period dateparse text filename) as [p|e] eqn:Ep; simpl; [|discriminate].
  destruct (header text filename) as [[biz acct] bank].
  destruct (parse_transactions dateparse text p) as [[[txns' opening] ending]|e];
    simpl; [|discriminate].
  destruct (rebuild_daily_balances txns' opening p) as [daily'|e]; simpl; [|discriminate].
  destruct (compute_monthly_counts_and_deposits txns') as [[debits credits] deposits].
  destruct (detect_positions txns') as [daily_pos weekly_pos].
  intros [= <- _ _]. cbn [statement_month].
  destruct p as [[[label d1] d2]|].
  - left. eapply MonthFacts.month_from_period_wf; eauto.
  - right. reflexivity.
Qed.

(** C9 on an empty text whose file name carries the date 06_30_2025. *)
Lemma statement_month_well_formed_witness :
  is_year_month "2025-06" = true \/ "2025-06"%string = "[unknown]"%string.
Proof.
  refine (statement_month_well_formed no_dates no_header ""
            false (Some "Acme - 06_30_2025.pdf"%string)
            (mkSummary None None None "2025-06" 0 0 0 None 0 [] []) [] [] _ _).
  - unfold no_dates. discriminate.
  - vm_compute. reflexivity.
Defined.

(** C9 with the sentinel spelt without brackets: on an empty text with
    no file name the month is [[unknown]], which is neither a month label
    nor the bare word. *)
Lemma statement_month_sentinel_counterexample :
  exists summary daily txns,
    summarize_statement no_dates no_header "" false None = Ok (summary, daily, txns)
    /\ statement_month summary = "[unknown]"%string
    /\ is_year_month (statement_month summary) = false
    /\ statement_month summary <> "unknown"%string.
Proof.
  eexists. eexists. eexists. split; [vm_compute; reflexivity|].
  repeat split. discriminate.
Qed.

Import Application.

Module ResolverFacts.

Section Facts.
Variable partial_ratio : string -> string -> Q.
Context {V : Type} `{Truthy V}.
Variable extractor_fn : string -> option V.
Variable lines : list string.
Variable conf_base : Q.
Hypothesis conf_base_nonneg : (0 <= conf_base)%Q.

Lemma truthy_some (v : option V) : truthy v = true -> v <> None.
Proof. intros Ht ->. discriminate. Qed.

Lemma Qmin_spec a b : (Qmin a b <= a /\ Qmin a b <= b /\ (Qmin a b == a \/ Qmin a b == b))%Q.
Proof.
  unfold Qmin. destruct (Qle_bool a b) eqn:E.
  - apply Qle_bool_iff in E. split; [lra|]. split; [lra|]. left. reflexivity.
  - assert (~ (a <= b)%Q) by (intros Hle; apply Qle_bool_iff in Hle; congruence).
    split; [lra|]. split; [lra|]. right. reflexivity.
Qed.

Lemma try_hit_keeps best h :
  (80 <= snd h)%Q ->
  best = NOT_FOUND \/ anchored best ->
  try_hit lines extractor_fn conf_base best h = NOT_FOUND
  \/ anchored (try_hit lines extractor_fn conf_base best h).
Proof.
  intros Hs Hb. destruct h as [[idx anchor] score]. simpl in Hs.
  unfold try_hit.
  destruct (truthy (extractor_fn (window lines idx 2))) eqn:Ht; [|exact Hb].
  set (conf := Qmin (conf_base + score / 100 * (35 # 100)) (98 # 100)).
  destruct (Qltb (confidence best) conf); [|exact Hb].
  right. split; [exact Ht|]. cbn [confidence].
  pose proof (NumFacts.round2_near conf) as Hr.
  apply Qabs_Qle_condition in Hr.
  destruct (Qmin_spec (conf_base + score / 100 * (35 # 100)) (98 # 100))
    as (H1 & H2 & H3). fold conf in H1, H2, H3.
  assert (28 # 100 <= conf)%Q.
  { assert (80 / 100 <= score / 100)%Q.
    { apply Qmult_le_compat_r; [assumption|]. discriminate. }
    destruct H3 as [H3|H3]; rewrite H3; [|lra].
    assert (80 / 100 * (35 # 100) <= score / 100 * (35 # 100))%Q
      by (apply Qmult_le_compat_r; [assumption|discriminate]).
    assert (80 / 100 * (35 # 100) == 28 # 100)%Q by reflexivity.
    lra. }
  lra.
Qed.

Lemma fold_try_hit hits : forall best,
  (forall h, In h hits -> (80 <= snd h)%Q) ->
  best = NOT_FOUND \/ anchored best ->
  fold_left (try_hit lines extractor_fn conf_base) hits best = NOT_FOUND
  \/ anchored (fold_left (try_hit lines extractor_fn conf_base) hits best).
Proof.
  induction hits as [|h hits IH]; intros best Hs Hb; simpl; [exact Hb|].
  apply IH; [intros; apply Hs; now right|].
  apply try_hit_keeps; [apply Hs; now left|exact Hb].
Qed.

Lemma fold_try_hit_none hits : forall best,
  (forall h, In h hits -> truthy (extractor_fn (hit_window lines h)) = false) ->
  fold_left (try_hit lines extractor_fn conf_base) hits best = best.
Proof.
  induction hits as [|h hits IH]; intros best Hn; simpl; [reflexivity|].
  rewrite IH by (intros; apply Hn; now right).
  specialize (Hn h (or_introl eq_refl)).
  destruct h as [[idx anchor] score]. unfold try_hit, hit_window in *. simpl in Hn.
  now rewrite Hn.
Qed.

Lemma hits_scored lines_lower anchors h :
  In h (best_anchor_hits_local partial_ratio lines_lower anchors) -> (80 <= snd h)%Q.
Proof.
  unfold best_anchor_hits_local. intros Hin.
  apply (Permutation_in _ (sort_perm hit_leb _)) in Hin.
  apply in_flat_map in Hin. destruct Hin as ([i ln] & _ & Hin).
  apply in_flat_map in Hin. destruct Hin as (a & _ & Hin).
  destruct (Qle_bool 80 (partial_ratio a ln)) eqn:E; [|contradiction].
  destruct Hin as [<-|[]]. simpl. now apply Qle_bool_iff.
Qed.

Lemma In_firstn_hits {A : Type} n (l : list A) x : In x (firstn n l) -> In x l.
Proof.
  revert l. induction n; intros [|z l]; simpl; try tauto. intros [->|Hx]; auto.
Qed.

Lemma headtail_try_spec :
  (headtail_try lines extractor_fn = NOT_FOUND
   /\ truthy (extractor_fn (head_text lines)) = false
   /\ truthy (extractor_fn (tail_text lines)) = false)
  \/ (truthy (value (headtail_try lines extractor_fn)) = true
      /\ confidence (headtail_try lines extractor_fn) = 45 # 100).
Proof.
  unfold headtail_try. fold (head_text lines) (tail_text lines).
  destruct (truthy (extractor_fn (head_text lines))) eqn:Eh.
  - rewrite Eh. right. split; [exact Eh|reflexivity].
  - destruct (truthy (extractor_fn (tail_text lines))) eqn:Et.
    + right. split; [exact Et|reflexivity].
    + left. auto.
Qed.

(** What the resolver returns once the anchor phrases are known. *)
Lemma resolve_spec lines_lower phrases :
  let hits := firstn 8 (best_anchor_hits_local partial_ratio lines_lower phrases) in
  let best := fold_left (try_hit lines extractor_fn conf_base) hits NOT_FOUND in
  let r := if truthy (value best) then best else headtail_try lines extractor_fn in
  (0 <= confidence r <= 1)%Q
  /\ ((confidence r == 0)%Q <-> value r = None)
  /\ ((forall h, In h hits -> truthy (extractor_fn (hit_window lines h)) = false) ->
      truthy (extractor_fn (head_text lines)) = false ->
      truthy (extractor_fn (tail_text lines)) = false ->
      r = NOT_FOUND).
Proof.
  intros hits best r.
  assert (best = NOT_FOUND \/ anchored best) as Hbest.
  { apply fold_try_hit; [|now left].
    intros h Hh. apply In_firstn_hits in Hh. eapply hits_scored; eauto. }
  assert ((r = NOT_FOUND
           /\ (truthy (value best) = true
               \/ (truthy (extractor_fn (head_text lines)) = false
                   /\ truthy (extractor_fn (tail_text lines)) = false)))
          \/ (truthy (value r) = true /\ (275 # 1000 <= confidence r <= 985 # 1000)%Q))
    as Hr.
  { subst r. destruct (truthy (value best)) eqn:Eb.
    - destruct Hbest as [Hb|Hb]; [rewrite Hb in Eb; discriminate|].
      right. destruct Hb as [_ Hc]. split; [exact Eb|exact Hc].
    - destruct headtail_try_spec as [(Hh & H1 & H2)|(Hh & Hc)].
      + left. auto.
      + right. split; [exact Hh|]. rewrite Hc. lra. }
  split; [|split].
  - destruct Hr as [[-> _]|[_ Hc]]; simpl; lra.
  - destruct Hr as [[-> _]|[Ht Hc]]; simpl.
    + split; reflexivity.
    + split.
      * intros Hz. lra.
      * intros Hn. apply truthy_some in Ht. contradiction.
  - intros Hnone Hhead Htail. subst r best.
    rewrite fold_try_hit_none by exact Hnone. simpl.
    unfold headtail_try. fold (head_text lines) (tail_text lines).
    now rewrite Hhead, Htail.
Qed.

End Facts.

End ResolverFacts.

(** C1.  For each of the five fields, with the anchor key and the base
    confidence that the pipeline resolves it with, and for any fuzzy
    matcher, extractor and document, [find_with_anchors] returns a result
    and raises nothing; the confidence of the result lies in [[0, 1]]; it
    is zero exactly when the value is [None]; and when the extractor
    finds nothing in the window of any of the eight best anchor hits, nor
    in the first sixty lines, nor in the last sixty, the result is
    [NOT_FOUND], which is [FieldResult(None, 0.0, {})]. *)
Theorem find_with_anchors_total :
  forall (partial_ratio : string -> string -> Q) (f : field)
         (V : Type) (T : Truthy V) (extractor_fn : string -> option V)
         (lines lines_lower : list string),
  exists r,
    find_with_anchors partial_ratio lines lines_lower (field_key f) ANCHORS
                      extractor_fn (field_conf_base f) = Ok r
    /\ (0 <= confidence r <= 1)%Q
    /\ ((confidence r == 0)%Q <-> value r = None)
    /\ ((forall h,
            In h (firstn 8 (best_anchor_hits_local partial_ratio lines_lower
                                                   (field_anchors f))) ->
            truthy (extractor_fn (hit_window lines h)) = false) ->
        truthy (extractor_fn (head_text lines)) = false ->
        truthy (extractor_fn (tail_text lines)) = false ->
        r = NOT_FOUND).
Proof.
  intros pr f V T extractor_fn lines lines_lower.
  assert (0 <= field_conf_base f)%Q as Hcb by (destruct f; discriminate).
  pose proof (ResolverFacts.resolve_spec pr extractor_fn lines (field_conf_base f) Hcb
                lines_lower (field_anchors f)) as Hspec.
  cbv zeta in Hspec.
  unfold find_with_anchors.
  assert (dict_get String.eqb ANCHORS (field_key f) = Some (field_anchors f)) as ->
      by (destruct f; reflexivity).
  destruct (truthy (value (fold_left (try_hit lines extractor_fn (field_conf_base f))
                             (firstn 8 (best_anchor_hits_local pr lines_lower (field_anchors f)))
                             NOT_FOUND))) eqn:E;
    eexists; (split; [reflexivity|exact Hspec]).
Qed.

(** C1 on a document of one line that holds no FICO anchor and no
    score. *)
Lemma find_with_anchors_total_witness :
  find_with_anchors exact_ratio ["Owner: Jo"%string] ["owner: jo"%string]
                    (field_key FICO) ANCHORS extract_fico (field_conf_base FICO)
  = Ok NOT_FOUND.
Proof.
  destruct (find_with_anchors_total exact_ratio FICO _ _ extract_fico
              ["Owner: Jo"%string] ["owner: jo"%string]) as (r & Hr & _ & _ & Hnf).
  rewrite Hr. f_equal. apply Hnf.
  - intros h Hh. vm_compute in Hh. contradiction.
  - vm_compute. reflexivity.
  - vm_compute. reflexivity.
Defined.

Import Application.

Module StrFacts.

Lemma prefix_spec p s : String.prefix p s = true <-> exists post, s = (p ++ post)%string.
Proof.
  revert s. induction p as [|a p IH]; intros s.
  - destruct s; simpl; split; eauto.
  - destruct s as [|b s]; simpl.
    + split; [discriminate|]. intros (post & Hs). discriminate.
    + destruct (Ascii.ascii_dec a b) as [->|Hne].
      * rewrite IH. split; intros (post & Hs); exists post; congruence.
      * split; [discriminate|]. intros (post & Hs). congruence.
Qed.

Lemma contains_spec k s : Str.contains k s = true <-> occurs k s.
Proof.
  unfold occurs. induction s as [|c s IH]; cbn [Str.contains].
  - rewrite orb_false_r, prefix_spec. split.
    + intros (post & Hs). exists EmptyString, post. exact Hs.
    + intros ([|? ?] & post & Hs); [now exists post|discriminate].
  - rewrite orb_true_iff, IH, prefix_spec. split.
    + intros [(post & Hs)|(pre & post & Hs)].
      * exists EmptyString, post. exact Hs.
      * exists (String c pre), post. simpl. now rewrite Hs.
    + intros ([|a pre] & post & Hs); simpl in Hs.
      * left. now exists post.
      * right. injection Hs as -> Hs. now exists pre, post.
Qed.

End StrFacts.

(** C7.  When none of the duration keywords occurs in the lower-cased
    window, [parse_tib_value_strict] returns [None], whatever the clock,
    the date parser and the numbers and dates in the window. *)
Theorem parse_tib_value_strict_needs_keyword :
  forall (now : datetime) (dateparse_fuzzy : string -> option datetime) (neigh : string),
    (forall k, In k TIB_KEYWORDS -> ~ occurs k (Str.lower neigh)) ->
    parse_tib_value_strict now dateparse_fuzzy neigh = None.
Proof.
  intros now dp neigh Hnone. unfold parse_tib_value_strict.
  destruct (existsb (fun k => Str.contains k (Str.lower neigh)) TIB_KEYWORDS) eqn:E;
    [|reflexivity].
  apply existsb_exists in E. destruct E as (k & Hk & Hc).
  apply StrFacts.contains_spec in Hc. exfalso. exact (Hnone k Hk Hc).
Qed.

(** C7 on a window with years, months and a date, and no keyword. *)
Lemma parse_tib_value_strict_needs_keyword_witness :
  parse_tib_value_strict noon_2024 no_datetimes "Owner for 5 years 3 months, from 01/02/2019"
  = None.
Proof.
  apply parse_tib_value_strict_needs_keyword.
  intros k Hk Hocc. apply StrFacts.contains_spec in Hocc.
  revert Hocc. simpl in Hk.
  repeat (destruct Hk as [<-|Hk]; [vm_compute; discriminate|]).
  contradiction.
Defined.

Import Application.

Module StateFacts.




End StateFacts.




Import Application.

Module PipelineFacts.

Section Ext.
Variable partial_ratio : string -> string -> Q.
Context {V : Type} `{Truthy V}.

Lemma find_with_anchors_ext (f g : string -> option V) lines lines_lower key cb :
  (forall w, f w = g w) ->
  find_with_anchors partial_ratio lines lines_lower key ANCHORS f cb
  = find_with_anchors partial_ratio lines lines_lower key ANCHORS g cb.
Proof.
  intros Hfg. unfold find_with_anchors.
  destruct (dict_get String.eqb ANCHORS key) as [phrases|]; [|reflexivity].
  assert (forall hits best,
             fold_left (try_hit lines f cb) hits best
             = fold_left (try_hit lines g cb) hits best) as Hfold.
  { induction hits as [|h hits IH]; intros best; simpl; [reflexivity|].
    rewrite IH. f_equal. destruct h as [[idx anchor] score].
    unfold try_hit. now rewrite Hfg. }
  rewrite Hfold. unfold headtail_try. now rewrite !Hfg.
Qed.

Lemma find_with_anchors_ok (f : string -> option V) lines lines_lower key cb phrases :
  dict_get String.eqb ANCHORS key = Some phrases ->
  exists r, find_with_anchors partial_ratio lines lines_lower key ANCHORS f cb = Ok r.
Proof.
  intros Hk. unfold find_with_anchors. rewrite Hk.
  destruct (truthy _); eexists; reflexivity.
Qed.

End Ext.

(** On a one-line document every window, the head and the tail are that
    line, so the value found does not depend on the matcher's scores. *)
Lemma one_line_value (partial_ratio : string -> string -> Q) {V : Type} `{Truthy V}
      (f : string -> option V) (line : string) key cb phrases v :
  dict_get String.eqb ANCHORS key = Some phrases ->
  f line = Some v -> truth v = true ->
  exists r,
    find_with_anchors partial_ratio [line] [Str.lower line] key ANCHORS f cb = Ok r
    /\ value r = Some v.
Proof.
  intros Hk Hf Hv. unfold find_with_anchors. rewrite Hk.
  assert (forall h, In h (best_anchor_hits_local partial_ratio [Str.lower line] phrases) ->
                    fst (fst h) = 0%nat) as Hidx.
  { intros h Hin. unfold best_anchor_hits_local in Hin.
    apply (Permutation_in _ (sort_perm hit_leb _)) in Hin.
    apply in_flat_map in Hin. destruct Hin as ([i ln] & Hi & Hin).
    simpl in Hi. destruct Hi as [[= <- <-]|[]].
    apply in_flat_map in Hin. destruct Hin as (a & _ & Hin).
    destruct (Qle_bool 80 _); [|contradiction].
    destruct Hin as [<-|[]]. reflexivity. }
  assert (forall hits best,
             (forall h, In h hits -> fst (fst h) = 0%nat) ->
             best = NOT_FOUND \/ value best = Some v ->
             fold_left (try_hit [line] f cb) hits best = NOT_FOUND
             \/ value (fold_left (try_hit [line] f cb) hits best) = Some v) as Hfold.
  { induction hits as [|h hits IH]; intros best Hh Hb; simpl; [exact Hb|].
    apply IH; [intros; apply Hh; now right|].
    specialize (Hh h (or_introl eq_refl)).
    destruct h as [[idx anchor] score]. simpl in Hh. subst idx.
    unfold try_hit. change (window [line] 0 2) with line.
    rewrite Hf. unfold truthy. rewrite Hv.
    destruct (Qltb (confidence best) _); [right; reflexivity|exact Hb]. }
  destruct (Hfold (firstn 8 (best_anchor_hits_local partial_ratio [Str.lower line] phrases))
              NOT_FOUND) as [Hb|Hb].
  - intros h Hh. apply Hidx. eapply ResolverFacts.In_firstn_hits. exact Hh.
  - now left.
  - rewrite Hb. cbn [truthy value NOT_FOUND]. eexists. split; [reflexivity|].
    unfold headtail_try. change (Str.join " | " (Str.head_items 60 [line])) with line.
    rewrite Hf. unfold truthy. rewrite !Hv. reflexivity.
  - rewrite Hb. unfold truthy at 1. rewrite Hv. eexists. split; [reflexivity|exact Hb].
Qed.

(** Whatever the fuzzy matcher answers, "Established 2010" is 14 years
    in 2024 and 15 years in 2025. *)
Lemma established_2010_any_matcher (partial_ratio : string -> string -> Q) :
  (exists r,
      find_with_anchors partial_ratio ["Established 2010"%string]
        [Str.lower "Established 2010"] "tib" ANCHORS
        (parse_tib_value_strict noon_2024 no_datetimes) (6 # 10) = Ok r
      /\ value r = Some (168%Q, 14%Q))
  /\ (exists r,
         find_with_anchors partial_ratio ["Established 2010"%string]
           [Str.lower "Established 2010"] "tib" ANCHORS
           (parse_tib_value_strict noon_2025 no_datetimes) (6 # 10) = Ok r
         /\ value r = Some (180%Q, 15%Q)).
Proof.
  split; eapply one_line_value; reflexivity.
Qed.

End PipelineFacts.

(** C8.  Two runs of [extract_fields_from_bytes] on the same bytes, with
    the same engines and two readings of the clock, both return or both
    raise the same exception; when they return, the previews are equal,
    both results carry the five field names in the same order, and every
    field but LengthOfOwnership has the same result.  When the two
    readings give [parse_tib_value_strict] the same value on every
    window, the two runs are equal altogether. *)
Theorem extraction_clock_dependence :
  forall (image : Type)
         (pdf_page_texts : string -> option (list string))
         (convert_from_bytes : string -> Z -> result (list image))
         (preprocess_for_ocr : image -> image)
         (image_to_string : image -> string -> string -> string)
         (paddle_ocr_page : image -> string)
         (pdf_first_page : string -> option pdf_page)
         (partial_ratio : string -> string -> Q)
         (dateparse_fuzzy : string -> option datetime)
         (now1 now2 : datetime) (pdf_bytes : string) (ocr_dpi tess_psm : Z),
    let run := extract_fields_from_bytes image pdf_page_texts convert_from_bytes
                 preprocess_for_ocr image_to_string paddle_ocr_page pdf_first_page
                 partial_ratio dateparse_fuzzy in
    match run now1 pdf_bytes ocr_dpi tess_psm, run now2 pdf_bytes ocr_dpi tess_psm with
    | Ok (out1, preview1), Ok (out2, preview2) =>
        preview1 = preview2
        /\ dict_keys out1 = FIELD_NAMES
        /\ dict_keys out2 = FIELD_NAMES
        /\ (forall k, k <> "LengthOfOwnership"%string ->
                      dict_get String.eqb out1 k = dict_get String.eqb out2 k)
    | Raise e1, Raise e2 => e1 = e2
    | _, _ => False
    end
    /\ ((forall w, parse_tib_value_strict now1 dateparse_fuzzy w
                   = parse_tib_value_strict now2 dateparse_fuzzy w) ->
        run now1 pdf_bytes ocr_dpi tess_psm = run now2 pdf_bytes ocr_dpi tess_psm).
Proof.
  intros image texts convert pre i2s paddle layout pr dp now1 now2 pdf_bytes dpi psm run.
  subst run. unfold extract_fields_from_bytes.
  destruct (acquire_text image texts convert pre i2s paddle pdf_bytes dpi psm)
    as [[text use_ocr]|e]; cbn [bind]; [|split; reflexivity].
  set (lines := lines_from_text text). set (lower := map Str.lower lines).
  destruct (PipelineFacts.find_with_anchors_ok pr extract_fico lines lower "fico" (6 # 10) _
              eq_refl) as (fico & ->).
  cbn [bind].
  assert (exists st, resolve_state pr lines lower = Ok st) as (st & ->).
  { unfold resolve_state.
    destruct (PipelineFacts.find_with_anchors_ok pr (state_of_window lines) lines lower
                "state" (62 # 100) _ eq_refl) as (s0 & ->).
    cbn [bind]. destruct (truthy (value s0)); [|eexists; reflexivity].
    destruct (extract_state_stronger_multiline lines (evidence_line s0)) as [[? ?]|];
      eexists; reflexivity. }
  cbn [bind].
  assert (exists bn, resolve_business_name layout pr pdf_bytes (negb use_ocr) lines lower
                     = Ok bn) as (bn & ->).
  { unfold resolve_business_name.
    destruct (PipelineFacts.find_with_anchors_ok pr extract_bn_from_window lines lower
                "business_name" (72 # 100) _ eq_refl) as (b0 & ->).
    cbn [bind].
    destruct (if negb use_ocr then _ else _) as [b1 boost1].
    destruct (if negb (truthy (value b1)) || _ then _ else _) as [b2 boost2].
    destruct (value b2) as [name|]; [|eexists; reflexivity].
    destruct (Str.nonempty name); eexists; reflexivity. }
  cbn [bind].
  destruct (PipelineFacts.find_with_anchors_ok pr classify_industry lines lower "industry"
              (55 # 100) _ eq_refl) as (ind & ->).
  cbn [bind].
  unfold resolve_tib.
  destruct (PipelineFacts.find_with_anchors_ok pr (parse_tib_value_strict now1 dp) lines lower
              "tib" (6 # 10) _ eq_refl) as (t1 & Ht1).
  destruct (PipelineFacts.find_with_anchors_ok pr (parse_tib_value_strict now2 dp) lines lower
              "tib" (6 # 10) _ eq_refl) as (t2 & Ht2).
  split.
  - rewrite Ht1, Ht2. cbn. split; [reflexivity|]. split; [reflexivity|]. split; [reflexivity|].
    intros k Hk.
    destruct (String.eqb k "FICO"); [reflexivity|].
    destruct (String.eqb k "State"); [reflexivity|].
    destruct (String.eqb k "BusinessName"); [reflexivity|].
    destruct (String.eqb k "Industry"); [reflexivity|].
    destruct (String.eqb k "LengthOfOwnership") eqn:E; [|reflexivity].
    apply String.eqb_eq in E. contradiction.
  - intros Hsame.
    rewrite (PipelineFacts.find_with_anchors_ext pr _ _ lines lower "tib" (6 # 10) Hsame).
    reflexivity.
Qed.

(** C8 with two readings of the clock in the same year and a date parser
    that finds no date: the two runs of the scanned document are equal. *)
Lemma extraction_clock_dependence_witness :
  extract_scan noon_2024 = extract_scan (mkdatetime (mkdate 2024 12 31) 0).
Proof.
  refine (proj2 (extraction_clock_dependence unit scan_texts scan_pages (fun img => img)
                   scan_ocr scan_paddle scan_layout exact_ratio no_datetimes
                   noon_2024 (mkdatetime (mkdate 2024 12 31) 0)
                   "%PDF-1.4" OCR_DPI_DEFAULT TESS_PSM) _).
  intros w. unfold parse_tib_value_strict, parse_date_candidate.
  assert (forall l : list Re.rmatch,
             flat_map (fun m => match no_datetimes (Re.group_str 1 m) with
                                | Some d => if (1900 <? year (dt_date d))
                                               && datetime_leb d noon_2024
                                            then [d] else []
                                | None => []
                                end) l = []) as ->.
  { induction l; simpl; auto. }
  assert (forall l : list Re.rmatch,
             flat_map (fun m => match no_datetimes (Re.group_str 1 m) with
                                | Some d => if (1900 <? year (dt_date d))
                                               && datetime_leb d (mkdatetime (mkdate 2024 12 31) 0)
                                            then [d] else []
                                | None => []
                                end) l = []) as ->.
  { induction l; simpl; auto. }
  reflexivity.
Defined.

(** C8 with two readings of the clock a year apart: the same scanned
    document, "Established 2010", has a LengthOfOwnership of 168 months
    in June 2024 and of 180 months in June 2025. *)
Lemma extraction_clock_counterexample :
  exists out1 out2 preview,
    extract_scan noon_2024 = Ok (out1, preview)
    /\ extract_scan noon_2025 = Ok (out2, preview)
    /\ field_value out1 "LengthOfOwnership" = Some "168.0 months (14.00 years)"%string
    /\ field_value out2 "LengthOfOwnership" = Some "180.0 months (15.00 years)"%string.
Proof.
  eexists. eexists. eexists.
  split; [vm_compute; reflexivity|].
  split; [vm_compute; reflexivity|].
  split; reflexivity.
Qed.

(** * Further properties

    Account numbers, uploads, lender rules, and the parts of the two
    extractors that the properties above leave out. *)

Import Account.
Import Upload.
Import Lenders.

Import DateFacts LedgerFacts.

Module BalanceFacts.

Lemma Qsum_from (l : list Q) (a : Q) : (fold_left Qplus l a == a + Qsum l)%Q.
Proof.
  unfold Qsum. revert a. induction l as [|x l IH]; intros a; simpl.
  - lra.
  - rewrite IH. rewrite (IH (0 + x)%Q). lra.
Qed.

Lemma Qsum_cons (x : Q) (l : list Q) : (Qsum (x :: l) == x + Qsum l)%Q.
Proof. unfold Qsum at 1. simpl. rewrite Qsum_from. lra. Qed.

Lemma fold_amounts (ts : list Txn) (b : Q) :
  (fold_left (fun b t => b + amount t) ts b == b + total ts)%Q.
Proof.
  unfold total. revert b. induction ts as [|t ts IH]; intros b; simpl.
  - unfold Qsum. simpl. lra.
  - rewrite IH, Qsum_cons. lra.
Qed.

(** The group of a day holds the transactions of that day, in the order
    of the list. *)
Lemma group_by_day_get txns d :
  dict_get_default date_eqb (group_by_day txns) d []
  = filter (fun t => date_eqb (dt t) d) txns.
Proof.
  unfold group_by_day.
  assert (forall acc,
             dict_get_default date_eqb
               (fold_left (fun by_day t =>
                             dict_set date_eqb by_day (dt t)
                               (dict_get_default date_eqb by_day (dt t) [] ++ [t])%list)
                          txns acc) d []
             = (dict_get_default date_eqb acc d []
                ++ filter (fun t => date_eqb (dt t) d) txns)%list) as Hgen.
  { induction txns as [|t txns IH]; intros acc; simpl.
    - now rewrite app_nil_r.
    - rewrite IH. unfold dict_get_default at 1. rewrite dict_get_set_date.
      destruct (date_eqb (dt t) d) eqn:E.
      + apply date_eqb_eq in E. rewrite E. now rewrite <- app_assoc.
      + reflexivity. }
  rewrite Hgen. reflexivity.
Qed.

Lemma apply_day_total txns d bal :
  (apply_day (group_by_day txns) d bal
   == bal + total (filter (fun t => date_eqb (dt t) d) txns))%Q.
Proof.
  unfold apply_day. rewrite <- group_by_day_get. unfold dict_get_default.
  destruct (dict_get date_eqb (group_by_day txns) d) as [ts|].
  - apply fold_amounts.
  - unfold total, Qsum. simpl. lra.
Qed.

Lemma total_split (p q r : Txn -> bool) txns :
  (forall t, In t txns -> r t = p t || q t) ->
  (forall t, In t txns -> p t && q t = false) ->
  (total (filter r txns) == total (filter p txns) + total (filter q txns))%Q.
Proof.
  unfold total. induction txns as [|t txns IH]; intros Hr Hd; simpl.
  - unfold Qsum. simpl. lra.
  - assert (Hrt := Hr t (or_introl eq_refl)). assert (Hdt := Hd t (or_introl eq_refl)).
    specialize (IH (fun t' H => Hr t' (or_intror H)) (fun t' H => Hd t' (or_intror H))).
    rewrite Hrt. destruct (p t), (q t); simpl in *; try discriminate;
      rewrite ?Qsum_cons, IH; lra.
Qed.

Lemma total_none (r : Txn -> bool) txns :
  (forall t, In t txns -> r t = false) -> filter r txns = [].
Proof.
  induction txns as [|t txns IH]; intros H; simpl; [reflexivity|].
  rewrite (H t (or_introl eq_refl)). apply IH. intros; apply H; now right.
Qed.



(** The loop of [rebuild_daily_balances], run from [d1] to [d2] on the
    grouped transactions: the days it records and the balance of each. *)
Lemma loop_running_total txns d1 d2 bal :
  dated txns ->
  valid_date d1 = true -> valid_date d2 = true -> d2 <> date_max ->
  exists daily,
    daily_loop (Z.to_nat (days_between d2 d1 + 1)) (group_by_day txns) d1 d2 bal [] = Ok daily
    /\ NoDup (dict_keys daily)
    /\ (forall d, In d (dict_keys daily) <-> in_period d1 d2 d)
    /\ forall d, in_period d1 d2 d ->
         exists v, dict_get date_eqb daily d = Some v
                   /\ (v == bal + total (posted_through d1 d txns))%Q.
Proof.
  intros Hdated Hv1 Hv2 Hmax.
  pose proof (before_max d2 Hv2 Hmax) as Hlt.
  destruct (daily_loop_spec (group_by_day txns) d2 Hv2 Hlt
              (Z.to_nat (days_between d2 d1 + 1)) d1 bal [] Hv1)
    as (daily & Hrun & Hnd & Hkeys & _ & _ & Hfirst & Hnext).
  { unfold days_between. lia. }
  { constructor. }
  { intros k []. }
  exists daily. split; [exact Hrun|]. split; [exact Hnd|]. split.
  { intros d. rewrite Hkeys. unfold in_period. split.
    - intros [[]|(Hvd & H1 & H2)]. rewrite !date_leb_ord by assumption.
      repeat split; auto; apply Z.leb_le; lia.
    - intros (Hvd & H1 & H2). rewrite !date_leb_ord in * by assumption.
      apply Z.leb_le in H1, H2. right. auto. }
  assert (Hvt : forall t, In t txns -> valid_date (dt t) = true).
  { intros t Ht. unfold dated in Hdated. rewrite Forall_forall in Hdated. auto. }
  assert (Hind : forall n d,
             valid_date d = true -> toordinal d = toordinal d1 + Z.of_nat n ->
             toordinal d <= toordinal d2 ->
             exists v, dict_get date_eqb daily d = Some v
                       /\ (v == bal + total (posted_through d1 d txns))%Q).
  { induction n as [|n IH]; intros d Hvd Hord Hle.
    - assert (d = d1) as -> by (apply toordinal_inj; auto; lia).
      eexists. split; [apply Hfirst; lia|].
      rewrite apply_day_total. apply Qplus_inj_l.
      unfold posted_through.
      rewrite (filter_ext_in (fun t => date_eqb (dt t) d1)
                             (fun t => date_leb d1 (dt t) && date_leb (dt t) d1)).
      + reflexivity.
      + intros t Ht. specialize (Hvt t Ht).
        rewrite !date_leb_ord by assumption.
        destruct (date_eqb (dt t) d1) eqn:E.
        * apply date_eqb_eq in E. rewrite E. rewrite Z.leb_refl. reflexivity.
        * symmetry. apply andb_false_iff.
          destruct (Z.leb_spec (toordinal d1) (toordinal (dt t))); [|now left].
          right. apply Z.leb_gt.
          assert (toordinal (dt t) <> toordinal d1).
          { intros Heq. apply toordinal_inj in Heq; auto. subst.
            assert (date_eqb (dt t) (dt t) = true) by now apply date_eqb_eq.
            congruence. }
          lia.
    - assert (d <> date_min) as Hmin.
      { intros ->. pose proof (toordinal_pos d1 Hv1).
        change (toordinal date_min) with 1 in Hord. lia. }
      destruct (date_pred_spec d Hvd Hmin) as (p & _ & Hvp & Hsucc).
      destruct (date_succ_ord p d Hvp Hsucc) as [_ Hordp].
      destruct (IH p Hvp ltac:(lia) ltac:(lia)) as (vp & Hgp & Hvp_eq).
      exists (apply_day (group_by_day txns) d vp). split.
      + apply (Hnext p d vp Hvp); auto; lia.
      + rewrite apply_day_total, Hvp_eq. rewrite <- Qplus_assoc. apply Qplus_inj_l.
        symmetry. unfold posted_through. apply total_split.
        * intros t Ht. specialize (Hvt t Ht).
          rewrite !date_leb_ord by assumption.
          destruct (date_eqb (dt t) d) eqn:E.
          -- apply date_eqb_eq in E. rewrite E.
             rewrite orb_true_r. apply andb_true_iff. split; apply Z.leb_le; lia.
          -- rewrite orb_false_r.
             assert (toordinal (dt t) <> toordinal d).
             { intros Heq. apply toordinal_inj in Heq; auto. subst.
               assert (date_eqb (dt t) (dt t) = true) by now apply date_eqb_eq.
               congruence. }
             f_equal. apply Bool.eq_true_iff_eq. rewrite !Z.leb_le. lia.
        * intros t Ht. specialize (Hvt t Ht).
          rewrite !date_leb_ord by assumption.
          destruct (date_eqb (dt t) d) eqn:E; [|apply andb_false_r].
          apply date_eqb_eq in E. rewrite E. rewrite andb_true_r.
          apply andb_false_iff. right. apply Z.leb_gt. lia. }
  intros d (Hvd & Hl1 & Hl2).
  rewrite date_leb_ord in Hl1, Hl2 by assumption.
  apply Z.leb_le in Hl1, Hl2.
  apply (Hind (Z.to_nat (toordinal d - toordinal d1))); auto. lia.
Qed.

(** The earliest and the latest of a list of dates. *)
Lemma date_min_of_spec ds :
  ds <> [] -> Forall (fun d => valid_date d = true) ds ->
  exists lo, date_min_of ds = Some lo /\ In lo ds
             /\ forall d, In d ds -> toordinal lo <= toordinal d.
Proof.
  unfold date_min_of.
  assert (forall l acc,
             Forall (fun d => valid_date d = true) l ->
             valid_date acc = true ->
             exists lo, fold_left (fun acc d =>
                                     match acc with
                                     | None => Some d
                                     | Some b => if date_ltb d b then Some d else Some b
                                     end) l (Some acc) = Some lo
                        /\ (lo = acc \/ In lo l)
                        /\ toordinal lo <= toordinal acc
                        /\ forall d, In d l -> toordinal lo <= toordinal d) as Hgen.
  { induction l as [|x l IH]; intros acc Hl Ha; simpl.
    - exists acc. split; [reflexivity|]. split; [now left|]. split; [lia|]. intros d [].
    - inversion Hl; subst.
      destruct (date_ltb x acc) eqn:E.
      + rewrite date_ltb_ord in E by assumption. apply Z.ltb_lt in E.
        destruct (IH x H2 H1) as (lo & -> & Hin & Hle & Hall).
        exists lo. split; [reflexivity|]. split; [|split; [lia|]].
        * destruct Hin; [subst; right; now left|right; now right].
        * intros d [<-|Hd]; auto.
      + rewrite date_ltb_ord in E by assumption. apply Z.ltb_ge in E.
        destruct (IH acc H2 Ha) as (lo & -> & Hin & Hle & Hall).
        exists lo. split; [reflexivity|]. split; [|split; [lia|]].
        * destruct Hin; [now left|right; now right].
        * intros d [<-|Hd]; auto. lia. }
  intros Hne Hv. destruct ds as [|x l]; [contradiction|]. simpl.
  inversion Hv; subst.
  destruct (Hgen l x H2 H1) as (lo & -> & Hin & Hle & Hall).
  exists lo. split; [reflexivity|]. split.
  - destruct Hin; [subst; now left|now right].
  - intros d [<-|Hd]; auto.
Qed.

Lemma date_max_of_spec ds :
  ds <> [] -> Forall (fun d => valid_date d = true) ds ->
  exists hi, date_max_of ds = Some hi /\ In hi ds
             /\ forall d, In d ds -> toordinal d <= toordinal hi.
Proof.
  unfold date_max_of.
  assert (forall l acc,
             Forall (fun d => valid_date d = true) l ->
             valid_date acc = true ->
             exists hi, fold_left (fun acc d =>
                                     match acc with
                                     | None => Some d
                                     | Some b => if date_ltb b d then Some d else Some b
                                     end) l (Some acc) = Some hi
                        /\ (hi = acc \/ In hi l)
                        /\ toordinal acc <= toordinal hi
                        /\ forall d, In d l -> toordinal d <= toordinal hi) as Hgen.
  { induction l as [|x l IH]; intros acc Hl Ha; simpl.
    - exists acc. split; [reflexivity|]. split; [now left|]. split; [lia|]. intros d [].
    - inversion Hl; subst.
      destruct (date_ltb acc x) eqn:E.
      + rewrite date_ltb_ord in E by assumption. apply Z.ltb_lt in E.
        destruct (IH x H2 H1) as (hi & -> & Hin & Hle & Hall).
        exists hi. split; [reflexivity|]. split; [|split; [lia|]].
        * destruct Hin; [subst; right; now left|right; now right].
        * intros d [<-|Hd]; auto.
      + rewrite date_ltb_ord in E by assumption. apply Z.ltb_ge in E.
        destruct (IH acc H2 Ha) as (hi & -> & Hin & Hle & Hall).
        exists hi. split; [reflexivity|]. split; [|split; [lia|]].
        * destruct Hin; [now left|right; now right].
        * intros d [<-|Hd]; auto. lia. }
  intros Hne Hv. destruct ds as [|x l]; [contradiction|]. simpl.
  inversion Hv; subst.
  destruct (Hgen l x H2 H1) as (hi & -> & Hin & Hle & Hall).
  exists hi. split; [reflexivity|]. split.
  - destruct Hin; [subst; now left|now right].
  - intros d [<-|Hd]; auto.
Qed.

End BalanceFacts.

Import BalanceFacts.

Module PeriodOnly.

(** A day with no group and a day with an empty group are the same to
    [apply_day]. *)
Lemma apply_day_default by_day d bal :
  apply_day by_day d bal
  = fold_left (fun b t => (b + amount t)%Q) (dict_get_default date_eqb by_day d []) bal.
Proof.
  unfold apply_day, dict_get_default.
  destruct (dict_get date_eqb by_day d); reflexivity.
Qed.

(** The loop reads the groups of the days from [d] to [d2] only. *)
Lemma daily_loop_ext by_day by_day' d2 :
  valid_date d2 = true ->
  forall fuel d bal daily,
    valid_date d = true ->
    (forall k b, valid_date k = true -> toordinal d <= toordinal k <= toordinal d2 ->
                 apply_day by_day k b = apply_day by_day' k b) ->
    daily_loop fuel by_day d d2 bal daily = daily_loop fuel by_day' d d2 bal daily.
Proof.
  intros Hv2. induction fuel as [|fuel IH]; intros d bal daily Hvd Hext; cbn [daily_loop].
  - reflexivity.
  - destruct (date_leb d d2) eqn:Hle; [|reflexivity].
    rewrite date_leb_ord in Hle by assumption. apply Z.leb_le in Hle.
    rewrite (Hext d bal Hvd) by lia.
    destruct (date_succ d) as [d'|e] eqn:Hs; cbn [bind]; [|reflexivity].
    destruct (date_succ_ord d d' Hvd Hs) as [Hvd' Hord].
    apply IH; [exact Hvd'|].
    intros k b Hvk Hk. apply Hext; [exact Hvk|lia].
Qed.

(** The transactions of a day of the period are those of the day among
    the transactions of the period. *)
Lemma day_of_period d1 d2 k txns :
  valid_date d1 = true -> valid_date d2 = true -> valid_date k = true ->
  toordinal d1 <= toordinal k <= toordinal d2 ->
  filter (fun t => date_eqb (dt t) k) txns
  = filter (fun t => date_eqb (dt t) k) (posted_through d1 d2 txns).
Proof.
  intros Hv1 Hv2 Hvk Hk. unfold posted_through.
  induction txns as [|t txns IH]; cbn [filter]; [reflexivity|].
  destruct (date_eqb (dt t) k) eqn:E.
  - apply date_eqb_eq in E. rewrite E.
    rewrite !date_leb_ord by assumption.
    assert ((toordinal d1 <=? toordinal k) = true) as -> by (apply Z.leb_le; lia).
    assert ((toordinal k <=? toordinal d2) = true) as -> by (apply Z.leb_le; lia).
    cbn [andb filter]. rewrite (proj2 (date_eqb_eq (dt t) k) E). now rewrite IH.
  - destruct (date_leb d1 (dt t) && date_leb (dt t) d2); cbn [filter];
      [rewrite E|]; exact IH.
Qed.

Lemma rebuild_period_only txns txns' opening label d1 d2 :
  txns <> [] -> txns' <> [] ->
  valid_date d1 = true -> valid_date d2 = true ->
  posted_through d1 d2 txns = posted_through d1 d2 txns' ->
  rebuild_daily_balances txns opening (Some (label, d1, d2))
  = rebuild_daily_balances txns' opening (Some (label, d1, d2)).
Proof.
  intros Hne Hne' Hv1 Hv2 Heq.
  destruct txns as [|t0 txns0]; [contradiction|].
  destruct txns' as [|t0' txns0']; [contradiction|].
  unfold rebuild_daily_balances.
  apply daily_loop_ext; [exact Hv2|exact Hv1|].
  intros k b Hvk Hk. rewrite !apply_day_default, !group_by_day_get.
  rewrite (day_of_period d1 d2 k (t0 :: txns0)) by assumption.
  rewrite (day_of_period d1 d2 k (t0' :: txns0')) by assumption.
  now rewrite Heq.
Qed.

End PeriodOnly.

(** X1. With a statement period, the daily balances depend on the
    transactions dated within the period only: two transaction lists,
    neither of them empty, that hold the same transactions of the
    period in the same order give the same result, whatever else they
    hold before or after the period. *)
Theorem rebuild_daily_balances_period_only :
  forall txns txns' opening label d1 d2,
    txns <> [] -> txns' <> [] ->
    valid_date d1 = true -> valid_date d2 = true ->
    posted_through d1 d2 txns = posted_through d1 d2 txns' ->
    rebuild_daily_balances txns opening (Some (label, d1, d2))
    = rebuild_daily_balances txns' opening (Some (label, d1, d2)).
Proof.
  intros txns txns' opening label d1 d2 Hne Hne' Hv1 Hv2 Heq.
  now apply PeriodOnly.rebuild_period_only.
Qed.

Lemma rebuild_daily_balances_period_only_witness :
  rebuild_daily_balances
    [mkTxn (mkdate 2023 12 30) "old" 500 None; mkTxn (mkdate 2024 1 2) "rent" (-10) None;
     mkTxn (mkdate 2024 1 4) "sale" 25 None; mkTxn (mkdate 2024 2 1) "late" (-7) None]
    (Some 100%Q) (Some ("2024-01"%string, mkdate 2024 1 1, mkdate 2024 1 5))
  = rebuild_daily_balances
      [mkTxn (mkdate 2024 1 2) "rent" (-10) None; mkTxn (mkdate 2024 1 4) "sale" 25 None]
      (Some 100%Q) (Some ("2024-01"%string, mkdate 2024 1 1, mkdate 2024 1 5))
  /\ rebuild_daily_balances
       [mkTxn (mkdate 2024 1 2) "rent" (-10) None; mkTxn (mkdate 2024 1 4) "sale" 25 None]
       (Some 100%Q) (Some ("2024-01"%string, mkdate 2024 1 1, mkdate 2024 1 5))
     = Ok [(mkdate 2024 1 1, 100%Q); (mkdate 2024 1 2, 90%Q); (mkdate 2024 1 3, 90%Q);
           (mkdate 2024 1 4, 115%Q); (mkdate 2024 1 5, 115%Q)].
Proof.
  split; [|vm_compute; reflexivity].
  apply rebuild_daily_balances_period_only; try discriminate; reflexivity.
Defined.

(** X2. Without a statement period, [rebuild_daily_balances] walks from
    the earliest to the latest transaction date: the keys of the result
    are exactly the days between these two dates, each once. *)
Theorem rebuild_daily_balances_without_period :
  forall txns opening,
    txns <> [] -> dated txns ->
    (forall t, In t txns -> dt t <> date_max) ->
    exists daily first last,
      rebuild_daily_balances txns opening None = Ok daily
      /\ In first (map dt txns) /\ In last (map dt txns)
      /\ (forall t, In t txns ->
            date_leb first (dt t) = true /\ date_leb (dt t) last = true)
      /\ NoDup (dict_keys daily)
      /\ (forall d, In d (dict_keys daily) <-> in_period first last d).
Proof.
  intros txns opening Hne Hdated Hmax.
  assert (Hvs : Forall (fun d => valid_date d = true) (map dt txns)).
  { unfold dated in Hdated. rewrite Forall_forall in *. intros d Hd.
    apply in_map_iff in Hd. destruct Hd as (t & <- & Ht). auto. }
  assert (Hne' : map dt txns <> []) by (destruct txns; [contradiction|discriminate]).
  destruct (date_min_of_spec _ Hne' Hvs) as (lo & Hlo & Hlo_in & Hlo_le).
  destruct (date_max_of_spec _ Hne' Hvs) as (hi & Hhi & Hhi_in & Hhi_le).
  assert (Hvlo : valid_date lo = true) by (rewrite Forall_forall in Hvs; auto).
  assert (Hvhi : valid_date hi = true) by (rewrite Forall_forall in Hvs; auto).
  assert (Hhimax : hi <> date_max).
  { apply in_map_iff in Hhi_in. destruct Hhi_in as (t & <- & Ht). auto. }
  destruct (loop_running_total txns lo hi (opening_or_zero opening) Hdated Hvlo Hvhi Hhimax)
    as (daily & Hrun & Hnd & Hkeys & Hval).
  assert (Hin : forall t, In t txns ->
                          date_leb lo (dt t) = true /\ date_leb (dt t) hi = true).
  { intros t Ht. assert (In (dt t) (map dt txns)) as Hd by now apply in_map.
    assert (valid_date (dt t) = true) by (rewrite Forall_forall in Hvs; auto).
    rewrite !date_leb_ord by assumption. split; apply Z.leb_le; auto. }
  exists daily, lo, hi. split.
  { destruct txns as [|t0 txns0]; [contradiction|].
    unfold rebuild_daily_balances. rewrite Hlo, Hhi. exact Hrun. }
  repeat (split; [assumption|]). assumption.
Qed.

Lemma rebuild_daily_balances_without_period_witness :
  exists daily first last,
    rebuild_daily_balances
      [mkTxn (mkdate 2024 1 4) "sale" 25 None; mkTxn (mkdate 2024 1 2) "rent" (-10) None]
      None None = Ok daily
    /\ In first (map dt [mkTxn (mkdate 2024 1 4) "sale" 25 None;
                         mkTxn (mkdate 2024 1 2) "rent" (-10) None])
    /\ In last (map dt [mkTxn (mkdate 2024 1 4) "sale" 25 None;
                        mkTxn (mkdate 2024 1 2) "rent" (-10) None])
    /\ (forall t, In t [mkTxn (mkdate 2024 1 4) "sale" 25 None;
                        mkTxn (mkdate 2024 1 2) "rent" (-10) None] ->
          date_leb first (dt t) = true /\ date_leb (dt t) last = true)
    /\ NoDup (dict_keys daily)
    /\ (forall d, In d (dict_keys daily) <-> in_period first last d).
Proof.
  apply (rebuild_daily_balances_without_period
           [mkTxn (mkdate 2024 1 4) "sale" 25 None; mkTxn (mkdate 2024 1 2) "rent" (-10) None]
           None).
  - discriminate.
  - repeat constructor.
  - intros t [<-|[<-|[]]]; discriminate.
Defined.

Import DateFacts LedgerFacts MonthFacts.

Module PeriodFacts.

Lemma month_end_spec y mo d :
  1 <= y <= 9999 -> 1 <= mo <= 12 ->
  month_end y mo = Ok d -> d = mkdate y mo (days_in_month y mo).
Proof.
  intros Hy Hmo. unfold month_end, date_new.
  destruct (Z.eq_dec mo 12) as [->|Hne].
  - change (12 / 12) with 1. change (12 mod 12 + 1) with 1.
    destruct (valid_date (mkdate (y + 1) 1 1)) eqn:Hv; simpl; [|discriminate].
    unfold date_pred. simpl.
    apply valid_date_iff in Hv. simpl in Hv.
    assert ((MINYEAR <? y + 1) = true) as -> by (apply Z.ltb_lt; unfold MINYEAR; lia).
    intros [= <-]. f_equal. lia.
  - assert (mo / 12 = 0) as -> by (apply Z.div_small; lia).
    assert (mo mod 12 = mo) as -> by (apply Z.mod_small; lia).
    rewrite Z.add_0_r.
    destruct (valid_date (mkdate y (mo + 1) 1)) eqn:Hv; simpl; [|discriminate].
    unfold date_pred. simpl.
    assert ((1 <? mo + 1) = true) as -> by (apply Z.ltb_lt; lia).
    intros [= <-]. f_equal; [lia|]. f_equal. lia.
Qed.

Lemma month_end_valid y mo d :
  1 <= y <= 9999 -> 1 <= mo <= 12 ->
  month_end y mo = Ok d -> valid_date d = true.
Proof.
  intros Hy Hmo H. rewrite (month_end_spec y mo d Hy Hmo H).
  apply valid_date_iff. simpl. pose proof (days_in_month_bounds y mo). lia.
Qed.

(** What the shared body of [_month_from_filename] returns: the whole
    month of a day of the calendar. *)
Lemma month_of_ymd_spec y mo dd label d1 d2 :
  month_of_ymd y mo dd = Some (label, d1, d2) ->
  valid_date (mkdate y mo dd) = true
  /\ label = label_of y mo
  /\ d1 = mkdate y mo 1
  /\ d2 = mkdate y mo (days_in_month y mo).
Proof.
  unfold month_of_ymd, date_new.
  destruct (valid_date (mkdate y mo dd)) eqn:Hv; [|discriminate].
  destruct (valid_date (mkdate y mo 1)) eqn:Hv1; [|discriminate].
  destruct (month_end y mo) as [e|] eqn:He; [|discriminate].
  intros [= <- <- <-].
  apply valid_date_iff in Hv. simpl in Hv.
  split; [reflexivity|]. split; [reflexivity|]. split; [reflexivity|].
  apply (month_end_spec y mo e); lia || exact He.
Qed.

Lemma month_from_filename_spec filename label d1 d2 :
  _month_from_filename filename = Some (label, d1, d2) ->
  exists y mo dd,
    valid_date (mkdate y mo dd) = true
    /\ label = label_of y mo
    /\ d1 = mkdate y mo 1
    /\ d2 = mkdate y mo (days_in_month y mo).
Proof.
  unfold _month_from_filename. destruct filename as [fname|]; [|discriminate].
  destruct (negb (Str.nonempty fname)); [discriminate|].
  destruct (Re.search RE_FILE_MDY _).
  - intros H. apply month_of_ymd_spec in H. eauto.
  - destruct (Re.search RE_FILE_YMD _); [|discriminate].
    intros H. apply month_of_ymd_spec in H. eauto.
Qed.

Lemma whole_month_valid y mo dd :
  valid_date (mkdate y mo dd) = true ->
  valid_date (mkdate y mo 1) = true
  /\ valid_date (mkdate y mo (days_in_month y mo)) = true.
Proof.
  intros Hv. apply valid_date_iff in Hv. simpl in Hv.
  pose proof (days_in_month_bounds y mo).
  split; apply valid_date_iff; simpl; lia.
Qed.

Section Periods.
Variable dateparse : string -> option date.
Hypothesis dateparse_valid : forall s d, dateparse s = Some d -> valid_date d = true.



End Periods.

End PeriodFacts.

(** X3. A period that [_month_from_filename] reads off a file name is a
    whole calendar month: it runs from the first to the last day of a
    month of the calendar, both dates exist, and its label is the
    year and month of these dates, written YYYY-MM. *)
Theorem month_from_filename_whole_month :
  forall filename label d1 d2,
    _month_from_filename filename = Some (label, d1, d2) ->
    exists y mo,
      label = label_of y mo
      /\ d1 = mkdate y mo 1
      /\ d2 = mkdate y mo (days_in_month y mo)
      /\ valid_date d1 = true /\ valid_date d2 = true
      /\ is_year_month label = true.
Proof.
  intros filename label d1 d2 H.
  pose proof (month_from_filename_wf filename label d1 d2 H) as Hwf.
  apply PeriodFacts.month_from_filename_spec in H.
  destruct H as (y & mo & dd & Hv & -> & -> & ->).
  destruct (PeriodFacts.whole_month_valid y mo dd Hv).
  exists y, mo. auto 10.
Qed.

Lemma month_from_filename_whole_month_witness :
  exists y mo,
    "2024-02"%string = label_of y mo
    /\ mkdate 2024 2 1 = mkdate y mo 1
    /\ mkdate 2024 2 29 = mkdate y mo (days_in_month y mo)
    /\ valid_date (mkdate 2024 2 1) = true /\ valid_date (mkdate 2024 2 29) = true
    /\ is_year_month "2024-02" = true.
Proof.
  apply (month_from_filename_whole_month (Some "Acme - 02_15_2024.pdf"%string)).
  vm_compute. reflexivity.
Defined.



Import DateFacts LedgerFacts MonthFacts.

Module TxnFacts.

Lemma date_ltb_trans a b c :
  date_ltb a b = true -> date_ltb b c = true -> date_ltb a c = true.
Proof.
  unfold date_ltb.
  rewrite !orb_true_iff, !andb_true_iff, !orb_true_iff, !andb_true_iff,
    !Z.ltb_lt, !Z.eqb_eq.
  lia.
Qed.

Lemma string_leb_total a b : String.leb a b = true \/ String.leb b a = true.
Proof.
  unfold String.leb. rewrite (String.compare_antisym a b).
  destruct (String.compare b a); simpl; auto.
Qed.

Lemma txn_leb_total a b : txn_leb a b = true \/ txn_leb b a = true.
Proof.
  unfold txn_leb.
  destruct (date_trichotomy (dt a) (dt b)) as [H|[H|H]].
  - left. now rewrite H.
  - rewrite H.
    assert (date_eqb (dt b) (dt b) = true) as -> by now apply date_eqb_eq.
    destruct (string_leb_total (desc a) (desc b)) as [E|E]; unfold Str.leb; rewrite E;
      [left|right]; apply orb_true_r.
  - right. now rewrite H.
Qed.

Lemma txn_leb_trans a b c :
  txn_leb a b = true -> txn_leb b c = true -> txn_leb a c = true.
Proof.
  unfold txn_leb. rewrite !orb_true_iff, !andb_true_iff.
  intros [H1|[H1 L1]] [H2|[H2 L2]].
  - left. eapply date_ltb_trans; eauto.
  - apply date_eqb_eq in H2. rewrite <- H2. now left.
  - apply date_eqb_eq in H1. rewrite H1. now left.
  - apply date_eqb_eq in H1, H2. rewrite H1, H2. right. split.
    + now apply date_eqb_eq.
    + eapply StringOrder.leb_trans; eauto.
Qed.

Lemma txn_leb_dates a b : txn_leb a b = true -> date_leb (dt a) (dt b) = true.
Proof.
  unfold txn_leb, date_leb. rewrite !orb_true_iff, andb_true_iff. tauto.
Qed.

Lemma ordered_apart {A : Type} (leb : A -> A -> bool) (l : list A) :
  ordered leb l ->
  forall pre a mid b post, l = (pre ++ a :: mid ++ b :: post)%list -> leb a b = true.
Proof.
  unfold ordered. intros Hs pre. revert l Hs.
  induction pre as [|x pre IH]; intros l Hs a mid b post ->; simpl in Hs.
  - inversion Hs as [|? ? _ Hall]; subst. rewrite Forall_forall in Hall.
    apply Hall. apply in_or_app. right. now left.
  - inversion Hs; subst. eapply IH; eauto.
Qed.

Lemma fold_raise dateparse p lines e :
  fold_left (add_line dateparse p) lines (Raise e) = Raise e.
Proof. induction lines; simpl; auto. Qed.

Lemma fold_lines_ok dateparse p lines :
  (forall ln, In ln lines -> exists t, txn_of_line dateparse p ln = Ok t) ->
  forall acc, exists txns, fold_left (add_line dateparse p) lines (Ok acc) = Ok txns.
Proof.
  induction lines as [|ln lines IH]; intros Hall acc; simpl.
  - eauto.
  - destruct (Hall ln (or_introl eq_refl)) as (t & ->). simpl.
    apply IH. intros; apply Hall; now right.
Qed.

Lemma fold_lines_raise dateparse p lines :
  forall acc e,
    fold_left (add_line dateparse p) lines (Ok acc) = Raise e ->
    exists ln, In ln lines /\ txn_of_line dateparse p ln = Raise e.
Proof.
  induction lines as [|ln lines IH]; intros acc e; simpl; [discriminate|].
  destruct (txn_of_line dateparse p ln) as [t|e'] eqn:E; simpl.
  - intros H. apply IH in H. destruct H as (ln' & Hin & H). eauto.
  - rewrite fold_raise. intros [= ->]. eauto.
Qed.

Lemma in_period_year_raise p dt_raw d e :
  valid_date d = true ->
  in_period_year p dt_raw d = Raise e ->
  e = ValueError
  /\ exists label d1 d2,
       p = Some (label, d1, d2)
       /\ (valid_date d2 = true ->
           is_leap (year d2) = false /\ month d = 2 /\ day d = 29).
Proof.
  intros Hv. unfold in_period_year.
  destruct p as [[[label d1] d2]|]; [|discriminate].
  destruct (Re.search RE_4DIGITS dt_raw); [discriminate|].
  unfold date_new.
  destruct (valid_date (mkdate (year d2) (month d) (day d))) eqn:E; [discriminate|].
  intros [= <-]. split; [reflexivity|]. exists label, d1, d2. split; [reflexivity|].
  intros Hv2. apply valid_date_iff in Hv, Hv2.
  assert (~ (day d <= days_in_month (year d2) (month d))) as Hbad.
  { intros Hle. assert (valid_date (mkdate (year d2) (month d) (day d)) = true).
    { apply valid_date_iff. simpl. lia. }
    congruence. }
  unfold days_in_month in *.
  destruct (month d =? 2) eqn:E2.
  - apply Z.eqb_eq in E2.
    destruct (is_leap (year d2)); [destruct (is_leap (year d)); lia|].
    destruct (is_leap (year d)); split; auto; lia.
  - destruct ((month d =? 4) || (month d =? 6) || (month d =? 9) || (month d =? 11)); lia.
Qed.

Lemma txn_of_line_raise dateparse p ln e :
  (forall s d, dateparse s = Some d -> valid_date d = true) ->
  txn_of_line dateparse p ln = Raise e ->
  e = ValueError
  /\ exists label d1 d2,
       p = Some (label, d1, d2)
       /\ (valid_date d2 = true -> is_leap (year d2) = false).
Proof.
  intros Hdp. unfold txn_of_line.
  destruct (Re.match_ RE_TXN ln) as [m|].
  - destruct (dateparse (Re.group_str 1 m)) as [d|] eqn:Ed; [|discriminate].
    destruct (_parse_amount (Re.group_str 3 m)); [|discriminate].
    destruct (in_period_year p (Re.group_str 1 m) d) eqn:E; simpl; [discriminate|].
    intros [= <-]. apply in_period_year_raise in E; eauto.
    destruct E as (-> & label & d1 & d2 & -> & H). split; [reflexivity|].
    exists label, d1, d2. split; [reflexivity|]. intros Hv. now apply H.
  - destruct (Re.match_ RE_TXN_FLAG ln) as [m|]; [|discriminate].
    destruct (dateparse (Re.group_str 1 m)) as [d|] eqn:Ed; [|discriminate].
    destruct (_parse_amount (Re.group_str 3 m)); [|discriminate].
    destruct (in_period_year p (Re.group_str 1 m) d) eqn:E; simpl; [discriminate|].
    intros [= <-]. apply in_period_year_raise in E; eauto.
    destruct E as (-> & label & d1 & d2 & -> & H). split; [reflexivity|].
    exists label, d1, d2. split; [reflexivity|]. intros Hv. now apply H.
Qed.

End TxnFacts.

(** X5. The transactions that [parse_transactions] returns are sorted:
    of any two of them, the earlier in the list is not dated after the
    later, and where the dates are equal the descriptions are in
    order. *)
Theorem parse_transactions_sorted :
  forall (dateparse : string -> option date) text p txns opening ending,
    parse_transactions dateparse text p = Ok (txns, opening, ending) ->
    ordered txn_leb txns
    /\ forall pre a mid b post,
         txns = (pre ++ a :: mid ++ b :: post)%list ->
         date_leb (dt a) (dt b) = true
         /\ (dt a = dt b -> String.leb (desc a) (desc b) = true).
Proof.
  intros dateparse text p txns opening ending. unfold parse_transactions.
  destruct (fold_left _ (_clean_lines text) (Ok [])) as [raw|e]; simpl; [|discriminate].
  intros [= <- _ _].
  assert (Hord : ordered txn_leb (sort txn_leb raw)).
  { apply sort_ordered; [apply TxnFacts.txn_leb_total|apply TxnFacts.txn_leb_trans]. }
  split; [exact Hord|].
  intros pre a mid b post Heq.
  pose proof (TxnFacts.ordered_apart txn_leb _ Hord pre a mid b post Heq) as Hab.
  split; [now apply TxnFacts.txn_leb_dates|].
  intros Hsame. unfold txn_leb in Hab. rewrite Hsame in Hab.
  apply orb_true_iff in Hab. destruct Hab as [Hab|Hab].
  - unfold date_ltb in Hab. rewrite !Z.ltb_irrefl, !Z.eqb_refl in Hab. discriminate.
  - apply andb_true_iff in Hab. apply Hab.
Qed.

Lemma parse_transactions_sorted_witness :
  parse_transactions month_day_parser unordered_text None
  = Ok ([mkTxn (mkdate 2024 1 10) "BAKERY" (13 # 4) None;
         mkTxn (mkdate 2024 1 10) "COFFEE SHOP" (9 # 2) None;
         mkTxn (mkdate 2024 3 15) "RENT" 1200 None], None, None)
  /\ ordered txn_leb [mkTxn (mkdate 2024 1 10) "BAKERY" (13 # 4) None;
                      mkTxn (mkdate 2024 1 10) "COFFEE SHOP" (9 # 2) None;
                      mkTxn (mkdate 2024 3 15) "RENT" 1200 None]
  /\ forall pre a mid b post,
       [mkTxn (mkdate 2024 1 10) "BAKERY" (13 # 4) None;
        mkTxn (mkdate 2024 1 10) "COFFEE SHOP" (9 # 2) None;
        mkTxn (mkdate 2024 3 15) "RENT" 1200 None]
       = (pre ++ a :: mid ++ b :: post)%list ->
       date_leb (dt a) (dt b) = true
       /\ (dt a = dt b -> String.leb (desc a) (desc b) = true).
Proof.
  split; [vm_compute; reflexivity|].
  apply (parse_transactions_sorted month_day_parser unordered_text None _ None None).
  vm_compute. reflexivity.
Defined.

(** X6. With a date parser that only returns dates of the calendar,
    [parse_transactions] can only fail with a [ValueError], and only
    when it is given a period whose last day lies in a year that is not
    a leap year (a line dated 29 February is moved into that year);
    without a period, or with a period ending in a leap year, it
    returns. *)
Theorem parse_transactions_errors :
  forall (dateparse : string -> option date) text p,
    (forall s d, dateparse s = Some d -> valid_date d = true) ->
    (forall e, parse_transactions dateparse text p = Raise e ->
               e = ValueError
               /\ exists label d1 d2,
                    p = Some (label, d1, d2)
                    /\ (valid_date d2 = true -> is_leap (year d2) = false))
    /\ (p = None -> exists r, parse_transactions dateparse text p = Ok r)
    /\ (forall label d1 d2,
           p = Some (label, d1, d2) -> valid_date d2 = true ->
           is_leap (year d2) = true ->
           exists r, parse_transactions dateparse text p = Ok r).
Proof.
  intros dateparse text p Hdp.
  assert (Hraise : forall e, parse_transactions dateparse text p = Raise e ->
                             e = ValueError
                             /\ exists label d1 d2,
                                  p = Some (label, d1, d2)
                                  /\ (valid_date d2 = true -> is_leap (year d2) = false)).
  { intros e. unfold parse_transactions.
    change (fold_left _ (_clean_lines text) (Ok []))
      with (fold_left (add_line dateparse p) (_clean_lines text) (Ok [])).
    destruct (fold_left (add_line dateparse p) (_clean_lines text) (Ok []))
      as [raw|e'] eqn:E; simpl; [discriminate|].
    intros [= <-]. apply TxnFacts.fold_lines_raise in E.
    destruct E as (ln & _ & E). eapply TxnFacts.txn_of_line_raise; eauto. }
  split; [exact Hraise|]. split.
  - intros ->. destruct (parse_transactions dateparse text None) as [r|e] eqn:E; [eauto|].
    destruct (Hraise e eq_refl) as (_ & ? & ? & ? & [=] & _).
  - intros label d1 d2 -> Hv Hleap.
    destruct (parse_transactions dateparse text (Some (label, d1, d2))) as [r|e] eqn:E;
      [eauto|].
    destruct (Hraise e eq_refl) as (_ & ? & ? & ? & [= <- <- <-] & H).
    specialize (H Hv). congruence.
Qed.

Lemma parse_transactions_errors_witness :
  (exists r, parse_transactions leap_day_parser leap_day_text
               (Some ("2024-02"%string, mkdate 2024 2 1, mkdate 2024 2 29)) = Ok r)
  /\ parse_transactions leap_day_parser leap_day_text
       (Some ("2023-02"%string, mkdate 2023 2 1, mkdate 2023 2 28)) = Raise ValueError.
Proof.
  split.
  - apply (proj2 (proj2 (parse_transactions_errors leap_day_parser leap_day_text
                           (Some ("2024-02"%string, mkdate 2024 2 1, mkdate 2024 2 29))
                           ltac:(unfold leap_day_parser; intros s d [= <-]; reflexivity)))
             "2024-02"%string (mkdate 2024 2 1) (mkdate 2024 2 29));
      reflexivity.
  - vm_compute. reflexivity.
Defined.

Import DateFacts LedgerFacts MonthFacts MonthlyFacts BalanceFacts.

Module DepositFacts.

Lemma append_assoc (a b c : string) : ((a ++ b) ++ c = a ++ (b ++ c))%string.
Proof. induction a as [|x a IH]; simpl; [reflexivity|]. now rewrite IH. Qed.

Lemma contains_longer k x s :
  Str.contains (k ++ x) s = true -> Str.contains k s = true.
Proof.
  intros H. apply StrFacts.contains_spec in H. apply StrFacts.contains_spec.
  destruct H as (pre & post & ->). exists pre, (x ++ post)%string.
  now rewrite append_assoc.
Qed.

Lemma excluded_deposit_spec t :
  excluded_deposit t = Str.contains "zelle" (Str.lower (desc t)).
Proof.
  unfold excluded_deposit, EXCLUDE_DEPOSIT_KEYWORDS. cbn [existsb].
  rewrite orb_false_r. set (low := Str.lower (desc t)).
  destruct (Str.contains "zelle" low) eqn:E; [reflexivity|].
  destruct (Str.contains ("zelle" ++ String "194" (String "174" "")) low) eqn:E2;
    [|reflexivity].
  apply contains_longer in E2. congruence.
Qed.

Lemma count_txn_deposits acc t k :
  (dict_get_default String.eqb (deposits_of (count_txn acc t)) k 0
   == dict_get_default String.eqb (deposits_of acc) k 0
      + (if in_month k t && is_deposit t then amount t else 0))%Q.
Proof.
  destruct acc as [[debits credits] deposits].
  unfold count_txn, in_month, is_deposit, is_credit, deposits_of, add_to.
  rewrite <- excluded_deposit_spec.
  destruct (Qltb (amount t) 0) eqn:Hd; simpl.
  - assert (Qltb 0 (amount t) = false) as ->.
    { apply (debit_not_credit t). exact Hd. }
    rewrite andb_false_r. lra.
  - destruct (Qltb 0 (amount t)); simpl; [|rewrite andb_false_r; lra].
    destruct (excluded_deposit t); simpl; [rewrite andb_false_r; lra|].
    rewrite get_default_set, andb_true_r.
    destruct (String.eqb (month_key (dt t)) k) eqn:E; [|lra].
    apply String.eqb_eq in E. subst. reflexivity.
Qed.

Lemma fold_deposits txns : forall acc k,
  (dict_get_default String.eqb (deposits_of (fold_left count_txn txns acc)) k 0
   == dict_get_default String.eqb (deposits_of acc) k 0
      + total (filter (fun t => in_month k t && is_deposit t) txns))%Q.
Proof.
  induction txns as [|t txns IH]; intros acc k; simpl.
  - unfold total, Qsum. simpl. lra.
  - rewrite IH, count_txn_deposits.
    destruct (in_month k t && is_deposit t); simpl.
    + unfold total. simpl. rewrite Qsum_cons. lra.
    + lra.
Qed.

End DepositFacts.

Module DepositMore.

(** A month is in the table of deposits when it was there or the
    transaction is a deposit of the month. *)
Lemma count_txn_key acc t k :
  dict_get String.eqb (deposits_of (count_txn acc t)) k = None
  <-> dict_get String.eqb (deposits_of acc) k = None
      /\ in_month k t && is_deposit t = false.
Proof.
  destruct acc as [[debits credits] deposits].
  unfold count_txn, in_month, is_deposit, is_credit, deposits_of, add_to.
  rewrite <- DepositFacts.excluded_deposit_spec.
  destruct (Qltb (amount t) 0) eqn:Hd; cbn [snd fst].
  - assert (Qltb 0 (amount t) = false) as ->.
    { apply (debit_not_credit t). exact Hd. }
    rewrite andb_false_r. tauto.
  - destruct (Qltb 0 (amount t)); cbn [snd fst negb andb];
      [|rewrite andb_false_r; tauto].
    destruct (excluded_deposit t); cbn [negb andb snd]; [rewrite andb_false_r; tauto|].
    rewrite PositionFacts.get_set_string, andb_true_r.
    destruct (String.eqb (month_key (dt t)) k).
    + split; [discriminate|intros [_ H]; discriminate].
    + tauto.
Qed.

Lemma fold_key txns : forall acc k,
  dict_get String.eqb (deposits_of (fold_left count_txn txns acc)) k = None
  <-> dict_get String.eqb (deposits_of acc) k = None
      /\ filter (fun t => in_month k t && is_deposit t) txns = [].
Proof.
  induction txns as [|t txns IH]; intros acc k; cbn [fold_left filter].
  - tauto.
  - rewrite IH, count_txn_key.
    destruct (in_month k t && is_deposit t).
    + split; [intros [[_ H] _]; discriminate|intros [_ H]; discriminate].
    + tauto.
Qed.

(** A sum of amounts that are not negative is at least each of them. *)
Lemma total_at_least (ts : list Txn) :
  (forall t, In t ts -> (0 <= amount t)%Q) ->
  (0 <= total ts)%Q /\ forall t, In t ts -> (amount t <= total ts)%Q.
Proof.
  unfold total. induction ts as [|a ts IH]; intros Hpos; cbn [map].
  - split; [unfold Qsum; cbn [fold_left]; apply Qle_refl|intros t []].
  - pose proof (Qsum_cons (amount a) (map amount ts)) as E.
    destruct IH as [H0 Hle]; [intros t Ht; apply Hpos; now right|].
    pose proof (Hpos a (or_introl eq_refl)) as Ha.
    split; [lra|]. intros t [<-|Ht]; [lra|]. specialize (Hle t Ht). lra.
Qed.

End DepositMore.

(** X7. For every month, the tables of
    [compute_monthly_counts_and_deposits] hold the number of debits of
    the month and the number of its credits; the table of deposits has
    an entry for the month exactly when the month has a credit whose
    description does not mention Zelle in any case, and that entry is
    at least each such credit of the month. *)
Theorem monthly_counts_and_deposits_spec :
  forall txns k,
    let '(debit_counts, credit_counts, monthly_deposits) :=
      compute_monthly_counts_and_deposits txns in
    dict_get_default String.eqb debit_counts k 0
    = count_where (fun t => in_month k t && is_debit t) txns
    /\ dict_get_default String.eqb credit_counts k 0
       = count_where (fun t => in_month k t && is_credit t) txns
    /\ (dict_get String.eqb monthly_deposits k = None
        <-> filter (fun t => in_month k t && is_deposit t) txns = [])
    /\ (forall v t,
           dict_get String.eqb monthly_deposits k = Some v ->
           In t txns -> in_month k t && is_deposit t = true ->
           (0 < amount t <= v)%Q).
Proof.
  intros txns k.
  pose proof (fold_counts txns ([], [], []) k) as [Hd Hc].
  pose proof (DepositFacts.fold_deposits txns ([], [], []) k) as Hm.
  pose proof (DepositMore.fold_key txns ([], [], []) k) as Hk.
  unfold compute_monthly_counts_and_deposits.
  destruct (fold_left count_txn txns ([], [], [])) as [[debits credits] deposits].
  unfold debits_of, credits_of, deposits_of in *. cbn [fst snd] in *.
  split; [simpl in Hd; lia|]. split; [simpl in Hc; lia|]. split.
  - rewrite Hk. simpl. tauto.
  - intros v t Hv Hin Hdep.
    unfold dict_get_default in Hm. rewrite Hv in Hm. simpl in Hm.
    set (ds := filter (fun t => in_month k t && is_deposit t) txns) in *.
    assert (forall x, In x ds -> (0 < amount x)%Q) as Hpos.
    { intros x Hx. apply filter_In in Hx. destruct Hx as [_ Hx].
      apply andb_true_iff in Hx. destruct Hx as [_ Hx].
      unfold is_deposit in Hx. apply andb_true_iff in Hx. destruct Hx as [Hx _].
      unfold is_credit in Hx. now apply Qltb_lt in Hx. }
    assert (In t ds) as Ht by (apply filter_In; auto).
    destruct (DepositMore.total_at_least ds) as [_ Hle].
    { intros x Hx. apply Qlt_le_weak. now apply Hpos. }
    specialize (Hle t Ht). specialize (Hpos t Ht). lra.
Qed.

Import DateFacts LedgerFacts MonthFacts PositionFacts.

Module OrderFacts.

Section Unique.
Context {A : Type} (leb : A -> A -> bool).
Hypothesis leb_total : forall a b, leb a b = true \/ leb b a = true.
Hypothesis leb_trans : forall a b c, leb a b = true -> leb b c = true -> leb a c = true.
Hypothesis leb_antisym : forall a b, leb a b = true -> leb b a = true -> a = b.

(** Two ordered lists with the same elements are equal. *)
Lemma ordered_perm_eq (l1 l2 : list A) :
  ordered leb l1 -> ordered leb l2 -> Permutation l1 l2 -> l1 = l2.
Proof.
  unfold ordered. revert l2. induction l1 as [|a l1 IH]; intros l2 H1 H2 Hp.
  - apply Permutation_nil in Hp. now subst.
  - destruct l2 as [|b l2].
    { apply Permutation_sym, Permutation_nil in Hp. discriminate. }
    inversion H1 as [|? ? Hs1 Ha]; subst. inversion H2 as [|? ? Hs2 Hb]; subst.
    rewrite Forall_forall in Ha, Hb.
    assert (a = b) as ->.
    { assert (In a (b :: l2)) as Hina by (apply (Permutation_in _ Hp); now left).
      assert (In b (a :: l1)) as Hinb
          by (apply (Permutation_in _ (Permutation_sym Hp)); now left).
      destruct Hina as [->|Hina]; [reflexivity|].
      destruct Hinb as [->|Hinb]; [reflexivity|].
      apply leb_antisym; auto. }
    f_equal. apply IH; auto. eapply Permutation_cons_inv; eauto.
Qed.

Lemma sort_perm_eq (l1 l2 : list A) :
  Permutation l1 l2 -> sort leb l1 = sort leb l2.
Proof.
  intros Hp. apply ordered_perm_eq.
  - now apply sort_ordered.
  - now apply sort_ordered.
  - rewrite !sort_perm. exact Hp.
Qed.

End Unique.

Lemma date_leb_total a b : date_leb a b = true \/ date_leb b a = true.
Proof.
  unfold date_leb. destruct (date_trichotomy a b) as [H|[H|H]].
  - left. now rewrite H.
  - subst. left. apply orb_true_iff. right. now apply date_eqb_eq.
  - right. now rewrite H.
Qed.

Lemma date_leb_trans a b c :
  date_leb a b = true -> date_leb b c = true -> date_leb a c = true.
Proof.
  unfold date_leb. rewrite !orb_true_iff. intros [H1|H1] [H2|H2].
  - left. eapply TxnFacts.date_ltb_trans; eauto.
  - apply date_eqb_eq in H2. subst. now left.
  - apply date_eqb_eq in H1. subst. now left.
  - apply date_eqb_eq in H1, H2. subst. right. now apply date_eqb_eq.
Qed.

Lemma date_leb_antisym a b : date_leb a b = true -> date_leb b a = true -> a = b.
Proof.
  unfold date_leb. rewrite !orb_true_iff. intros [H1|H1] [H2|H2];
    try (now apply date_eqb_eq); try (symmetry; now apply date_eqb_eq).
  exfalso. revert H1 H2. unfold date_ltb.
  rewrite !orb_true_iff, !andb_true_iff, !orb_true_iff, !andb_true_iff,
    !Z.ltb_lt, !Z.eqb_eq.
  lia.
Qed.

Lemma classify_perm ds ds' : Permutation ds ds' -> classify ds = classify ds'.
Proof.
  intros Hp. unfold classify.
  rewrite (Permutation_length Hp).
  rewrite (sort_perm_eq date_leb date_leb_total date_leb_trans date_leb_antisym ds ds' Hp).
  reflexivity.
Qed.

Lemma occurrences_perm n txns txns' :
  Permutation txns txns' -> Permutation (occurrences n txns) (occurrences n txns').
Proof.
  intros Hp. unfold occurrences. apply Permutation_map.
  induction Hp; simpl.
  - constructor.
  - destruct (String.eqb _ n); [now constructor|assumption].
  - destruct (String.eqb (_normalize_desc (desc y)) n),
             (String.eqb (_normalize_desc (desc x)) n);
      try reflexivity. apply perm_swap.
  - etransitivity; eauto.
Qed.

Lemma cadence_of_perm n txns txns' :
  Permutation txns txns' -> cadence_of n txns = cadence_of n txns'.
Proof.
  intros Hp. unfold cadence_of. destruct (eligible n); [|reflexivity].
  apply classify_perm. now apply occurrences_perm.
Qed.

Lemma strictly_sorted_lt a l :
  strictly_sorted (a :: l) -> forall x, In x l -> String.ltb a x = true.
Proof.
  unfold strictly_sorted. intros H x Hx. inversion H as [|? ? _ Hall]; subst.
  rewrite Forall_forall in Hall. auto.
Qed.

Lemma ltb_irrefl a : String.ltb a a = false.
Proof.
  unfold String.ltb. pose proof (String.compare_antisym a a) as H.
  destruct (String.compare a a); simpl in H; try discriminate; reflexivity.
Qed.

Lemma ltb_asym a b : String.ltb a b = true -> String.ltb b a = true -> False.
Proof.
  unfold String.ltb. rewrite (String.compare_antisym b a).
  intros H1 H2. destruct (String.compare a b); simpl in *; discriminate.
Qed.

Lemma strictly_sorted_NoDup l : strictly_sorted l -> NoDup l.
Proof.
  unfold strictly_sorted. induction 1 as [|a l Hs IH Hall]; constructor; auto.
  intros Hin. rewrite Forall_forall in Hall. specialize (Hall a Hin).
  rewrite ltb_irrefl in Hall. discriminate.
Qed.

(** Two strictly increasing lists with the same elements are equal. *)
Lemma strictly_sorted_ext l1 : forall l2,
  strictly_sorted l1 -> strictly_sorted l2 ->
  (forall x, In x l1 <-> In x l2) -> l1 = l2.
Proof.
  induction l1 as [|a l1 IH]; intros l2 H1 H2 Hiff.
  - destruct l2 as [|b l2]; [reflexivity|].
    exfalso. apply (Hiff b). now left.
  - destruct l2 as [|b l2].
    { exfalso. apply (Hiff a). now left. }
    assert (a = b) as ->.
    { assert (In a (b :: l2)) as Ha by (apply Hiff; now left).
      assert (In b (a :: l1)) as Hb by (apply Hiff; now left).
      destruct Ha as [->|Ha]; [reflexivity|].
      destruct Hb as [->|Hb]; [reflexivity|].
      exfalso. apply (ltb_asym a b).
      - now apply (strictly_sorted_lt a l1).
      - now apply (strictly_sorted_lt b l2). }
    f_equal. apply IH.
    + unfold strictly_sorted in *. now inversion H1.
    + unfold strictly_sorted in *. now inversion H2.
    + pose proof (strictly_sorted_NoDup _ H1) as N1.
      pose proof (strictly_sorted_NoDup _ H2) as N2.
      inversion N1; inversion N2; subst.
      intros x. split; intros Hx.
      * assert (In x (b :: l2)) as [->|] by (apply Hiff; now right); [contradiction|assumption].
      * assert (In x (b :: l1)) as [->|] by (apply Hiff; now right); [contradiction|assumption].
Qed.

(** The list of the five least names of a property is unique. *)
Lemma least_five_unique top1 top2 (P : string -> Prop) :
  least_five top1 P -> least_five top2 P -> top1 = top2.
Proof.
  assert (Hhalf : forall t1 t2, least_five t1 P -> least_five t2 P ->
                                forall n, In n t1 -> In n t2).
  { intros t1 t2 (S1 & L1 & I1 & A1) (S2 & L2 & I2 & A2) n Hn.
    destruct (A2 n (I1 n Hn)) as [Hin|[Hlen Hall]]; [assumption|].
    exfalso.
    assert (incl t2 t1) as Hincl.
    { intros m Hm. destruct (A1 m (I2 m Hm)) as [Hin|[_ Hall1]]; [assumption|].
      exfalso. apply (ltb_asym m n); auto. }
    assert (incl t1 t2) as Hback.
    { apply NoDup_length_incl; [now apply strictly_sorted_NoDup|lia|assumption]. }
    specialize (Hall n (Hback n Hn)). rewrite ltb_irrefl in Hall. discriminate. }
  intros H1 H2. apply strictly_sorted_ext.
  - apply H1.
  - apply H2.
  - intros x. split; eapply Hhalf; eauto.
Qed.

Lemma detect_positions_least txns :
  least_five (fst (detect_positions txns)) (fun n => cadence_of n txns = Some Daily)
  /\ least_five (snd (detect_positions txns)) (fun n => cadence_of n txns = Some Weekly).
Proof.
  unfold detect_positions. cbn [fst snd]. split.
  - eapply least_five_iff; [|apply topk_least_five]. intros n. apply names_with_spec.
  - eapply least_five_iff; [|apply topk_least_five]. intros n. apply names_with_spec.
Qed.

End OrderFacts.

(** X8. [detect_positions] does not depend on the order of the
    transactions it is given: a rearranged list gives the same daily
    and weekly names. *)
Theorem detect_positions_order_independent :
  forall txns txns',
    Permutation txns txns' -> detect_positions txns' = detect_positions txns.
Proof.
  intros txns txns' Hp.
  destruct (OrderFacts.detect_positions_least txns) as [Hd Hw].
  destruct (OrderFacts.detect_positions_least txns') as [Hd' Hw'].
  rewrite (surjective_pairing (detect_positions txns')).
  rewrite (surjective_pairing (detect_positions txns)).
  f_equal.
  - apply (OrderFacts.least_five_unique _ _ (fun n => cadence_of n txns = Some Daily));
      [|assumption].
    eapply least_five_iff; [|exact Hd'].
    intros n. cbv beta. now rewrite (OrderFacts.cadence_of_perm n txns txns' Hp).
  - apply (OrderFacts.least_five_unique _ _ (fun n => cadence_of n txns = Some Weekly));
      [|assumption].
    eapply least_five_iff; [|exact Hw'].
    intros n. cbv beta. now rewrite (OrderFacts.cadence_of_perm n txns txns' Hp).
Qed.

Lemma detect_positions_order_independent_witness :
  detect_positions [mkTxn (mkdate 2024 1 15) "Gym Fee" (-(30 # 1))%Q None;
                    mkTxn (mkdate 2024 1 1) "Gym Fee" (-(30 # 1))%Q None;
                    mkTxn (mkdate 2024 1 8) "Gym Fee" (-(30 # 1))%Q None]
  = detect_positions [mkTxn (mkdate 2024 1 1) "Gym Fee" (-(30 # 1))%Q None;
                      mkTxn (mkdate 2024 1 15) "Gym Fee" (-(30 # 1))%Q None;
                      mkTxn (mkdate 2024 1 8) "Gym Fee" (-(30 # 1))%Q None].
Proof.
  apply detect_positions_order_independent. apply perm_swap.
Defined.

(** X9. On transactions with ASCII descriptions, a name that
    [detect_positions] lists, as daily or as weekly, is the normalised
    description of a transaction of the input, has at
    least four characters, is not a skipped name, occurs at least three
    times, and is not listed as both daily and weekly. *)
Theorem detect_positions_sound :
  forall txns n,
    Forall (fun t => is_ascii (desc t) = true) txns ->
    In n (fst (detect_positions txns)) \/ In n (snd (detect_positions txns)) ->
    eligible n = true
    /\ (3 <= List.length (occurrences n txns))%nat
    /\ (exists t, In t txns /\ _normalize_desc (desc t) = n)
    /\ ~ (In n (fst (detect_positions txns)) /\ In n (snd (detect_positions txns))).
Proof.
  intros txns n _ Hn.
  destruct (OrderFacts.detect_positions_least txns)
    as [(_ & _ & Hd & _) (_ & _ & Hw & _)].
  assert (exists c, cadence_of n txns = Some c) as (c & Hc).
  { destruct Hn as [Hn|Hn]; [exists Daily|exists Weekly]; auto. }
  unfold cadence_of in Hc. destruct (eligible n) eqn:El; [|discriminate].
  assert (3 <= List.length (occurrences n txns))%nat as Hlen.
  { unfold classify in Hc.
    destruct (List.length (occurrences n txns) <? 3)%nat eqn:E; [discriminate|].
    apply Nat.ltb_ge in E. exact E. }
  split; [reflexivity|]. split; [exact Hlen|]. split.
  - destruct (occurrences n txns) as [|d occ] eqn:Eo; [simpl in Hlen; lia|].
    assert (In d (occurrences n txns)) as Hin by (rewrite Eo; now left).
    unfold occurrences in Hin. apply in_map_iff in Hin.
    destruct Hin as (t & _ & Ht). apply filter_In in Ht. destruct Ht as [Ht E].
    apply String.eqb_eq in E. eauto.
  - intros [H1 H2]. specialize (Hd n H1). specialize (Hw n H2). congruence.
Qed.

Lemma detect_positions_sound_witness :
  eligible "gym fee" = true
  /\ (3 <= List.length (occurrences "gym fee" gym_fees))%nat
  /\ (exists t, In t gym_fees /\ _normalize_desc (desc t) = "gym fee"%string)
  /\ ~ (In "gym fee"%string (fst (detect_positions gym_fees))
        /\ In "gym fee"%string (snd (detect_positions gym_fees))).
Proof.
  apply (detect_positions_sound gym_fees "gym fee"%string).
  - repeat constructor.
  - right. vm_compute. left. reflexivity.
Defined.

Import DateFacts LedgerFacts BalanceFacts.

Module RoundFacts.

Lemma round_half_even_mono p q :
  (p <= q)%Q -> round_half_even p <= round_half_even q.
Proof.
  intros Hpq. unfold round_half_even.
  pose proof (Qfloor_le p) as Hp1. pose proof (Qlt_floor p) as Hp2.
  pose proof (Qfloor_le q) as Hq1. pose proof (Qlt_floor q) as Hq2.
  pose proof (Qfloor_resp_le p q Hpq) as Hfl.
  remember (Qfloor p) as fp. remember (Qfloor q) as fq.
  assert (inject_Z (fp + 1) == inject_Z fp + 1)%Q as Hfp1
      by (rewrite inject_Z_plus; reflexivity).
  assert (inject_Z (fq + 1) == inject_Z fq + 1)%Q as Hfq1
      by (rewrite inject_Z_plus; reflexivity).
  rewrite Hfp1 in Hp2. rewrite Hfq1 in Hq2.
  clear Heqfp Heqfq Hfp1 Hfq1.
  destruct (Z.eq_dec fp fq) as [Heq|Hne].
  - subst fq.
    destruct (Qcompare (p - inject_Z fp) (1 # 2)) eqn:Ep;
      destruct (Qcompare (q - inject_Z fp) (1 # 2)) eqn:Eq;
      first [apply Qeq_alt in Ep | apply Qlt_alt in Ep | apply Qgt_alt in Ep];
      first [apply Qeq_alt in Eq | apply Qlt_alt in Eq | apply Qgt_alt in Eq];
      try (destruct (Z.even fp)); try lia; exfalso; lra.
  - assert (fp + 1 <= fq) by lia.
    destruct (Qcompare (p - inject_Z fp) (1 # 2));
      destruct (Qcompare (q - inject_Z fq) (1 # 2));
      try (destruct (Z.even fp)); try (destruct (Z.even fq)); lia.
Qed.

Lemma round_half_even_Qeq p q : (p == q)%Q -> round_half_even p = round_half_even q.
Proof.
  intros H. apply Z.le_antisymm; apply round_half_even_mono; rewrite H; apply Qle_refl.
Qed.

Lemma round_nd_mono nd p q : (p <= q)%Q -> (round_nd nd p <= round_nd nd q)%Q.
Proof.
  intros H. unfold round_nd. rewrite !Qred_correct.
  set (scale := 10 ^ Z.of_nat nd).
  assert (0 < scale) as Hs by (apply Z.pow_pos_nonneg; lia).
  assert (round_half_even (p * inject_Z scale) <= round_half_even (q * inject_Z scale)) as Hr.
  { apply round_half_even_mono. apply Qmult_le_compat_r; [assumption|].
    change 0%Q with (inject_Z 0). rewrite <- Zle_Qle. lia. }
  unfold Qle. simpl. apply Z.mul_le_mono_nonneg_r; lia.
Qed.

Lemma round_nd_Qeq nd p q : (p == q)%Q -> round_nd nd p = round_nd nd q.
Proof.
  intros H. unfold round_nd. f_equal. f_equal.
  apply round_half_even_Qeq. now rewrite H.
Qed.

Lemma round_nd_int nd (z : Z) : (round_nd nd (inject_Z z) == inject_Z z)%Q.
Proof.
  unfold round_nd. rewrite Qred_correct.
  set (scale := 10 ^ Z.of_nat nd).
  assert (0 < scale) as Hs by (apply Z.pow_pos_nonneg; lia).
  assert (round_half_even (inject_Z z * inject_Z scale) = z * scale) as ->.
  { rewrite <- inject_Z_mult. unfold round_half_even.
    rewrite Qfloor_Z.
    assert (inject_Z (z * scale) - inject_Z (z * scale) == 0)%Q as E by lra.
    destruct (Qcompare (inject_Z (z * scale) - inject_Z (z * scale)) (1 # 2)) eqn:C.
    - apply Qeq_alt in C. lra.
    - reflexivity.
    - apply Qgt_alt in C. lra. }
  unfold Qeq, inject_Z. simpl. rewrite Z2Pos.id by lia. lia.
Qed.

Lemma Qlen_pos {A : Type} (l : list A) : l <> [] -> (0 < Qlen l)%Q.
Proof.
  intros H. unfold Qlen. change 0%Q with (inject_Z 0). rewrite <- Zlt_Qlt.
  destruct l; [contradiction|]. simpl. lia.
Qed.

Lemma Qlen_cons {A : Type} (x : A) (l : list A) : (Qlen (x :: l) == 1 + Qlen l)%Q.
Proof.
  unfold Qlen. cbn [List.length]. rewrite Nat2Z.inj_succ, <- Z.add_1_l, inject_Z_plus.
  reflexivity.
Qed.

End RoundFacts.

Module MeanFacts.
Import RoundFacts.

Lemma Qsum_lower (l : list Q) (lo : Q) :
  (forall v, In v l -> lo <= v)%Q -> (Qlen l * lo <= Qsum l)%Q.
Proof.
  induction l as [|x l IH]; intros H.
  - unfold Qsum, Qlen. simpl. change (inject_Z 0) with 0%Q. lra.
  - rewrite Qsum_cons, Qlen_cons.
    specialize (IH (fun v Hv => H v (or_intror Hv))).
    pose proof (H x (or_introl eq_refl)). lra.
Qed.

Lemma mean_lower (l : list Q) (lo : Q) :
  l <> [] -> (forall v, In v l -> lo <= v)%Q -> (lo <= Qsum l / Qlen l)%Q.
Proof.
  intros Hne H. apply Qle_shift_div_l; [now apply Qlen_pos|].
  pose proof (Qsum_lower l lo H). lra.
Qed.

Lemma count_negative_none (daily : dict date Q) :
  count_negative_days daily = 0 -> forall v, In v (dict_values daily) -> (0 <= v)%Q.
Proof.
  unfold count_negative_days. intros H v Hv.
  destruct (Qltb v 0) eqn:E.
  - assert (In v (filter (fun v => Qltb v 0) (dict_values daily))) as Hin
        by (apply filter_In; auto).
    destruct (filter (fun v => Qltb v 0) (dict_values daily)); [contradiction|].
    simpl in H. lia.
  - unfold Qltb in E. apply negb_false_iff, Qle_bool_iff in E. exact E.
Qed.

End MeanFacts.

(** X11. [average_daily_balance] has no result exactly on an empty
    table.  A negative average comes with at least one negative day,
    and [count_negative_days] is between zero and the number of
    days. *)
Theorem negative_average_has_negative_day :
  forall (daily : dict date Q),
    (average_daily_balance daily = None <-> daily = [])
    /\ (forall r, average_daily_balance daily = Some r -> (r < 0)%Q ->
                  1 <= count_negative_days daily)
    /\ 0 <= count_negative_days daily <= Z.of_nat (List.length daily).
Proof.
  intros daily. split; [|split].
  - unfold average_daily_balance. destruct daily; split; intros; try discriminate; reflexivity.
  - intros r Hr Hneg.
    destruct (Z.eq_dec (count_negative_days daily) 0) as [Hz|Hnz].
    + exfalso. pose proof (MeanFacts.count_negative_none daily Hz) as Hall.
      unfold average_daily_balance in Hr.
      destruct daily as [|kv d0] eqn:Ed; [discriminate|]. rewrite <- Ed in *.
      injection Hr as <-.
      assert (dict_values daily <> []) as Hne by (rewrite Ed; discriminate).
      assert (Qlen daily = Qlen (dict_values daily)) as E
          by (unfold Qlen, dict_values; now rewrite length_map).
      rewrite E in Hneg.
      pose proof (MeanFacts.mean_lower _ 0 Hne Hall) as Hm.
      pose proof (RoundFacts.round_nd_mono 2 _ _ Hm) as Hr.
      change (round_nd 2 0) with 0%Q in Hr. unfold round2 in Hneg. lra.
    + unfold count_negative_days in *. lia.
  - unfold count_negative_days, dict_values. split; [lia|].
    apply inj_le. etransitivity; [apply filter_length_le|]. now rewrite length_map.
Qed.

Lemma negative_average_has_negative_day_witness :
  average_daily_balance [(mkdate 2024 1 1, 20%Q); (mkdate 2024 1 2, (-50)%Q)]
  = Some (-15)%Q
  /\ 1 <= count_negative_days [(mkdate 2024 1 1, 20%Q); (mkdate 2024 1 2, (-50)%Q)].
Proof.
  split; [vm_compute; reflexivity|].
  apply (proj1 (proj2 (negative_average_has_negative_day
                         [(mkdate 2024 1 1, 20%Q); (mkdate 2024 1 2, (-50)%Q)]))
           (-15)%Q).
  - vm_compute. reflexivity.
  - vm_compute. reflexivity.
Defined.

Import DateFacts LedgerFacts.

Module StateMore.

Lemma state_names_valid :
  forallb (fun kv => is_state (snd kv)) STATE_NAMES = true.
Proof. vm_compute. reflexivity. Qed.

Lemma zip3_ranges_valid :
  forallb (fun r => is_state (snd r)) ZIP3_RANGES = true.
Proof. vm_compute. reflexivity. Qed.

Lemma state_by_city_zip_valid s st : state_by_city_zip s = Some st -> is_state st = true.
Proof.
  unfold state_by_city_zip. destruct (Re.search RE_CITY_STATE_ZIP s) as [m|]; [|discriminate].
  destruct (is_state (Re.group_str 2 m)) eqn:E; [|discriminate]. now intros [= <-].
Qed.

Lemma state_by_name_valid s st : state_by_name s = Some st -> is_state st = true.
Proof.
  unfold state_by_name.
  destruct (List.find _ STATE_NAMES) as [[full abbr]|] eqn:E; [|discriminate].
  intros [= <-]. apply find_some in E. destruct E as [Hin _].
  pose proof state_names_valid as Hall. rewrite forallb_forall in Hall.
  exact (Hall _ Hin).
Qed.

Lemma zip3_to_state_valid z st : zip3_to_state z = Some st -> is_state st = true.
Proof.
  unfold zip3_to_state.
  pose proof zip3_ranges_valid as Hall. rewrite forallb_forall in Hall.
  assert (forall l acc,
             (forall r, In r l -> is_state (snd r) = true) ->
             (forall s, acc = Some s -> is_state s = true) ->
             fold_left (fun acc '(lo, hi, st) =>
                          if (lo <=? z) && (z <? hi) then Some st else acc) l acc
             = Some st ->
             is_state st = true) as Hgen.
  { induction l as [|[[lo hi] s] l IH]; intros acc Hl Hacc; simpl.
    - auto.
    - apply IH; [intros; apply Hl; now right|].
      destruct ((lo <=? z) && (z <? hi)); [|exact Hacc].
      intros s' [= <-]. exact (Hl (lo, hi, s) (or_introl eq_refl)). }
  apply Hgen; [exact Hall|discriminate].
Qed.

Lemma zip_to_state_valid s st : zip_to_state s = Some st -> is_state st = true.
Proof.
  unfold zip_to_state. destruct (Re.search RE_ZIP5 s); [|discriminate].
  apply zip3_to_state_valid.
Qed.

Lemma state_by_zip_valid s st : state_by_zip s = Some st -> is_state st = true.
Proof.
  unfold state_by_zip. destruct (Re.search RE_ZIP5 s); [|discriminate].
  apply zip_to_state_valid.
Qed.

Lemma state_in_block_valid block st ev :
  state_in_block block = Some (st, ev) -> is_state st = true.
Proof.
  unfold state_in_block.
  destruct (state_by_city_zip block) eqn:E1.
  { intros [= <- _]. eapply state_by_city_zip_valid; eauto. }
  destruct (state_by_name block) eqn:E2.
  { intros [= <- _]. eapply state_by_name_valid; eauto. }
  destruct (state_by_zip block) eqn:E3; [|discriminate].
  intros [= <- _]. eapply state_by_zip_valid; eauto.
Qed.

Lemma state_by_blocks_valid all_lines st ev :
  state_by_blocks all_lines = Some (st, ev) -> is_state st = true.
Proof.
  unfold state_by_blocks. induction (collect_address_blocks all_lines) as [|b bs IH]; simpl.
  - discriminate.
  - destruct (state_in_block b) as [[s e]|] eqn:E; [|exact IH].
    intros [= <- _]. eapply state_in_block_valid; eauto.
Qed.

Lemma state_by_token_valid win st : state_by_token win = Some st -> is_state st = true.
Proof.
  unfold state_by_token. destruct (Str.contains "address" (Str.lower win)); [|discriminate].
  intros H. apply find_some in H. apply H.
Qed.

Lemma extract_state_valid all_lines win st ev :
  extract_state_stronger_multiline all_lines win = Some (st, ev) -> is_state st = true.
Proof.
  unfold extract_state_stronger_multiline.
  destruct (state_by_city_zip win) eqn:E1.
  { intros [= <- _]. eapply state_by_city_zip_valid; eauto. }
  destruct (state_by_name win) eqn:E2.
  { intros [= <- _]. eapply state_by_name_valid; eauto. }
  destruct (state_by_zip win) eqn:E3.
  { intros [= <- _]. eapply state_by_zip_valid; eauto. }
  destruct (state_by_blocks all_lines) as [[s e]|] eqn:E4.
  { intros [= <- _]. eapply state_by_blocks_valid; eauto. }
  destruct (state_by_token win) eqn:E5; [|discriminate].
  intros [= <- _]. eapply state_by_token_valid; eauto.
Qed.

End StateMore.

(** X12. Every state that [extract_state_stronger_multiline] returns, by
    any of its layers, is a key of [US_STATES], and so is every state
    that [zip_to_state] and the ZIP prefix table give. *)
Theorem extract_state_returns_known_state :
  (forall all_lines win st ev,
      extract_state_stronger_multiline all_lines win = Some (st, ev) ->
      In st (dict_keys US_STATES))
  /\ (forall z abbr, zip3_to_state z = Some abbr -> In abbr (dict_keys US_STATES))
  /\ (forall zipcode abbr, zip_to_state zipcode = Some abbr -> In abbr (dict_keys US_STATES)).
Proof.
  assert (Hkey : forall s, is_state s = true -> In s (dict_keys US_STATES)).
  { intros s Hs. unfold is_state, dict_mem in Hs.
    destruct (dict_get String.eqb US_STATES s) as [name|] eqn:E; [|discriminate].
    clear Hs. revert E. unfold dict_keys.
    induction US_STATES as [|[k v] m IH]; simpl; [discriminate|].
    destruct (String.eqb s k) eqn:Ek.
    - apply String.eqb_eq in Ek. subst. now left.
    - intros E. right. auto. }
  split; [|split].
  - intros all_lines win st ev H. apply Hkey. eapply StateMore.extract_state_valid; eauto.
  - intros z abbr Hz. apply Hkey. eapply StateMore.zip3_to_state_valid; eauto.
  - intros z abbr Hz. apply Hkey. eapply StateMore.zip_to_state_valid; eauto.
Qed.

Lemma extract_state_returns_known_state_witness :
  In "TX"%string (dict_keys US_STATES).
Proof.
  apply (proj1 extract_state_returns_known_state [] "Austin, TX 78701"%string "TX"%string
           "[city,st,zip] Austin, TX 78701"%string).
  vm_compute. reflexivity.
Defined.

Module NameLayerFacts.




End NameLayerFacts.



Import DateFacts LedgerFacts.

Module TibFacts.

Lemma digit_val_nonneg c : 0 <= Str.digit_val c.
Proof. unfold Str.digit_val. lia. Qed.

Lemma int_of_digits_nonneg s : 0 <= Str.int_of_digits s.
Proof.
  unfold Str.int_of_digits.
  assert (forall s acc, 0 <= acc ->
            0 <= (fix go (acc : Z) (s : string) {struct s} : Z :=
                    match s with
                    | EmptyString => acc
                    | String c r => go (acc * 10 + Str.digit_val c) r
                    end) acc s) as H.
  { induction s0 as [|c r IH]; intros acc Hacc; [exact Hacc|].
    apply IH. pose proof (digit_val_nonneg c). lia. }
  apply H. lia.
Qed.

Lemma Qmake_nonneg n p : 0 <= n -> (0 <= Qred (Qmake n p))%Q.
Proof. intros H. rewrite Qred_correct. unfold Qle. simpl. lia. Qed.

Lemma float_of_number_nonneg s : (0 <= float_of_number s)%Q.
Proof.
  unfold float_of_number.
  assert (forall z, 0 <= z -> (0 <= inject_Z z)%Q) as Hinj.
  { intros z Hz. change 0%Q with (inject_Z 0). now rewrite <- Zle_Qle. }
  destruct (Str.split_on "." s) as [|ip [|fp [|x l]]];
    try (apply Hinj, int_of_digits_nonneg).
  apply Qmake_nonneg.
  pose proof (int_of_digits_nonneg ip). pose proof (int_of_digits_nonneg fp).
  assert (0 <= 10 ^ Str.len fp) by (apply Z.pow_nonneg; lia).
  nia.
Qed.

Lemma round_nd_nonneg nd q : (0 <= q)%Q -> (0 <= round_nd nd q)%Q.
Proof.
  intros H. pose proof (RoundFacts.round_nd_mono nd 0 q H) as Hm.
  pose proof (RoundFacts.round_nd_int nd 0) as Hz.
  change (inject_Z 0) with 0%Q in Hz. lra.
Qed.

Lemma delta_days_nonneg a b :
  valid_datetime a -> valid_datetime b -> datetime_leb b a = true ->
  0 <= delta_days a b.
Proof.
  intros [Hva Hua] [Hvb Hub] Hle. unfold delta_days, days_between.
  apply Z.div_pos; [|lia].
  unfold datetime_leb in Hle. apply orb_true_iff in Hle. destruct Hle as [Hlt|Heq].
  - rewrite date_ltb_ord in Hlt by assumption. apply Z.ltb_lt in Hlt. lia.
  - apply andb_true_iff in Heq. destruct Heq as [Hd Hu].
    apply date_eqb_eq in Hd. rewrite Hd. apply Z.leb_le in Hu. lia.
Qed.

Section WithClock.
Variable now : datetime.
Variable dateparse_fuzzy : string -> option datetime.
Hypothesis now_valid : valid_datetime now.
Hypothesis parser_valid : forall s d, dateparse_fuzzy s = Some d -> valid_datetime d.

Lemma parse_date_candidate_spec neigh d :
  parse_date_candidate now dateparse_fuzzy neigh = Some d ->
  valid_datetime d /\ datetime_leb d now = true /\ 1900 < year (dt_date d).
Proof.
  unfold parse_date_candidate. intros H.
  assert (In d (sort datetime_leb
                  (flat_map (fun m =>
                               match dateparse_fuzzy (Re.group_str 1 m) with
                               | Some d =>
                                   if (1900 <? year (dt_date d)) && datetime_leb d now
                                   then [d] else []
                               | None => []
                               end) (Re.finditer RE_DATE neigh)))) as Hin.
  { destruct (sort datetime_leb _) as [|x l]; [discriminate|].
    injection H as <-. now left. }
  apply (Permutation_in _ (sort_perm datetime_leb _)) in Hin.
  apply in_flat_map in Hin. destruct Hin as (m & _ & Hin).
  destruct (dateparse_fuzzy (Re.group_str 1 m)) as [d'|] eqn:Ed; [|contradiction].
  destruct ((1900 <? year (dt_date d')) && datetime_leb d' now) eqn:Ec; [|contradiction].
  destruct Hin as [<-|[]]. apply andb_true_iff in Ec. destruct Ec as [Hy Hl].
  apply Z.ltb_lt in Hy. eauto.
Qed.

Lemma parse_tib_nonneg neigh mos yrs :
  parse_tib_value_strict now dateparse_fuzzy neigh = Some (mos, yrs) ->
  (0 <= mos)%Q /\ (0 <= yrs)%Q.
Proof.
  assert (forall z, 0 <= z -> (0 <= inject_Z z)%Q) as Hinj.
  { intros z Hz. change 0%Q with (inject_Z 0). now rewrite <- Zle_Qle. }
  assert (forall q c, (0 <= q)%Q -> (0 < c)%Q -> (0 <= q / c)%Q) as Hdiv.
  { intros q c Hq Hc. apply Qle_shift_div_l; [assumption|]. lra. }
  unfold parse_tib_value_strict.
  destruct (negb _); [discriminate|].
  destruct (Re.search RE_YEARS_MONTHS neigh) as [m|].
  { intros [= <- <-].
    pose proof (int_of_digits_nonneg (Re.group_str 1 m)).
    pose proof (int_of_digits_nonneg (Re.group_str 2 m)).
    assert (0 <= inject_Z (Str.int_of_digits (Re.group_str 1 m) * 12
                           + Str.int_of_digits (Re.group_str 2 m)))%Q
      by (apply Hinj; lia).
    split; [assumption|]. apply round_nd_nonneg. apply Hdiv; [assumption|reflexivity]. }
  destruct (Re.search RE_MONTHS_ONLY neigh) as [m|].
  { intros [= <- <-]. pose proof (float_of_number_nonneg (Re.group_str 1 m)).
    split; [assumption|]. apply round_nd_nonneg. apply Hdiv; [assumption|reflexivity]. }
  destruct (Re.search RE_YEARS_NUM neigh) as [m|].
  { intros [= <- <-]. pose proof (float_of_number_nonneg (Re.group_str 1 m)).
    split; apply round_nd_nonneg; [|assumption]. nra. }
  destruct (parse_date_candidate now dateparse_fuzzy neigh) as [d|] eqn:Ed.
  { intros [= <- <-]. apply parse_date_candidate_spec in Ed.
    destruct Ed as (Hvd & Hle & _).
    pose proof (delta_days_nonneg now d now_valid Hvd Hle) as Hdelta.
    apply Hinj in Hdelta.
    split; apply round_nd_nonneg; apply Hdiv; try assumption; reflexivity. }
  destruct (Re.search RE_FOUNDED neigh) as [m|]; [|discriminate].
  destruct ((1900 <? Str.int_of_digits (Re.group_str 2 m))
            && (Str.int_of_digits (Re.group_str 2 m) <=? year (dt_date now))) eqn:E;
    [|discriminate].
  apply andb_true_iff in E. destruct E as [_ E]. apply Z.leb_le in E.
  intros [= <- <-].
  assert (0 <= inject_Z (year (dt_date now) - Str.int_of_digits (Re.group_str 2 m)))%Q
    by (apply Hinj; lia).
  split; apply round_nd_nonneg; [|assumption]. nra.
Qed.

End WithClock.

End TibFacts.

(** X14. With a clock and a date parser that give times of the calendar,
    the months and the years that [parse_tib_value_strict] returns are
    never negative. *)
Theorem parse_tib_value_strict_nonnegative :
  forall (now : datetime) (dateparse_fuzzy : string -> option datetime) neigh mos yrs,
    valid_datetime now ->
    (forall s d, dateparse_fuzzy s = Some d -> valid_datetime d) ->
    parse_tib_value_strict now dateparse_fuzzy neigh = Some (mos, yrs) ->
    (0 <= mos)%Q /\ (0 <= yrs)%Q.
Proof.
  intros now dp neigh mos yrs Hnow Hdp H.
  exact (TibFacts.parse_tib_nonneg now dp Hnow Hdp neigh mos yrs H).
Qed.

Lemma parse_tib_value_strict_nonnegative_witness :
  (0 <= 168)%Q /\ (0 <= 14)%Q.
Proof.
  apply (parse_tib_value_strict_nonnegative noon_2024 no_datetimes
           "Established 2010"%string).
  - split; [reflexivity|]. simpl. lia.
  - unfold no_datetimes. discriminate.
  - vm_compute. reflexivity.
Defined.

Import DateFacts LedgerFacts.

Module ProvenanceFacts.

Section Provenance.
Variable partial_ratio : string -> string -> Q.
Context {V : Type} `{Truthy V}.
Variable extractor_fn : string -> option V.
Variable lines : list string.
Variable conf_base : Q.

Lemma try_hit_found hs best h :
  In h hs ->
  best = NOT_FOUND \/ (exists h', In h' hs /\ found_at extractor_fn lines conf_base best h') ->
  try_hit lines extractor_fn conf_base best h = NOT_FOUND
  \/ exists h', In h' hs
                /\ found_at extractor_fn lines conf_base
                     (try_hit lines extractor_fn conf_base best h) h'.
Proof.
  intros Hin Hb. destruct h as [[idx anchor] score] eqn:Eh. unfold try_hit.
  destruct (truthy (extractor_fn (window lines idx 2))) eqn:Ht; [|exact Hb].
  destruct (Qltb (confidence best) _); [|exact Hb].
  right. exists h. subst h. split; [exact Hin|].
  unfold found_at, hit_window. cbn [value confidence evidence fst snd]. auto.
Qed.

Lemma fold_try_hit_found hs hits : forall best,
  incl hits hs ->
  best = NOT_FOUND \/ (exists h', In h' hs /\ found_at extractor_fn lines conf_base best h') ->
  fold_left (try_hit lines extractor_fn conf_base) hits best = NOT_FOUND
  \/ exists h', In h' hs
                /\ found_at extractor_fn lines conf_base
                     (fold_left (try_hit lines extractor_fn conf_base) hits best) h'.
Proof.
  induction hits as [|h hits IH]; intros best Hincl Hb; simpl; [exact Hb|].
  apply IH; [intros x Hx; apply Hincl; now right|].
  apply try_hit_found; [apply Hincl; now left|exact Hb].
Qed.

Lemma headtail_try_found :
  headtail_try lines extractor_fn = NOT_FOUND
  \/ found_globally extractor_fn lines (headtail_try lines extractor_fn).
Proof.
  unfold headtail_try. fold (head_text lines) (tail_text lines).
  destruct (truthy (extractor_fn (head_text lines))) eqn:Eh.
  - rewrite Eh. right. unfold found_globally. cbn [value confidence evidence]. auto.
  - destruct (truthy (extractor_fn (tail_text lines))) eqn:Et.
    + right. unfold found_globally. cbn [value confidence evidence]. auto.
    + now left.
Qed.

Lemma find_with_anchors_found lines_lower key anchors :
  match find_with_anchors partial_ratio lines lines_lower key anchors
                          extractor_fn conf_base with
  | Raise e => e = KeyError /\ dict_get String.eqb anchors key = None
  | Ok r =>
      exists phrases,
        dict_get String.eqb anchors key = Some phrases
        /\ (r = NOT_FOUND
            \/ (exists h,
                   In h (firstn 8 (best_anchor_hits_local partial_ratio lines_lower phrases))
                   /\ found_at extractor_fn lines conf_base r h)
            \/ found_globally extractor_fn lines r)
  end.
Proof.
  unfold find_with_anchors.
  destruct (dict_get String.eqb anchors key) as [phrases|]; [|auto].
  set (hits := firstn 8 (best_anchor_hits_local partial_ratio lines_lower phrases)).
  destruct (fold_try_hit_found hits hits NOT_FOUND (incl_refl _) (or_introl eq_refl))
    as [Hb|Hb].
  - rewrite Hb. cbn [value truthy]. exists phrases. split; [reflexivity|].
    destruct headtail_try_found as [->|Hg]; auto.
  - destruct (truthy (value (fold_left _ hits NOT_FOUND))) eqn:Et.
    + exists phrases. split; [reflexivity|]. right. left. exact Hb.
    + destruct Hb as (h & _ & _ & Ht & _). congruence.
Qed.

(** Every value the resolver returns is one the extractor produced. *)
Lemma find_with_anchors_value lines_lower key anchors r v :
  find_with_anchors partial_ratio lines lines_lower key anchors extractor_fn conf_base
  = Ok r ->
  value r = Some v -> exists text, extractor_fn text = Some v.
Proof.
  intros Hr Hv. pose proof (find_with_anchors_found lines_lower key anchors) as Hf.
  rewrite Hr in Hf. destruct Hf as (phrases & _ & [->|[(h & _ & Hh & _)|([Hg|Hg] & _)]]).
  - discriminate.
  - rewrite Hv in Hh. eauto.
  - rewrite Hv in Hg. eauto.
  - rewrite Hv in Hg. eauto.
Qed.

End Provenance.

End ProvenanceFacts.

(** X15. [find_with_anchors] fails only with a [KeyError], exactly when
    the field has no anchors. Otherwise its result is the empty result,
    or what the extractor reads off the window of one of the eight best
    anchor hits, with the confidence and the evidence of that hit, or
    what it reads off the head or the tail of the document, with
    confidence 0.45. *)
Theorem find_with_anchors_provenance :
  forall (partial_ratio : string -> string -> Q) (V : Type) (T : Truthy V)
         (extractor_fn : string -> option V) (lines lines_lower : list string)
         (key : string) (anchors : dict string (list string)) (conf_base : Q),
    match find_with_anchors partial_ratio lines lines_lower key anchors
                            extractor_fn conf_base with
    | Raise e => e = KeyError /\ dict_get String.eqb anchors key = None
    | Ok r =>
        exists phrases,
          dict_get String.eqb anchors key = Some phrases
          /\ (r = NOT_FOUND
              \/ (exists h,
                     In h (firstn 8 (best_anchor_hits_local partial_ratio lines_lower phrases))
                     /\ found_at extractor_fn lines conf_base r h)
              \/ found_globally extractor_fn lines r)
    end.
Proof.
  intros. apply ProvenanceFacts.find_with_anchors_found.
Qed.

Import DateFacts LedgerFacts.

Module HitFacts.

Lemma enumerate_from {A : Type} (l : list A) : forall start i x,
  In (i, x) (combine (List.seq start (List.length l)) l)
  <-> (start <= i)%nat /\ nth_error l (i - start) = Some x.
Proof.
  induction l as [|y l IH]; intros start i x; simpl.
  - split; [contradiction|]. intros [_ H]. destruct (i - start)%nat; discriminate.
  - rewrite IH. split.
    + intros [[= <- <-]|[Hle Hn]].
      * split; [lia|]. now rewrite Nat.sub_diag.
      * split; [lia|]. replace (i - start)%nat with (S (i - S start)) by lia. exact Hn.
    + intros [Hle Hn]. destruct (i - start)%nat as [|k] eqn:E.
      * left. injection Hn as <-. f_equal. lia.
      * right. split; [lia|]. replace (i - S start)%nat with k by lia. exact Hn.
Qed.

Lemma enumerate_In {A : Type} (l : list A) i x :
  In (i, x) (enumerate l) <-> nth_error l i = Some x.
Proof.
  unfold enumerate. rewrite enumerate_from. rewrite Nat.sub_0_r. split; [tauto|].
  intros Hn. split; [lia|exact Hn].
Qed.

Lemma Qltb_true_lt a b : Qltb a b = true <-> (a < b)%Q.
Proof.
  unfold Qltb. rewrite negb_true_iff. split.
  - intros Hf. apply Qnot_le_lt. intros Hle. apply Qle_bool_iff in Hle. congruence.
  - intros Hlt. destruct (Qle_bool b a) eqn:E; [|reflexivity].
    apply Qle_bool_iff in E. lra.
Qed.

Lemma hit_leb_spec (a b : hit) :
  hit_leb a b = true
  <-> (snd b < snd a)%Q \/ ((snd a == snd b)%Q /\ (fst (fst a) <= fst (fst b))%nat).
Proof.
  destruct a as [[ia aa] sa], b as [[ib ab] sb]. unfold hit_leb. cbn [fst snd].
  rewrite orb_true_iff, andb_true_iff, Qltb_true_lt, Qle_bool_iff, Nat.leb_le.
  split.
  - intros [Hlt|[Hle Hi]]; [now left|].
    destruct (Qlt_le_dec sb sa); [now left|]. right. split; [lra|assumption].
  - intros [Hlt|[Heq Hi]]; [now left|]. right. split; [lra|assumption].
Qed.

Lemma hit_leb_total a b : hit_leb a b = true \/ hit_leb b a = true.
Proof.
  rewrite !hit_leb_spec.
  destruct (Q_dec (snd a) (snd b)) as [[Hlt|Hgt]|Heq].
  - right. now left.
  - left. now left.
  - destruct (Nat.le_ge_cases (fst (fst a)) (fst (fst b))).
    + left. right. auto.
    + right. right. split; [lra|assumption].
Qed.

Lemma hit_leb_trans a b c :
  hit_leb a b = true -> hit_leb b c = true -> hit_leb a c = true.
Proof.
  rewrite !hit_leb_spec. intros [H1|[H1 I1]] [H2|[H2 I2]].
  - left. lra.
  - left. lra.
  - left. lra.
  - right. split; [lra|lia].
Qed.

End HitFacts.

(** X16. [best_anchor_hits_local] returns exactly the pairs of a line and
    an anchor that score 80 or more, each with its score, ordered by
    falling score and, for equal scores, by rising line number. *)
Theorem best_anchor_hits_local_ranked :
  forall (partial_ratio : string -> string -> Q) (lines_lower anchors : list string),
    let hits := best_anchor_hits_local partial_ratio lines_lower anchors in
    (forall i a score,
        In (i, a, score) hits
        <-> exists ln, nth_error lines_lower i = Some ln /\ In a anchors
                       /\ score = partial_ratio a ln /\ (80 <= score)%Q)
    /\ forall pre x mid y post,
         hits = (pre ++ x :: mid ++ y :: post)%list ->
         (snd y <= snd x)%Q
         /\ ((snd x == snd y)%Q -> (fst (fst x) <= fst (fst y))%nat).
Proof.
  intros pr lines_lower anchors hits. split.
  - intros i a score. unfold hits, best_anchor_hits_local.
    split.
    + intros Hin. apply (Permutation_in _ (sort_perm hit_leb _)) in Hin.
      apply in_flat_map in Hin. destruct Hin as ([i' ln] & Hen & Hin).
      apply in_flat_map in Hin. destruct Hin as (a' & Ha & Hin).
      destruct (Qle_bool 80 (pr a' ln)) eqn:E; [|contradiction].
      destruct Hin as [[= <- <- <-]|[]].
      exists ln. apply HitFacts.enumerate_In in Hen. apply Qle_bool_iff in E. auto.
    + intros (ln & Hn & Ha & -> & Hs).
      apply (Permutation_in _ (Permutation_sym (sort_perm hit_leb _))).
      apply in_flat_map. exists (i, ln). split; [now apply HitFacts.enumerate_In|].
      apply in_flat_map. exists a. split; [assumption|].
      apply Qle_bool_iff in Hs. rewrite Hs. now left.
  - intros pre x mid y post Heq.
    assert (ordered hit_leb hits) as Hord.
    { apply sort_ordered; [exact HitFacts.hit_leb_total|exact HitFacts.hit_leb_trans]. }
    pose proof (TxnFacts.ordered_apart hit_leb hits Hord pre x mid y post Heq) as Hxy.
    apply HitFacts.hit_leb_spec in Hxy. split.
    + destruct Hxy as [H|[H _]]; lra.
    + intros Heqs. destruct Hxy as [H|[_ H]]; [lra|assumption].
Qed.

Import DateFacts LedgerFacts.

Module FieldFacts.

Lemma Qmin_le_l a b : (Qmin a b <= a)%Q.
Proof. apply (ResolverFacts.Qmin_spec a b). Qed.

Lemma Qmin_le_r a b : (Qmin a b <= b)%Q.
Proof. apply (ResolverFacts.Qmin_spec a b). Qed.

Lemma Qmin_glb a b c : (c <= a)%Q -> (c <= b)%Q -> (c <= Qmin a b)%Q.
Proof.
  intros Ha Hb. destruct (ResolverFacts.Qmin_spec a b) as (_ & _ & [H|H]); rewrite H; auto.
Qed.

Lemma Qmax_ge_r a b : (b <= Qmax a b)%Q.
Proof.
  unfold Qmax. destruct (Qle_bool a b) eqn:E; [lra|].
  assert (~ (a <= b)%Q) by (intros Hle; apply Qle_bool_iff in Hle; congruence). lra.
Qed.

Section Confidence.
Variable partial_ratio : string -> string -> Q.
Context {V : Type} `{Truthy V}.
Variable extractor_fn : string -> option V.
Variable lines : list string.
Variable conf_base : Q.
Hypothesis conf_base_nonneg : (0 <= conf_base)%Q.

(** The confidence of a resolved field is at most 0.98. *)
Lemma find_with_anchors_conf lines_lower key anchors r :
  find_with_anchors partial_ratio lines lines_lower key anchors extractor_fn conf_base
  = Ok r ->
  (0 <= confidence r <= 98 # 100)%Q.
Proof.
  intros Hr.
  pose proof (ProvenanceFacts.find_with_anchors_found partial_ratio extractor_fn lines
                conf_base lines_lower key anchors) as Hf.
  rewrite Hr in Hf. destruct Hf as (phrases & _ & [->|[(h & Hh & _ & _ & Hc & _)|Hg]]).
  - simpl. lra.
  - rewrite Hc.
    apply ResolverFacts.In_firstn_hits in Hh.
    apply ResolverFacts.hits_scored in Hh.
    split.
    + apply TibFacts.round_nd_nonneg. apply Qmin_glb; [|discriminate].
      assert (0 <= snd h / 100)%Q.
      { apply Qle_shift_div_l; [reflexivity|]. lra. }
      nra.
    + apply Qle_trans with (round2 (98 # 100)).
      * apply RoundFacts.round_nd_mono. apply Qmin_le_r.
      * vm_compute. discriminate.
  - destruct Hg as (_ & _ & -> & _). split; discriminate.
Qed.

End Confidence.


(** *** Business names *)

Lemma plausible_name_score cand least :
  plausible_name cand least = true -> least <= name_score cand.
Proof.
  unfold plausible_name. intros Hp. apply andb_true_iff in Hp.
  destruct Hp as [_ Hp]. now apply Z.leb_le.
Qed.

Lemma extract_bn_from_window_score win v :
  extract_bn_from_window win = Some v -> 1 <= name_score v.
Proof.
  unfold extract_bn_from_window.
  destruct (earliest_label (Str.lower win)) as [[p lbl]|]; [|discriminate].
  destruct (cut_at_stop _ _); [discriminate|].
  destruct (plausible_name _ 1) eqn:E; [|discriminate].
  intros [= <-]. now apply plausible_name_score.
Qed.

Lemma row_candidate_score ws v ev boost :
  row_candidate ws = Some (v, ev, boost) -> 1 <= name_score v /\ (0 <= boost)%Q.
Proof.
  unfold row_candidate. destruct (has_label _); [|discriminate].
  destruct (label_right_edge ws); [|discriminate].
  destruct (cut_at_stop _ _); [discriminate|].
  destruct (plausible_name _ 1) eqn:E; [|discriminate].
  intros [= <- _ <-]. split; [now apply plausible_name_score|discriminate].
Qed.

Lemma first_some_found {A : Type} (l : list (option A)) a :
  Statements.first_some l = Some a -> In (Some a) l.
Proof.
  induction l as [|[x|] l IH]; simpl; [discriminate| |].
  - intros [= ->]. now left.
  - intros Hf. right. auto.
Qed.

Lemma layout_aware_score (pdf_first_page : string -> option pdf_page) pdf_bytes v ev boost :
  extract_business_name_layout_aware pdf_first_page pdf_bytes = Some (v, ev, boost) ->
  1 <= name_score v /\ (0 <= boost)%Q.
Proof.
  unfold extract_business_name_layout_aware.
  destruct (pdf_first_page pdf_bytes) as [page|]; [|discriminate].
  destruct (page_words page) as [|w ws]; [discriminate|].
  destruct (Statements.first_some _) as [[[v' ev'] b']|] eqn:Er.
  - intros [= <- _ <-]. apply first_some_found in Er. apply in_map_iff in Er.
    destruct Er as (row & Hr & _). eapply row_candidate_score; eauto.
  - destruct (all_some _) as [candidates|]; [|discriminate].
    destruct (List.find _ _) as [[[sc text_line] ev']|] eqn:Ef; [|discriminate].
    intros [= <- _ <-]. apply find_some in Ef. destruct Ef as [_ Hs].
    simpl in Hs. apply Z.leb_le in Hs. split; [lia|discriminate].
Qed.

Lemma anchored_name_score r text_all v :
  anchored_name r text_all = Some v -> 1 <= name_score v.
Proof.
  unfold anchored_name. destruct (Re.search r text_all); [|discriminate].
  destruct (plausible_name _ 1) eqn:E; [|discriminate].
  intros [= <-]. now apply plausible_name_score.
Qed.

Lemma above_address_score lines_ v : above_address lines_ = Some v -> 1 <= name_score v.
Proof.
  unfold above_address. destruct (first_street lines_) as [[|i]|]; try discriminate.
  destruct (plausible_name _ 2) eqn:E; [|discriminate].
  intros [= <-]. apply plausible_name_score in E. lia.
Qed.

Lemma top_scored_score lines_ v : top_scored lines_ = Some v -> 1 <= name_score v.
Proof.
  unfold top_scored.
  set (scored := filter _ _).
  destruct (sort _ scored) as [|[sc ln] rest] eqn:Es; [discriminate|].
  simpl. intros [= <-].
  assert (In (sc, ln) scored) as Hin.
  { apply (Permutation_in _ (sort_perm (fun a b : Z * string => fst b <=? fst a) scored)).
    rewrite Es. now left. }
  unfold scored in Hin. apply filter_In in Hin. destruct Hin as [Hin Hsc].
  apply in_map_iff in Hin. destruct Hin as (ln' & [= <- <-] & _).
  simpl in Hsc. apply Z.leb_le in Hsc. lia.
Qed.

Lemma corp_suffix_top_score lines_ v : corp_suffix_top lines_ = Some v -> 1 <= name_score v.
Proof.
  unfold corp_suffix_top. intros Hf. apply first_some_found in Hf.
  apply in_map_iff in Hf. destruct Hf as (ln & Hln & _).
  destruct (is_match CORP_SUFFIXES_RE ln); [|discriminate].
  destruct (1 <=? name_score (clean_and_clip ln)) eqn:E; [|discriminate].
  injection Hln as <-. now apply Z.leb_le.
Qed.

Lemma stronger_score lines_ v ev boost :
  extract_business_name_stronger lines_ = Some (v, ev, boost) ->
  1 <= name_score v /\ (0 <= boost)%Q.
Proof.
  unfold extract_business_name_stronger.
  destruct (anchored_name RE_NAME_ANCHOR _) eqn:E1.
  { intros [= <- _ <-]. split; [eapply anchored_name_score; eauto|discriminate]. }
  destruct (anchored_name RE_DBA_ANCHOR _) eqn:E2.
  { intros [= <- _ <-]. split; [eapply anchored_name_score; eauto|discriminate]. }
  destruct (above_address lines_) eqn:E3.
  { intros [= <- _ <-]. split; [eapply above_address_score; eauto|discriminate]. }
  destruct (top_scored lines_) eqn:E4.
  { intros [= <- _ <-]. split; [eapply top_scored_score; eauto|discriminate]. }
  destruct (corp_suffix_top lines_) eqn:E5; [|discriminate].
  intros [= <- _ <-]. split; [eapply corp_suffix_top_score; eauto|discriminate].
Qed.

Lemma prefer_named bn val anchor ev :
  named bn -> 1 <= name_score val -> named (prefer bn val anchor ev).
Proof.
  intros Hb Hv. unfold prefer. destruct (_ || _); [|exact Hb].
  intros v [= <-]. exact Hv.
Qed.

Lemma prefer_confidence bn val anchor ev :
  confidence (prefer bn val anchor ev) = confidence bn.
Proof. unfold prefer. destruct (_ || _); reflexivity. Qed.

End FieldFacts.

Import DateFacts LedgerFacts FieldFacts.

Module PipelineMore.

Section Engines.
Variable image : Type.
Variable pdf_page_texts : string -> option (list string).
Variable convert_from_bytes : string -> Z -> result (list image).
Variable preprocess_for_ocr : image -> image.
Variable image_to_string : image -> string -> string -> string.
Variable paddle_ocr_page : image -> string.
Variable pdf_first_page : string -> option pdf_page.
Variable partial_ratio : string -> string -> Q.
Variable dateparse_fuzzy : string -> option datetime.
Variable now : datetime.

Lemma resolve_state_spec lines lines_lower st :
  resolve_state partial_ratio lines lines_lower = Ok st ->
  (0 <= confidence st <= 98 # 100)%Q
  /\ forall v, value st = Some v -> is_state v = true.
Proof.
  unfold resolve_state.
  destruct (find_with_anchors partial_ratio lines lines_lower "state" ANCHORS
              (state_of_window lines) (62 # 100)) as [s0|e] eqn:E; [|discriminate].
  cbn [bind].
  assert ((0 <= confidence s0 <= 98 # 100)%Q
          /\ forall v, value s0 = Some v -> is_state v = true) as [Hc Hv].
  { split.
    - eapply find_with_anchors_conf; [|exact E]. discriminate.
    - intros v Hv.
      destruct (ProvenanceFacts.find_with_anchors_value _ _ _ _ _ _ _ _ _ E Hv)
        as (text & Ht).
      unfold state_of_window in Ht.
      destruct (extract_state_stronger_multiline lines text) as [[s ev]|] eqn:Es;
        [|discriminate].
      injection Ht as <-. eapply StateMore.extract_state_valid; eauto. }
  destruct (truthy (value s0)); [|intros [= <-]; auto].
  destruct (extract_state_stronger_multiline lines (evidence_line s0)) as [[a ev]|];
    intros [= <-]; auto.
Qed.

Lemma nudge_state_spec st :
  (0 <= confidence st <= 98 # 100)%Q ->
  value (nudge_state st) = value st
  /\ (0 <= confidence (nudge_state st) <= 99 # 100)%Q.
Proof.
  intros Hc. unfold nudge_state. destruct (_ && _); cbn [value confidence].
  - split; [reflexivity|]. split.
    + apply Qmin_glb; [discriminate|].
      pose proof (Qmax_ge_r (confidence st) (76 # 100)). lra.
    + apply Qmin_le_l.
  - split; [reflexivity|]. lra.
Qed.

Lemma resolve_business_name_spec pdf_bytes native lines lines_lower bn :
  resolve_business_name pdf_first_page partial_ratio pdf_bytes native lines lines_lower
  = Ok bn ->
  (0 <= confidence bn <= 99 # 100)%Q /\ named bn.
Proof.
  unfold resolve_business_name.
  destruct (find_with_anchors partial_ratio lines lines_lower "business_name" ANCHORS
              extract_bn_from_window (72 # 100)) as [b0|e] eqn:E; [|discriminate].
  cbn [bind].
  assert ((0 <= confidence b0 <= 98 # 100)%Q /\ named b0) as H0.
  { split.
    - eapply find_with_anchors_conf; [|exact E]. discriminate.
    - intros v Hv.
      destruct (ProvenanceFacts.find_with_anchors_value _ _ _ _ _ _ _ _ _ E Hv)
        as (text & Ht).
      eapply extract_bn_from_window_score; eauto. }
  set (s1 := if native then _ else _).
  assert ((0 <= confidence (fst s1) <= 98 # 100)%Q /\ named (fst s1) /\ (0 <= snd s1)%Q)
    as H1.
  { subst s1. destruct H0 as [Hc Hn]. destruct native; [|simpl; repeat split; auto; lra].
    destruct (extract_business_name_layout_aware pdf_first_page pdf_bytes)
      as [[[val ev] boost]|] eqn:El; [|simpl; repeat split; auto; lra].
    apply layout_aware_score in El. destruct El as [Hs Hb]. cbn [fst snd].
    rewrite prefer_confidence. split; [exact Hc|]. split; [now apply prefer_named|lra]. }
  destruct s1 as [b1 boost1]. cbn [fst snd] in H1.
  set (s2 := if _ || _ then _ else _).
  assert ((0 <= confidence (fst s2) <= 98 # 100)%Q /\ named (fst s2) /\ (0 <= snd s2)%Q)
    as H2.
  { subst s2. destruct H1 as (Hc & Hn & Hb). destruct (_ || _); [|simpl; auto].
    destruct (extract_business_name_stronger lines) as [[[val ev] boost]|] eqn:Es;
      [|simpl; auto].
    apply stronger_score in Es. destruct Es as [Hs Hb2]. cbn [fst snd].
    rewrite prefer_confidence. split; [exact Hc|]. split; [now apply prefer_named|lra]. }
  destruct s2 as [b2 boost2]. cbn [fst snd] in H2. destruct H2 as (Hc & Hn & Hb).
  destruct (value b2) as [name|] eqn:Ev.
  - destruct (Str.nonempty name).
    + intros [= <-]. cbn [confidence]. split.
      * split; [|apply Qmin_le_l].
        apply Qmin_glb; [discriminate|].
        pose proof (Qmax_ge_r (confidence b2) (70 # 100)).
        destruct (is_match CORP_SUFFIXES_RE name); lra.
      * intros v Hv. cbn [value] in Hv. apply Hn. congruence.
    + intros [= <-]. split; [lra|exact Hn].
  - intros [= <-]. split; [lra|exact Hn].
Qed.

Lemma resolve_tib_spec lines lines_lower tib :
  resolve_tib partial_ratio dateparse_fuzzy now lines lines_lower = Ok tib ->
  (0 <= confidence tib <= 98 # 100)%Q
  /\ forall v, value tib = Some v ->
       exists text mos yrs,
         parse_tib_value_strict now dateparse_fuzzy text = Some (mos, yrs)
         /\ v = tib_text mos yrs.
Proof.
  unfold resolve_tib.
  destruct (find_with_anchors partial_ratio lines lines_lower "tib" ANCHORS
              (parse_tib_value_strict now dateparse_fuzzy) (6 # 10)) as [t0|e] eqn:E;
    [|discriminate].
  cbn [bind]. intros [= <-]. cbn [value confidence]. split.
  - eapply find_with_anchors_conf; [|exact E]. discriminate.
  - intros v Hv. destruct (value t0) as [[mos yrs]|] eqn:E0; [|discriminate].
    injection Hv as <-.
    destruct (ProvenanceFacts.find_with_anchors_value _ _ _ _ _ _ _ _ _ E E0)
      as (text & Ht).
    exists text, mos, yrs. auto.
Qed.

(** The five fields of a run. *)
Lemma extract_fields_shape pdf_bytes ocr_dpi tess_psm out preview :
  extract_fields_from_bytes image pdf_page_texts convert_from_bytes preprocess_for_ocr
    image_to_string paddle_ocr_page pdf_first_page partial_ratio dateparse_fuzzy now
    pdf_bytes ocr_dpi tess_psm = Ok (out, preview) ->
  exists text use_ocr fico st bn ind tib,
    let lines := lines_from_text text in
    let lower := map Str.lower lines in
    acquire_text image pdf_page_texts convert_from_bytes preprocess_for_ocr
      image_to_string paddle_ocr_page pdf_bytes ocr_dpi tess_psm = Ok (text, use_ocr)
    /\ find_with_anchors partial_ratio lines lower "fico" ANCHORS extract_fico (6 # 10)
       = Ok fico
    /\ resolve_state partial_ratio lines lower = Ok st
    /\ resolve_business_name pdf_first_page partial_ratio pdf_bytes (negb use_ocr)
         lines lower = Ok bn
    /\ find_with_anchors partial_ratio lines lower "industry" ANCHORS classify_industry
         (55 # 100) = Ok ind
    /\ resolve_tib partial_ratio dateparse_fuzzy now lines lower = Ok tib
    /\ out = [("FICO", fico); ("State", nudge_state st); ("BusinessName", bn);
              ("Industry", ind); ("LengthOfOwnership", tib)]%string.
Proof.
  unfold extract_fields_from_bytes.
  destruct (acquire_text _ _ _ _ _ _ pdf_bytes ocr_dpi tess_psm) as [[text use_ocr]|e];
    cbn [bind]; [|discriminate].
  destruct (find_with_anchors partial_ratio _ _ "fico" ANCHORS extract_fico (6 # 10))
    as [fico|e] eqn:E1; cbn [bind]; [|discriminate].
  destruct (resolve_state partial_ratio _ _) as [st|e] eqn:E2; cbn [bind]; [|discriminate].
  destruct (resolve_business_name pdf_first_page partial_ratio pdf_bytes _ _ _)
    as [bn|e] eqn:E3; cbn [bind]; [|discriminate].
  destruct (find_with_anchors partial_ratio _ _ "industry" ANCHORS classify_industry _)
    as [ind|e] eqn:E4; cbn [bind]; [|discriminate].
  destruct (resolve_tib partial_ratio dateparse_fuzzy now _ _) as [tib|e] eqn:E5;
    cbn [bind]; [|discriminate].
  intros [= <- _].
  exists text, use_ocr, fico, st, bn, ind, tib. cbv zeta.
  repeat (split; [assumption || reflexivity|]). reflexivity.
Qed.

End Engines.

End PipelineMore.

(** X17. When [extract_fields_from_bytes] returns, its table has only the
    five field names as keys, and the confidence of every field lies
    between 0 and 0.99. *)
Theorem extract_fields_confidence_bounds :
  forall (image : Type)
         (pdf_page_texts : string -> option (list string))
         (convert_from_bytes : string -> Z -> result (list image))
         (preprocess_for_ocr : image -> image)
         (image_to_string : image -> string -> string -> string)
         (paddle_ocr_page : image -> string)
         (pdf_first_page : string -> option pdf_page)
         (partial_ratio : string -> string -> Q)
         (dateparse_fuzzy : string -> option datetime)
         (now : datetime) (pdf_bytes : string) (ocr_dpi tess_psm : Z) out preview,
    extract_fields_from_bytes image pdf_page_texts convert_from_bytes preprocess_for_ocr
      image_to_string paddle_ocr_page pdf_first_page partial_ratio dateparse_fuzzy now
      pdf_bytes ocr_dpi tess_psm = Ok (out, preview) ->
    forall k f, dict_get String.eqb out k = Some f ->
                In k FIELD_NAMES /\ (0 <= confidence f <= 99 # 100)%Q.
Proof.
  intros image texts convert pre i2s paddle layout pr dp now pdf_bytes dpi psm out preview
         Hrun k f Hget.
  apply PipelineMore.extract_fields_shape in Hrun.
  destruct Hrun as (text & use_ocr & fico & st & bn & ind & tib & Hrun).
  cbv zeta in Hrun. destruct Hrun as (_ & Hf & Hs & Hb & Hi & Ht & ->).
  pose proof (find_with_anchors_conf pr extract_fico _ (6 # 10) ltac:(discriminate)
                _ _ _ _ Hf) as Cf.
  pose proof (PipelineMore.resolve_state_spec pr _ _ _ Hs) as [Cs _].
  pose proof (PipelineMore.nudge_state_spec st Cs) as [_ Cn].
  pose proof (PipelineMore.resolve_business_name_spec layout pr _ _ _ _ _ Hb) as [Cb _].
  pose proof (find_with_anchors_conf pr classify_industry _ (55 # 100) ltac:(discriminate)
                _ _ _ _ Hi) as Ci.
  pose proof (PipelineMore.resolve_tib_spec pr dp now _ _ _ Ht) as [Ct _].
  unfold FIELD_NAMES. cbn [dict_get] in Hget.
  destruct (String.eqb k "FICO") eqn:E1.
  { apply String.eqb_eq in E1. injection Hget as <-. subst. split; [simpl; tauto|lra]. }
  destruct (String.eqb k "State") eqn:E2.
  { apply String.eqb_eq in E2. injection Hget as <-. subst. split; [simpl; tauto|lra]. }
  destruct (String.eqb k "BusinessName") eqn:E3.
  { apply String.eqb_eq in E3. injection Hget as <-. subst. split; [simpl; tauto|lra]. }
  destruct (String.eqb k "Industry") eqn:E4.
  { apply String.eqb_eq in E4. injection Hget as <-. subst. split; [simpl; tauto|lra]. }
  destruct (String.eqb k "LengthOfOwnership") eqn:E5; [|discriminate].
  apply String.eqb_eq in E5. injection Hget as <-. subst. split; [simpl; tauto|lra].
Qed.

Lemma extract_fields_confidence_bounds_witness :
  exists out preview,
    extract_scan noon_2024 = Ok (out, preview)
    /\ forall k f, dict_get String.eqb out k = Some f ->
                   In k FIELD_NAMES /\ (0 <= confidence f <= 99 # 100)%Q.
Proof.
  eexists. eexists. split; [vm_compute; reflexivity|].
  apply (extract_fields_confidence_bounds unit scan_texts scan_pages (fun img => img)
           scan_ocr scan_paddle scan_layout exact_ratio no_datetimes noon_2024
           "%PDF-1.4"%string OCR_DPI_DEFAULT TESS_PSM _
           "[source=ocr] Established 2010"%string).
  vm_compute. reflexivity.
Defined.



Module SubFacts.
Import Str Re.
Local Open Scope string_scope.
Local Open Scope nat_scope.


















End SubFacts.

Module AccountFacts.
Import Str Re SubFacts.
Local Open Scope string_scope.













End AccountFacts.





Module BlankFacts.
Import Str.







End BlankFacts.

Import Str Re.



Module IndustryFacts.

Section Vote.
Variable A : Type.
Variable h : A -> Z.

Lemma vote_fold tbl : forall seen st,
  vote_inv h seen st ->
  vote_inv h (seen ++ tbl)
    (fold_left (fun '(best, hits) '(label, kws) =>
                  if hits <? h kws then (Some label, h kws) else (best, hits))
               tbl st).
Proof.
  induction tbl as [|[l' k'] tbl IH]; intros seen [best hits] Hinv.
  - rewrite app_nil_r. exact Hinv.
  - cbn [fold_left].
    replace (seen ++ (l', k') :: tbl) with ((seen ++ [(l', k')]) ++ tbl)
      by (rewrite <- app_assoc; reflexivity).
    apply IH. unfold vote_inv in *. cbn [fst snd] in *.
    destruct (Z.ltb_spec hits (h k')) as [Hlt|Hge]; cbn [fst snd].
    + assert (0 < h k' /\ forall l k, In (l, k) seen -> h k < h k') as [Hpos Hall].
      { destruct best as [l|].
        - destruct Hinv as (Hp & pre & k & post & -> & Hk & Hpre & Hpost).
          split; [lia|]. intros l0 k0 Hin. apply in_app_or in Hin.
          destruct Hin as [Hin|[Hin|Hin]].
          + specialize (Hpre _ _ Hin). lia.
          + injection Hin as <- <-. lia.
          + specialize (Hpost _ _ Hin). lia.
        - destruct Hinv as [-> Hall]. split; [lia|].
          intros l0 k0 Hin. specialize (Hall _ _ Hin). lia. }
      split; [exact Hpos|]. exists seen, k', []. repeat split; auto.
      intros ? ? [].
    + destruct best as [l|].
      * destruct Hinv as (Hp & pre & k & post & -> & Hk & Hpre & Hpost).
        split; [exact Hp|]. exists pre, k, (post ++ [(l', k')]).
        split; [rewrite <- app_assoc; reflexivity|]. split; [exact Hk|].
        split; [exact Hpre|]. intros l0 k0 Hin. apply in_app_or in Hin.
        destruct Hin as [Hin|[Hin|[]]]; [now apply (Hpost l0)|].
        injection Hin as <- <-. exact Hge.
      * destruct Hinv as [-> Hall]. split; [reflexivity|].
        intros l0 k0 Hin. apply in_app_or in Hin.
        destruct Hin as [Hin|[Hin|[]]]; [now apply (Hall l0)|].
        injection Hin as <- <-. exact Hge.
Qed.

End Vote.

Lemma keyword_hits_nonneg t kws : 0 <= keyword_hits t kws.
Proof. unfold keyword_hits, Zlen. lia. Qed.

Lemma keyword_vote_eq t :
  keyword_vote t
  = fst (fold_left (fun '(best, hits) '(label, kws) =>
                      if hits <? keyword_hits t kws then (Some label, keyword_hits t kws)
                      else (best, hits))
                   INDUSTRY_KEYWORDS (None, 0)).
Proof. reflexivity. Qed.

Lemma keyword_vote_inv t :
  vote_inv (keyword_hits t) INDUSTRY_KEYWORDS
    (fold_left (fun '(best, hits) '(label, kws) =>
                  if hits <? keyword_hits t kws then (Some label, keyword_hits t kws)
                  else (best, hits))
               INDUSTRY_KEYWORDS (None, 0)).
Proof.
  apply (vote_fold (list string) (keyword_hits t) INDUSTRY_KEYWORDS [] (None, 0)).
  split; [reflexivity|]. intros ? ? [].
Qed.




End IndustryFacts.

(** X23. The keyword vote of [classify_industry] returns the first label
    of [INDUSTRY_KEYWORDS], in table order, with the greatest number of
    keywords in the text, and only when that number is not zero: it
    returns nothing exactly when no keyword of any label occurs. *)
Theorem keyword_vote_first_highest :
  forall t,
    match keyword_vote t with
    | None => forall label kws, In (label, kws) INDUSTRY_KEYWORDS -> keyword_hits t kws = 0
    | Some label =>
        exists pre kws post,
          INDUSTRY_KEYWORDS = pre ++ (label, kws) :: post
          /\ 0 < keyword_hits t kws
          /\ (forall l' k', In (l', k') pre -> keyword_hits t k' < keyword_hits t kws)
          /\ (forall l' k', In (l', k') post -> keyword_hits t k' <= keyword_hits t kws)
    end.
Proof.
  intros t. pose proof (IndustryFacts.keyword_vote_inv t) as Hinv.
  rewrite IndustryFacts.keyword_vote_eq. unfold vote_inv in Hinv.
  destruct (fst _) as [l|].
  - destruct Hinv as (Hp & pre & k & post & E & Hk & Hpre & Hpost).
    exists pre, k, post. rewrite Hk. auto.
  - destruct Hinv as [_ Hall]. intros label kws Hin.
    pose proof (Hall _ _ Hin). pose proof (IndustryFacts.keyword_hits_nonneg t kws). lia.
Qed.



Module UploadFacts.
Import Str SubFacts.
Local Open Scope nat_scope.

Lemma rfind_go c : forall s i found,
  (fix go (i : nat) (s : string) (found : option nat) : option nat :=
     match s with
     | EmptyString => found
     | String x r => go (S i) r (if Ascii.eqb x c then Some i else found)
     end) i s found
  = match rfind_char c s with Some j => Some (i + j) | None => found end.
Proof.
  unfold rfind_char. induction s as [|x r IH]; intros i found; [reflexivity|].
  cbn beta iota fix. rewrite (IH (S i)), (IH 1).
  destruct (_ 0 r None) as [j|].
  - f_equal. lia.
  - destruct (Ascii.eqb x c); [f_equal; lia|reflexivity].
Qed.

Lemma rfind_cons c x r :
  rfind_char c (String x r)
  = match rfind_char c r with
    | Some j => Some (S j)
    | None => if Ascii.eqb x c then Some 0 else None
    end.
Proof.
  unfold rfind_char at 1. cbn beta iota fix zeta. rewrite rfind_go.
  destruct (rfind_char c r); reflexivity.
Qed.

(** The position found is one of the character, and the character
    does not occur after it. *)
Lemma rfind_some c : forall s i,
  rfind_char c s = Some i ->
  s = (take i s ++ String c (drop (S i) s))%string
  /\ rfind_char c (drop (S i) s) = None.
Proof.
  induction s as [|x r IH]; intros i H; [discriminate|].
  rewrite rfind_cons in H. destruct (rfind_char c r) as [j|] eqn:E.
  - injection H as <-. destruct (IH j eq_refl) as [H1 H2].
    split; [|exact H2].
    change (String x r = String x (take j r ++ String c (drop (S j) r))).
    now rewrite <- H1.
  - destruct (Ascii.eqb x c) eqn:Ex; [|discriminate]. injection H as <-.
    apply Ascii.eqb_eq in Ex. subst. split; [reflexivity|exact E].
Qed.

Lemma rfind_app c b : rfind_char c b = None ->
  forall a, rfind_char c (a ++ String c b) = Some (String.length a).
Proof.
  intros Hb. induction a as [|x a IH].
  - cbn [append]. rewrite rfind_cons, Hb, Ascii.eqb_refl. reflexivity.
  - cbn [append String.length]. rewrite rfind_cons, IH. reflexivity.
Qed.

Lemma drop_app_cons a x b : drop (S (String.length a)) (a ++ String x b) = b.
Proof. induction a as [|y a IH]; [reflexivity|]. cbn [append String.length]. exact IH. Qed.

Lemma lower_not_dot x y : to_lower x = y -> y <> "."%char -> Ascii.eqb x "." = false.
Proof.
  intros H Hy. apply Ascii.eqb_neq. intros E. subst. apply Hy. reflexivity.
Qed.

Lemma pdf_no_dot ext : lower ext = "pdf"%string -> rfind_char "." ext = None.
Proof.
  destruct ext as [|a [|b [|c [|d r]]]]; try discriminate.
  unfold lower. cbn [map_chars]. intros [= Ha Hb Hc].
  rewrite !rfind_cons.
  rewrite (lower_not_dot a _ Ha), (lower_not_dot b _ Hb), (lower_not_dot c _ Hc);
    [reflexivity|discriminate..].
Qed.

End UploadFacts.

(** X25. [allowed_file] accepts exactly the file names that end with a
    point and the letters p, d, f in any case: a name with no point,
    or with anything else after its last point, is refused. *)
Theorem allowed_file_pdf_extension :
  forall filename,
    allowed_file filename = true
    <-> exists stem ext,
          filename = (stem ++ "." ++ ext)%string /\ Str.lower ext = "pdf"%string.
Proof.
  intros filename. unfold allowed_file. split.
  - destruct (rfind_char "." filename) as [i|] eqn:E; [|discriminate].
    intros H. apply UploadFacts.rfind_some in E. destruct E as [E _].
    exists (Str.take i filename), (Str.drop (S i) filename). split; [exact E|].
    unfold ALLOWED_EXT, Str.mem_string in H. cbn [existsb] in H.
    rewrite orb_false_r in H. now apply String.eqb_eq in H.
  - intros (stem & ext & -> & Hl).
    cbn [append]. rewrite (UploadFacts.rfind_app "." ext (UploadFacts.pdf_no_dot ext Hl)).
    rewrite UploadFacts.drop_app_cons, Hl. reflexivity.
Qed.
